(** * qtapp: the extension system of the application shell

    A shallow embedding of the registry, the loader, the manifest
    handling, the plugin service, the capability router and the background
    worker of [qtapp], with the properties of the specification proved
    about them.

    Conventions.
    - A Python function that mutates [self] and may raise is a function
      [S -> Result A * S]: the state it leaves behind is returned together
      with either the returned value or the exception raised (what was
      mutated before a [raise] stays mutated).
    - A Python [dict] is an insertion-ordered association list.
    - The signals of a Qt object are the list of their emissions, oldest
      first; a slot that a class connects itself is run at the emission.
    - Python objects compared by identity carry the address they were
      allocated at. *)

From stdpp Require Import base option list numbers strings.
From Stdlib Require Import Ascii Sorting.Sorted.

Set Warnings "-register-all".

Set Default Proof Using "Type".

(** ** Exceptions and the state-and-exception monad *)

Inductive PyExc :=
| RegistrableAlreadyExistsError
| RegistrableNotFoundError
| FileNotFoundError
| JSONDecodeError
| TypeError
| OtherError (msg : string).

#[global] Instance PyExc_eq_dec : EqDecision PyExc.
Proof. solve_decision. Defined.

Inductive Result (A : Type) :=
| Ok (a : A)
| Raise (e : PyExc).
Arguments Ok {A} a.
Arguments Raise {A} e.

Definition is_ok {A} (r : Result A) : bool :=
  match r with Ok _ => true | Raise _ => false end.

Definition M (S A : Type) : Type := S -> Result A * S.

Definition ret {S A} (a : A) : M S A := fun s => (Ok a, s).

Definition bind {S A B} (c : M S A) (k : A -> M S B) : M S B :=
  fun s =>
    match c s with
    | (Ok a, s') => k a s'
    | (Raise e, s') => (Raise e, s')
    end.

Definition raise {S A} (e : PyExc) : M S A := fun s => (Raise e, s).
Definition get {S} : M S S := fun s => (Ok s, s).
Definition modify {S} (f : S -> S) : M S unit := fun s => (Ok tt, f s).

Notation "c >>> k" := (bind c (fun _ => k))
  (at level 100, k at level 200, right associativity).

(** The same for code that only computes a value or raises. *)
Definition rbind {A B} (r : Result A) (k : A -> Result B) : Result B :=
  match r with
  | Ok a => k a
  | Raise e => Raise e
  end.

(** [[f(x) for x in xs]]: the first exception ends the comprehension. *)
Fixpoint rmap {A B} (f : A -> Result B) (xs : list A) : Result (list B) :=
  match xs with
  | [] => Ok []
  | x :: xs' => rbind (f x) (fun y => rbind (rmap f xs') (fun ys => Ok (y :: ys)))
  end.

(** [for x in xs: body(x)] *)
Fixpoint for_each {S X} (xs : list X) (body : X -> M S unit) : M S unit :=
  match xs with
  | [] => ret tt
  | x :: xs' => body x >>> for_each xs' body
  end.

(** Running a computation of a component inside a larger state. *)
Definition zoom {S1 S2 A} (proj : S2 -> S1) (upd : S1 -> S2 -> S2)
    (c : M S1 A) : M S2 A :=
  fun s => match c (proj s) with (r, s1) => (r, upd s1 s) end.

(** ** Python dictionaries (insertion ordered) *)

Section Dict.
Context {K V : Type} `{EqDecision K}.

Definition dict := list (K * V).

(** [d.get(k, None)] *)
Fixpoint dict_get (k : K) (d : dict) : option V :=
  match d with
  | [] => None
  | (k', v) :: d' => if decide (k = k') then Some v else dict_get k d'
  end.

(** [d[k] = v]: an existing key keeps its position. *)
Fixpoint dict_set (k : K) (v : V) (d : dict) : dict :=
  match d with
  | [] => [(k, v)]
  | (k', v') :: d' =>
      if decide (k = k') then (k, v) :: d' else (k', v') :: dict_set k v d'
  end.

(** [d.pop(k)] for a key that is present. *)
Fixpoint dict_pop (k : K) (d : dict) : dict :=
  match d with
  | [] => []
  | (k', v') :: d' =>
      if decide (k = k') then d' else (k', v') :: dict_pop k d'
  end.

Definition dict_keys (d : dict) : list K := d.*1.
Definition dict_values (d : dict) : list V := d.*2.
End Dict.
Arguments dict : clear implicits.

(** ** utils/registrable.py: Registrable and BaseRegistry *)

(** [id: str = None]: the identifier is a string, or [None] for a class
    that never sets it. *)
Definition pyid := option string.

(** The part of [Registrable] the registry uses. *)
Class Registrable (T : Type) := reg_id : T -> pyid.

(** The two signals of a registry. *)
Inductive RegistrySignal (T : Type) :=
| registrableAdded (r : T)
| registrableRemoved (r : T).
Arguments registrableAdded {T} r.
Arguments registrableRemoved {T} r.

Record BaseRegistry (T : Type) := mkRegistry {
  _registrables : dict pyid T;
  registry_emitted : list (RegistrySignal T)
}.
Arguments mkRegistry {T}.
Arguments _registrables {T}.
Arguments registry_emitted {T}.

Inductive AddArg (T : Type) :=
| One (r : T)
| Several (rs : list T).
Arguments One {T} r.
Arguments Several {T} rs.

Section Registry.
Context {T : Type} `{Registrable T}.

(** [BaseRegistry.__init__] *)
Definition BaseRegistry_init : BaseRegistry T := mkRegistry [] [].

(** [BaseRegistry.registrable] *)
Definition BaseRegistry_registrable (id : pyid) (reg : BaseRegistry T) : option T :=
  dict_get id (_registrables reg).

(** [BaseRegistry.registrables] *)
Definition BaseRegistry_registrables (reg : BaseRegistry T) : dict pyid T :=
  _registrables reg.

(** The [else] branch of [BaseRegistry.add]: one Registrable. *)
Definition add_one (r : T) : M (BaseRegistry T) unit :=
  fun reg =>
    match dict_get (reg_id r) (_registrables reg) with
    | Some _ => (Raise RegistrableAlreadyExistsError, reg)
    | None =>
        (Ok tt,
         mkRegistry (dict_set (reg_id r) r (_registrables reg))
                    (registry_emitted reg ++ [registrableAdded r]))
    end.

(** [BaseRegistry.add] *)
Definition BaseRegistry_add (a : AddArg T) : M (BaseRegistry T) unit :=
  match a with
  | Several rs => for_each rs add_one
  | One r => add_one r
  end.

(** The [else] branch of [BaseRegistry.remove]. *)
Definition remove_one (r : T) : M (BaseRegistry T) unit :=
  fun reg =>
    match dict_get (reg_id r) (_registrables reg) with
    | None => (Raise RegistrableNotFoundError, reg)
    | Some _ =>
        (Ok tt,
         mkRegistry (dict_pop (reg_id r) (_registrables reg))
                    (registry_emitted reg ++ [registrableRemoved r]))
    end.

(** [BaseRegistry.remove] *)
Definition BaseRegistry_remove (a : AddArg T) : M (BaseRegistry T) unit :=
  match a with
  | Several rs => for_each rs remove_one
  | One r => remove_one r
  end.

(** The registry after a sequence of [add] calls, whatever each call
    returned or raised. *)
Fixpoint after_adds (calls : list (AddArg T)) (reg : BaseRegistry T)
    : BaseRegistry T :=
  match calls with
  | [] => reg
  | a :: calls' => after_adds calls' (BaseRegistry_add a reg).2
  end.

(** Every key is the id of its value and no id occurs twice. *)
Definition registry_wf (reg : BaseRegistry T) : Prop :=
  NoDup (dict_keys (_registrables reg)) /\
  Forall (fun kv => kv.1 = reg_id kv.2) (_registrables reg).
End Registry.

(** ** utils/worker.py: Worker *)

Inductive WorkerSignal (V : Type) :=
| finished
| error (info : PyExc)
| result (v : V).
Arguments finished {V}.
Arguments error {V} info.
Arguments result {V} v.

Record Worker (A V : Type) := mkWorker {
  fn : A -> Result V;
  args : A;
  signals : list (WorkerSignal V)
}.
Arguments mkWorker {A V}.
Arguments fn {A V}.
Arguments args {A V}.
Arguments signals {A V}.

(** [Worker.__init__] *)
Definition Worker_init {A V} (fn : A -> Result V) (args : A) : Worker A V :=
  mkWorker fn args [].





Definition count {X} (p : X -> bool) (l : list X) : nat :=
  length (filter (fun x => p x = true) l).

(** ** utils/registrable.py: RegistrableLoader *)

(** A class object: its address (classes are compared by identity) and the
    addresses of the classes it inherits from, directly or not. *)
Record PyClass := mkClass {
  cls_addr : nat;
  cls_name : string;
  cls_ancestors : list nat
}.

(** [issubclass(c, class_)] *)
Definition issubclass (c class_ : PyClass) : bool :=
  bool_decide (cls_addr class_ ∈ cls_addr c :: cls_ancestors c).

(** [c != class_] on class objects *)
Definition class_ne (c class_ : PyClass) : bool :=
  negb (bool_decide (cls_addr c = cls_addr class_)).

(** What a name of a module namespace is bound to: a class
    ([isinstance(obj, type)]) or anything else. *)
Inductive PyObj :=
| PyType (c : PyClass)
| PyOther (repr : string).

Definition Namespace := list (string * PyObj).

(** What the loader finds at a path: a directory with its entries, or a
    file with the outcome of executing it as a module (for a path that
    does not exist, [FileNotFoundError]). *)
Inductive FsEntry :=
| FsFile (name : string) (exec_module : Result Namespace)
| FsDir (name : string) (entries : list FsEntry).

(** Index of the last ["."] of a name: [name.rfind(".")] *)
Fixpoint rfind_dot (name : string) : option nat :=
  match name with
  | EmptyString => None
  | String c rest =>
      match rfind_dot rest with
      | Some i => Some (S i)
      | None => if decide (c = "."%char) then Some 0 else None
      end
  end.

(** [Path.suffix] of the final component. *)
Definition path_suffix (name : string) : string :=
  match rfind_dot name with
  | Some i =>
      if (0 <? i) && (i <? String.length name - 1)
      then String.substring i (String.length name - i) name
      else ""
  | None => ""
  end.

(** [_isValidModule] *)
Definition _isValidModule (modname ext : string) : bool :=
  bool_decide (ext = ".py") && negb (String.prefix "." modname).

Section Loader.
Context {T Args : Type}.
(** Calling the class [obj] with the forwarded arguments. *)
Variable instantiate : PyClass -> Args -> Result T.

(** The loop over [module.__dict__.items()]. *)
Fixpoint instantiate_all (items : Namespace) (class_ : PyClass)
    (a : Args) : Result (list T) :=
  match items with
  | [] => Ok []
  | (_, obj) :: items' =>
      match obj with
      | PyType c =>
          if issubclass c class_ && class_ne c class_ then
            rbind (instantiate c a) (fun registrable =>
            rbind (instantiate_all items' class_ a) (fun rest =>
            Ok (registrable :: rest)))
          else instantiate_all items' class_ a
      | PyOther _ => instantiate_all items' class_ a
      end
  end.

(** [RegistrableLoader._loadRegistrablesFromModule] *)
Definition _loadRegistrablesFromModule (name : string)
    (exec_module : Result Namespace) (class_ : PyClass) (a : Args)
    : Result (list T) :=
  if negb (_isValidModule name (path_suffix name)) then Ok []
  else rbind exec_module (fun module => instantiate_all module class_ a).

(** [RegistrableLoader.load] *)
Fixpoint RegistrableLoader_load (path : FsEntry) (class_ : PyClass)
    (a : Args) : Result (list T) :=
  match path with
  | FsDir _ entries =>
      (fix iterdir (es : list FsEntry) : Result (list T) :=
         match es with
         | [] => Ok []
         | itemFile :: es' =>
             rbind
               (match itemFile with
                | FsDir _ _ => RegistrableLoader_load itemFile class_ a
                | FsFile n x => _loadRegistrablesFromModule n x class_ a
                end)
               (fun found =>
                  rbind (iterdir es') (fun rest => Ok (found ++ rest)))
         end) entries
  | FsFile n x => _loadRegistrablesFromModule n x class_ a
  end.
End Loader.

(** The classes among the definitions of a module that implement
    [class_] and are not [class_] itself, in the order of the namespace. *)
Definition implementing_types (module : Namespace) (class_ : PyClass)
    : list PyClass :=
  omap (fun item =>
          match item.2 with
          | PyType c =>
              if issubclass c class_ && class_ne c class_ then Some c else None
          | PyOther _ => None
          end) module.

(** ** Values read from JSON, and paths *)

(** The Python values [json.load] produces (numbers with a fraction are
    left out); a dict is given by its items, in order, with pairwise
    different keys. *)
Inductive PyVal :=
| PyNone
| PyBool (b : bool)
| PyInt (z : Z)
| PyStr (s : string)
| PyList (items : list PyVal)
| PyDict (items : list (string * PyVal)).

(** [for obj in v]: the elements of a list, the keys of a dict, the
    characters of a string; anything else is not iterable. *)
Definition py_iter (v : PyVal) : Result (list PyVal) :=
  match v with
  | PyList items => Ok items
  | PyDict items => Ok (PyStr <$> items.*1)
  | PyStr s => Ok ((fun c => PyStr (String c EmptyString)) <$> String.list_ascii_of_string s)
  | _ => Raise TypeError
  end.

(** A [pathlib] path of a POSIX system: anchored at the root or not, and
    its components. *)
Record Path := mkPath {
  path_absolute : bool;
  path_parts : list string
}.

#[global] Instance Path_eq_dec : EqDecision Path.
Proof. solve_decision. Defined.

(** The pieces of a string between ["/"] characters. *)
Fixpoint split_slash (s : string) : list string :=
  match s with
  | EmptyString => [EmptyString]
  | String c rest =>
      if decide (c = "/"%char) then EmptyString :: split_slash rest
      else match split_slash rest with
           | [] => [String c EmptyString]
           | piece :: pieces => String c piece :: pieces
           end
  end.

(** [Path(s)]: empty components and ["."] are dropped. *)
Definition Path_of_string (s : string) : Path :=
  mkPath (String.prefix "/" s)
         (filter (fun piece => piece <> "" /\ piece <> ".") (split_slash s)).

(** [p.joinpath(q)] / [p / q] on two paths: an absolute [q] replaces [p]. *)
Definition Path_join (p q : Path) : Path :=
  if path_absolute q then q
  else mkPath (path_absolute p) (path_parts p ++ path_parts q).

(** [p.joinpath(v)] for a value [v]: only a string is accepted. *)
Definition Path_joinpath (p : Path) (v : PyVal) : Result Path :=
  match v with
  | PyStr s => Ok (Path_join p (Path_of_string s))
  | _ => Raise TypeError
  end.

(** [p.parent] *)
Definition Path_parent (p : Path) : Path :=
  mkPath (path_absolute p) (removelast (path_parts p)).

(** Removing [".."] components, as [resolve] does (symbolic links are not
    modelled); [acc] is the reversed prefix already walked. *)
Fixpoint collapse_dotdot (acc parts : list string) : list string :=
  match parts with
  | [] => rev acc
  | piece :: parts' =>
      if decide (piece = "..") then collapse_dotdot (tail acc) parts'
      else collapse_dotdot (piece :: acc) parts'
  end.

(** [p.resolve()] in the working directory [cwd]. *)
Definition Path_resolve (cwd p : Path) : Path :=
  mkPath true (collapse_dotdot [] (path_parts (Path_join cwd p))).

(** ** plugins/schemas.py *)

Record ModuleMetadata := mkModuleMetadata {
  id : PyVal;
  relativePath : PyVal;
  displayName : PyVal;
  description : PyVal
}.

Definition ModuleMetadata_fields : list string :=
  ["id"; "relativePath"; "displayName"; "description"].

(** [ModuleMetadata] called with the entries of [obj] as keywords, the
    constructor the dataclass generates: the
    keywords must be field names, the three fields without a default must
    be there, and no value is type-checked. *)
Definition ModuleMetadata_init (obj : PyVal) : Result ModuleMetadata :=
  match obj with
  | PyDict kwargs =>
      if forallb (fun k => bool_decide (k ∈ ModuleMetadata_fields)) kwargs.*1
      then
        match dict_get "id" kwargs, dict_get "relativePath" kwargs,
              dict_get "displayName" kwargs with
        | Some i, Some r, Some d =>
            Ok (mkModuleMetadata i r d
                  (default PyNone (dict_get "description" kwargs)))
        | _, _, _ => Raise TypeError
        end
      else Raise TypeError
  | _ => Raise TypeError
  end.

Record Repository := mkRepository {
  path : Path;
  modulesMetadata : list ModuleMetadata
}.

(** What [open] and [json.load] make of the file at a path: the
    exception they raise (the file cannot be opened, its bytes are not
    UTF-8, its text is not JSON), or the value that was read. *)
Inductive ManifestFile :=
| ReadError (e : PyExc)
| Json (jsonData : PyVal).

Section Schemas.
(** The working directory and the files of the file system; no file at
    a path makes [open] raise FileNotFoundError. *)
Variable cwd : Path.
Variable files : Path -> option ManifestFile.

(** [Repository.loadFromFile]: nothing is caught, so what the read raises
    is raised. *)
Definition Repository_loadFromFile (p : Path) : Result Repository :=
  let p := Path_resolve cwd p in
  match files p with
  | None => Raise FileNotFoundError
  | Some (ReadError e) => Raise e
  | Some (Json jsonData) =>
      rbind (py_iter jsonData) (fun objs =>
      rbind (rmap ModuleMetadata_init objs) (fun modulesMetadata =>
      Ok (mkRepository (Path_parent p) modulesMetadata)))
  end.
End Schemas.

Record Module := mkModule {
  _id : PyVal;
  _displayName : PyVal;
  _description : PyVal;
  _path : Path;
  _enabled : bool
}.

(** [Module.__init__] *)
Definition Module_init (dirPath : Path) (metadata : ModuleMetadata)
    : Result Module :=
  rbind (Path_joinpath dirPath (relativePath metadata)) (fun p =>
  Ok (mkModule (id metadata) (displayName metadata) (description metadata)
        p false)).

(** ** common/models/ItemTableModel.py, for items compared by identity *)

(** The items are the addresses of the objects; [itemAdded] emissions are
    kept in [items_added]. *)
Record ItemTableModel := mkItemTableModel {
  _items : list nat;
  items_added : list nat
}.

(** [ItemTableModel.isPresent]: [item in self.items] *)
Definition isPresent (item : nat) (m : ItemTableModel) : bool :=
  bool_decide (item ∈ _items m).

(** [ItemTableModel.appendItem] *)
Definition appendItem (item : nat) (m : ItemTableModel)
    : bool * ItemTableModel :=
  if isPresent item m then (false, m)
  else (true, mkItemTableModel (_items m ++ [item]) (items_added m ++ [item])).

(** ** plugins/__init__.py: BasePlugin *)

(** [NavigationBarButton(qtaIconStr, toolTip)]; the lookup of the icon by
    its name is outside of the model. *)
Record NavigationBarButton := mkNavigationBarButton {
  qtaIconStr : string;
  toolTip : string
}.

(** A Registrable a plugin hands to the application: its runtime type and
    its id. *)
Record AuxRegistrable := mkAux {
  aux_type : PyClass;
  aux_id : pyid
}.

#[global] Instance AuxRegistrable_Registrable : Registrable AuxRegistrable :=
  aux_id.

(** A plugin object. [_priority] and [_navBarBtn] are set by
    [BasePlugin.__init__]; the id, the widget and the registrables are what
    the subclass defines (in [BasePlugin] itself: [None], [None], [[]]). *)
Record BasePlugin := mkPlugin {
  plugin_id : pyid;
  _priority : Z;
  _navBarBtn : option NavigationBarButton;
  plugin_widget : option string;
  plugin_registrables : list AuxRegistrable
}.

#[global] Instance BasePlugin_Registrable : Registrable BasePlugin :=
  plugin_id.

(** Truth value of an [Optional[str]]: [None] and [""] are false. *)
Definition truthy (s : option string) : bool :=
  match s with
  | Some s => negb (bool_decide (s = ""))
  | None => false
  end.

(** What a subclass adds to [BasePlugin]. *)
Record PluginSubclass := mkPluginSubclass {
  sub_id : pyid;
  sub_widget : option string;
  sub_registrables : list AuxRegistrable
}.

(** [BasePlugin.__init__], called by the constructor of the subclass. *)
Definition BasePlugin_init (sub : PluginSubclass) (priority : Z)
    (qtaIconStr toolTip : option string) : BasePlugin :=
  mkPlugin (sub_id sub) priority
    (if truthy qtaIconStr && truthy toolTip
     then Some (mkNavigationBarButton (default "" qtaIconStr)
                  (default "" toolTip))
     else None)
    (sub_widget sub) (sub_registrables sub).

(** [BasePlugin.priority] *)
Definition priority (p : BasePlugin) : Z := _priority p.

(** [BasePlugin.navigationBarButton] *)
Definition navigationBarButton (p : BasePlugin) : option NavigationBarButton :=
  _navBarBtn p.

(** The classes the application knows. *)
Definition Registrable_class : PyClass := mkClass 0 "Registrable" [].
Definition BasePlugin_class : PyClass := mkClass 1 "BasePlugin" [0].
Definition BaseDock_class : PyClass := mkClass 2 "BaseDock" [0].
Definition BaseSetting_class : PyClass := mkClass 3 "BaseSetting" [0].

(** ** plugins/services.py: PluginService *)

Record PluginService := mkPluginService {
  _registry : BaseRegistry BasePlugin;
  _moduleListModel : ItemTableModel;
  pluginAdded : list BasePlugin
}.

(** The service together with the Module objects alive; the address of a
    Module is its index in [module_objects]. *)
Record PluginWorld := mkPluginWorld {
  module_objects : list Module;
  service : PluginService
}.

(** [PluginService.__init__] *)
Definition PluginService_init : PluginService :=
  mkPluginService BaseRegistry_init (mkItemTableModel [] []) [].

(** The emissions of [registrableAdded] among [sigs]. *)
Definition added_plugins (sigs : list (RegistrySignal BasePlugin))
    : list BasePlugin :=
  omap (fun sig => match sig with
                   | registrableAdded p => Some p
                   | registrableRemoved _ => None
                   end) sigs.

(** [PluginService.addPlugin]; the slot connected in [__init__] emits
    [pluginAdded] for what the registry emits. *)
Definition addPlugin (plugin : BasePlugin) : M PluginService unit :=
  fun svc =>
    let '(r, reg) := BaseRegistry_add (One plugin) (_registry svc) in
    let emitted := drop (length (registry_emitted (_registry svc)))
                        (registry_emitted reg) in
    (r, mkPluginService reg (_moduleListModel svc)
          (pluginAdded svc ++ added_plugins emitted)).

(** [PluginService.addModule], with the address of the Module. *)
Definition addModule (module : nat) : M PluginWorld unit :=
  fun w =>
    let svc := service w in
    (Ok tt,
     mkPluginWorld (module_objects w)
       (mkPluginService (_registry svc)
          (appendItem module (_moduleListModel svc)).2
          (pluginAdded svc))).

(** Allocation of a Module object. *)
Definition new_Module (m : Module) : M PluginWorld nat :=
  fun w =>
    (Ok (length (module_objects w)),
     mkPluginWorld (module_objects w ++ [m]) (service w)).

(** [Module(dirPath, metadata)] *)
Definition construct_Module (dirPath : Path) (metadata : ModuleMetadata)
    : M PluginWorld nat :=
  match Module_init dirPath metadata with
  | Ok m => new_Module m
  | Raise e => raise e
  end.

(** [PluginService.addModulesFromRepository] *)
Definition addModulesFromRepository (repository : Repository)
    : M PluginWorld unit :=
  for_each (modulesMetadata repository) (fun metadata =>
    bind (construct_Module (path repository) metadata) addModule).

Section PluginServiceLoad.
Variable cwd : Path.
Variable files : Path -> option ManifestFile.
(** What the loader finds at a path. *)
Variable fs : Path -> FsEntry.
(** Calling a plugin class without arguments. *)
Variable instantiate : PyClass -> unit -> Result BasePlugin.

(** [module.enabled = True] *)
Definition set_enabled (module : nat) (enabled : bool) : M PluginWorld unit :=
  modify (fun w =>
    mkPluginWorld
      (alter (fun m => mkModule (_id m) (_displayName m) (_description m)
                         (_path m) enabled) module (module_objects w))
      (service w)).

(** [PluginService.addPluginsFromModule] *)
Definition addPluginsFromModule (module : nat) (m : Module)
    : M PluginWorld unit :=
  set_enabled module true >>>
  match RegistrableLoader_load instantiate (fs (_path m))
          BasePlugin_class tt with
  | Raise e => raise e
  | Ok plugins =>
      for_each plugins (fun plugin =>
        zoom service (fun svc w => mkPluginWorld (module_objects w) svc)
             (addPlugin plugin))
  end.

(** [module.id in moduleIds] *)
Definition id_in (v : PyVal) (moduleIds : list string) : bool :=
  match v with
  | PyStr s => bool_decide (s ∈ moduleIds)
  | _ => false
  end.

(** The first loop of [PluginService.load]: every repository file is
    loaded and its modules are added. *)
Definition load_repositories (repositoryFiles : list Path)
    : M PluginWorld unit :=
  for_each repositoryFiles (fun repositoryFile =>
    match Repository_loadFromFile cwd files repositoryFile with
    | Raise e => raise e
    | Ok repository => addModulesFromRepository repository
    end).

(** The second loop: the modules whose id is in [moduleIds] are enabled
    and their plugins are loaded. *)
Definition load_enabled (moduleIds : list string) : M PluginWorld unit :=
  bind get (fun w =>
  for_each (_items (_moduleListModel (service w))) (fun module =>
    match module_objects w !! module with
    | Some m =>
        if id_in (_id m) moduleIds then addPluginsFromModule module m
        else ret tt
    | None => ret tt
    end)).

(** [PluginService.load] *)
Definition PluginService_load (repositoryFiles : list Path)
    (moduleIds : list string) : M PluginWorld unit :=
  load_repositories repositoryFiles >>> load_enabled moduleIds.
End PluginServiceLoad.

(** ** docks/services.py, settings/services.py *)

Record DockService := mkDockService {
  dock_registry : BaseRegistry AuxRegistrable
}.

Record SettingService := mkSettingService {
  setting_registry : BaseRegistry AuxRegistrable
}.

(** [DockService.addDock] *)
Definition addDock (dock : AuxRegistrable) : M DockService unit :=
  zoom dock_registry (fun reg _ => mkDockService reg)
       (BaseRegistry_add (One dock)).

(** [DockService.docks] *)
Definition docks (s : DockService) : dict pyid AuxRegistrable :=
  BaseRegistry_registrables (dock_registry s).

(** [SettingService.addSetting] *)
Definition addSetting (setting : AuxRegistrable) : M SettingService unit :=
  zoom setting_registry (fun reg _ => mkSettingService reg)
       (BaseRegistry_add (One setting)).

(** [SettingService.settings] *)
Definition settings (s : SettingService) : dict pyid AuxRegistrable :=
  BaseRegistry_registrables (setting_registry s).

(** ** app.py *)

(** The main window: the buttons of the navigation bar and the widgets of
    the stack, in the order they were added. *)
Record MainWindow := mkMainWindow {
  _navBar : list NavigationBarButton;
  _stack : list string
}.

Record BaseApplication := mkApp {
  pluginService : PluginService;
  settingService : SettingService;
  dockService : DockService;
  _mainWindow : MainWindow
}.

(** [plugins.sort(key=...)]: Python's sort is stable. The list is sorted
    from its end, each element put in front of the sorted elements whose
    key is not smaller. *)
Fixpoint insert_by_key {A} (key : A -> Z) (x : A) (sorted : list A) : list A :=
  match sorted with
  | [] => [x]
  | y :: rest =>
      if (key x <=? key y)%Z then x :: y :: rest
      else y :: insert_by_key key x rest
  end.

Definition sort_by_key {A} (key : A -> Z) (l : list A) : list A :=
  foldr (fun x sorted => insert_by_key key x sorted) [] l.

(** [_MainWindow.addPlugin] *)
Definition MainWindow_addPlugin (plugin : BasePlugin) (win : MainWindow)
    : MainWindow :=
  match plugin_widget plugin, navigationBarButton plugin with
  | Some widget, Some navBarBtn =>
      mkMainWindow (_navBar win ++ [navBarBtn]) (_stack win ++ [widget])
  | _, _ => win
  end.

(** [PluginService.plugins] *)
Definition plugins (svc : PluginService) : dict pyid BasePlugin :=
  BaseRegistry_registrables (_registry svc).

(** The plugins [BaseApplication.run] hands to the main window, in order. *)
Definition run_order (app : BaseApplication) : list BasePlugin :=
  sort_by_key priority (dict_values (plugins (pluginService app))).

(** [BaseApplication.run], up to the loop that adds the plugins to the
    main window (the selection of a plugin, the docks and the event loop
    follow). *)
Definition BaseApplication_run (app : BaseApplication) : BaseApplication :=
  mkApp (pluginService app) (settingService app) (dockService app)
    (foldl (fun win plugin => MainWindow_addPlugin plugin win)
       (_mainWindow app) (run_order app)).

(** [BaseApplication.handleRegistrable] *)
Definition handleRegistrable (registrable : AuxRegistrable)
    : M BaseApplication unit :=
  let cls := aux_type registrable in
  (if issubclass cls BaseDock_class
   then zoom dockService
          (fun d app => mkApp (pluginService app) (settingService app) d
                          (_mainWindow app))
          (addDock registrable)
   else ret tt) >>>
  (if issubclass cls BaseSetting_class
   then zoom settingService
          (fun s app => mkApp (pluginService app) s (dockService app)
                          (_mainWindow app))
          (addSetting registrable)
   else ret tt).


(** The setting [BaseApplication.__init__] registers. *)
Definition EnabledExtensionsSetting : AuxRegistrable :=
  mkAux (mkClass 4 "EnabledExtensionsSetting" [3; 0])
        (Some "application/enabledExtensions").

(** [BaseApplication.__init__]: the services and the empty main window. *)
Definition BaseApplication_init : BaseApplication :=
  mkApp PluginService_init
    (addSetting EnabledExtensionsSetting (mkSettingService BaseRegistry_init)).2
    (mkDockService BaseRegistry_init)
    (mkMainWindow [] []).

(** ** common/models/ItemTableModel.py: the other operations *)

(** [l.insert(i, x)]: a negative index counts from the end, and an index
    outside of the list is moved to the nearest end. *)
Definition py_insert {A} (i : Z) (x : A) (l : list A) : list A :=
  let n := Z.of_nat (length l) in
  let k := if (i <? 0)%Z then Z.max 0 (i + n) else Z.min i n in
  take (Z.to_nat k) l ++ x :: drop (Z.to_nat k) l.

(** [l.remove(x)] for an [x] that is in the list: the first one goes. *)
Fixpoint py_remove (x : nat) (l : list nat) : list nat :=
  match l with
  | [] => []
  | y :: l' => if decide (y = x) then l' else y :: py_remove x l'
  end.

(** [ItemTableModel.insertItem] *)
Definition insertItem (row : Z) (item : nat) (m : ItemTableModel)
    : bool * ItemTableModel :=
  if isPresent item m then (false, m)
  else (true, mkItemTableModel (py_insert row item (_items m))
                (items_added m ++ [item])).

(** [ItemTableModel.removeItem]: what it returns, the model, and the
    emissions of [itemRemoved]. *)
Definition removeItem (item : nat) (m : ItemTableModel)
    : bool * ItemTableModel * list nat :=
  if bool_decide (item ∈ _items m)
  then (true, mkItemTableModel (py_remove item (_items m)) (items_added m),
        [item])
  else (false, m, []).

(** The loop of [ItemTableModel.indexOf] from index [i] on. *)
Fixpoint index_from (item : nat) (l : list nat) (i : Z) : Z :=
  match l with
  | [] => (-1)%Z
  | value :: l' =>
      if decide (value = item) then i else index_from item l' (i + 1)%Z
  end.

(** [ItemTableModel.indexOf] *)
Definition indexOf (item : nat) (m : ItemTableModel) : Z :=
  index_from item (_items m) 0.

(** [ItemTableModel.rowCount] *)
Definition rowCount (m : ItemTableModel) : Z := Z.of_nat (length (_items m)).

(** A call that changes the items, and the model after a sequence of
    calls. *)
Inductive ItemCall :=
| CallAppend (item : nat)
| CallInsert (row : Z) (item : nat)
| CallRemoveItem (item : nat).

Definition run_item_call (c : ItemCall) (m : ItemTableModel) : ItemTableModel :=
  match c with
  | CallAppend item => (appendItem item m).2
  | CallInsert row item => (insertItem row item m).2
  | CallRemoveItem item => (removeItem item m).1.2
  end.

Definition after_item_calls (calls : list ItemCall) (m : ItemTableModel)
    : ItemTableModel :=
  foldl (fun m c => run_item_call c m) m calls.

(** ** app.py: the selection of a plugin *)

(** What the buttons of the navigation bar went through, and the plugin
    the main window remembers. *)
Record Selection := mkSelection {
  clicked : list NavigationBarButton;
  _selectedPlugin : option BasePlugin
}.

(** [_MainWindow.setCurrentPlugin] with [animate=False]. *)
Definition setCurrentPlugin (plugin : option BasePlugin) (sel : Selection)
    : bool * Selection :=
  match plugin with
  | None => (false, sel)
  | Some p =>
      match navigationBarButton p with
      | None => (false, sel)
      | Some button => (true, mkSelection (clicked sel ++ [button]) (Some p))
      end
  end.

(** [BaseApplication.navigate]: the function has no [return], so its
    result is [None] whatever [setCurrentPlugin] returned. *)
Definition navigate (pluginId : string) (app : BaseApplication)
    (sel : Selection) : option bool * Selection :=
  let plugin := dict_get (Some pluginId) (plugins (pluginService app)) in
  (None, (setCurrentPlugin plugin sel).2).

(** [not r] for what a function returned: [None] is false. *)
Definition py_not (r : option bool) : bool :=
  match r with
  | None => true
  | Some b => negb b
  end.

(** The second part of [BaseApplication.run]: the plugin named by the
    setting [application/selectedPlugin] is selected, or else the first
    button of the navigation bar is clicked. *)
Definition run_select (selectedPlugin : option string)
    (app : BaseApplication) (sel : Selection) : Selection :=
  let '(first, sel1) :=
    if negb (truthy selectedPlugin) then (true, sel)
    else let '(r, sel1) := navigate (default "" selectedPlugin) app sel in
         (py_not r, sel1) in
  if first then
    match _navBar (_mainWindow app) with
    | button :: _ => mkSelection (clicked sel1 ++ [button]) (_selectedPlugin sel1)
    | [] => sel1
    end
  else sel1.

(** ** utils/singleton.py *)

(** The state of one decorated class: the [instances] dictionary, which
    only ever has the key [cls], and the arguments the class was called
    with so far. *)
Record SingletonState (Args I : Type) := mkSingleton {
  instances : option I;
  constructed : list Args
}.
Arguments mkSingleton {Args I}.
Arguments instances {Args I}.
Arguments constructed {Args I}.

(** [get_instance], for a class whose call is [cls]. *)
Definition get_instance {Args I} (cls : Args -> Result I) (args : Args)
    : M (SingletonState Args I) I :=
  fun st =>
    match instances st with
    | Some i => (Ok i, st)
    | None =>
        match cls args with
        | Ok i => (Ok i, mkSingleton (Some i) (constructed st ++ [args]))
        | Raise e => (Raise e, mkSingleton None (constructed st ++ [args]))
        end
    end.

(** The results of a sequence of [get_instance] calls. *)
Fixpoint get_instances {Args I} (cls : Args -> Result I) (calls : list Args)
    (st : SingletonState Args I) : list (Result I) * SingletonState Args I :=
  match calls with
  | [] => ([], st)
  | args :: calls' =>
      let '(r, st1) := get_instance cls args st in
      let '(rs, st2) := get_instances cls calls' st1 in
      (r :: rs, st2)
  end.

(** ** utils/passwords.py *)

(** The random source: the numbers it will deliver, and how many were
    taken. *)
Record Rand := mkRand {
  draws : nat -> nat;
  taken : nat
}.

(** [random._randbelow(n)] for [n > 0] *)
Definition randbelow (n : nat) : M Rand nat :=
  fun r => (Ok (draws r (taken r) mod n), mkRand (draws r) (S (taken r))).

(** [secrets.choice(seq)] *)
Definition choice (seq : list ascii) : M Rand ascii :=
  match seq with
  | [] => raise (OtherError "IndexError")
  | c :: _ =>
      bind (randbelow (length seq)) (fun i => ret (nth i seq c))
  end.

(** [x[i], x[j] = x[j], x[i]] *)
Definition swap (i j : nat) (x : list ascii) : list ascii :=
  match x !! i, x !! j with
  | Some a, Some b => <[j := a]> (<[i := b]> x)
  | _, _ => x
  end.

(** The loop of [SystemRandom().shuffle(x)]: [i] runs from [n] down to
    1. *)
Fixpoint shuffle_from (n : nat) (x : list ascii) : M Rand (list ascii) :=
  match n with
  | 0 => ret x
  | S n' =>
      bind (randbelow (S n)) (fun j => shuffle_from n' (swap n j x))
  end.

Definition shuffle (x : list ascii) : M Rand (list ascii) :=
  shuffle_from (length x - 1) x.

(** [string.ascii_letters], [string.digits], [string.punctuation] *)
Definition letters : list ascii :=
  String.list_ascii_of_string
    "abcdefghijklmnopqrstuvwxyzABCDEFGHIJKLMNOPQRSTUVWXYZ".
Definition digits : list ascii := String.list_ascii_of_string "0123456789".
Definition specials : list ascii :=
  ascii_of_nat <$> (seq 33 15 ++ seq 58 7 ++ seq 91 6 ++ seq 123 4).

(** [PasswordGenerator.CharacterSet] *)
Definition LETTERS : Z := 1.
Definition DIGITS : Z := Z.shiftl 1 1.
Definition SPECIALS : Z := Z.shiftl 1 2.

(** [isSet] *)
Definition isSet (value charSet : Z) : bool :=
  negb (Z.land value charSet =? 0)%Z.

(** [choice(allCharacters) for _ in range(n)] *)
Fixpoint choices (n : nat) (allCharacters : list ascii) : M Rand (list ascii) :=
  match n with
  | 0 => ret []
  | S n' =>
      bind (choice allCharacters) (fun c =>
      bind (choices n' allCharacters) (fun cs => ret (c :: cs)))
  end.

(** The characters [generatePassword] may draw from: [allCharacters]. *)
Definition allCharacters (charSet : Z) : list ascii :=
  (if isSet charSet LETTERS then letters else []) ++
  (if isSet charSet DIGITS then digits else []) ++
  (if isSet charSet SPECIALS then specials else []).

(** [PasswordGenerator.generatePassword] *)
Definition generatePassword (length : Z) (charSet : Z) : M Rand string :=
  bind (if isSet charSet LETTERS
        then bind (choice letters) (fun c => ret [c]) else ret []) (fun p1 =>
  bind (if isSet charSet DIGITS
        then bind (choice digits) (fun c => ret [c]) else ret []) (fun p2 =>
  bind (if isSet charSet SPECIALS
        then bind (choice specials) (fun _ => ret tt) else ret tt) (fun _ =>
  bind (choices (Z.to_nat (length - 3)) (allCharacters charSet)) (fun rest =>
  bind (shuffle (p1 ++ p2 ++ rest)) (fun password =>
  ret (String.string_of_list_ascii password)))))).

(** ** common/models/TreeModel.py *)

(** A [QStandardItem], by the text it displays: [None] for
    [QStandardItem()]. *)
Definition QStandardItem := option string.

(** [_TreeItem]: the data of its columns and its children. The parent
    reference is left out; only [parent] and [row] read it. *)
Inductive TreeItem :=
| mkTreeItem (itemData : list QStandardItem) (childItems : list TreeItem).

Definition _itemData (t : TreeItem) : list QStandardItem :=
  match t with mkTreeItem itemData _ => itemData end.
Definition _childItems (t : TreeItem) : list TreeItem :=
  match t with mkTreeItem _ childItems => childItems end.

Definition TreeItem_childCount (t : TreeItem) : Z :=
  Z.of_nat (length (_childItems t)).
Definition TreeItem_columnCount (t : TreeItem) : Z :=
  Z.of_nat (length (_itemData t)).

(** [_TreeItem(parent)] *)
Definition TreeItem_init (parent : option TreeItem) : TreeItem :=
  mkTreeItem
    match parent with
    | Some p => replicate (Z.to_nat (TreeItem_columnCount p)) None
    | None => []
    end
    [].

(** [l.pop(i)]: IndexError outside the list. *)
Definition py_pop {A} (i : Z) (l : list A) : Result (list A) :=
  let n := Z.of_nat (length l) in
  let k := if (i <? 0)%Z then (i + n)%Z else i in
  if ((0 <=? k) && (k <? n))%Z then Ok (delete (Z.to_nat k) l)
  else Raise (OtherError "IndexError").

(** [for _ in range(n): l.pop(position)] *)
Fixpoint pop_times {A} (n : nat) (position : Z) (l : list A) : Result (list A) :=
  match n with
  | 0 => Ok l
  | S n' => rbind (py_pop position l) (pop_times n' position)
  end.

(** [for _ in range(n): l.insert(position, x)] *)
Fixpoint insert_times {A} (n : nat) (position : Z) (x : A) (l : list A) : list A :=
  match n with
  | 0 => l
  | S n' => insert_times n' position x (py_insert position x l)
  end.

(** The loop of [insertChildren]: every new item is made from [self]. *)
Fixpoint insertChildren_loop (n : nat) (position : Z) (t : TreeItem) : TreeItem :=
  match n with
  | 0 => t
  | S n' =>
      insertChildren_loop n' position
        (mkTreeItem (_itemData t)
           (py_insert position (TreeItem_init (Some t)) (_childItems t)))
  end.

(** [_TreeItem.insertChildren] *)
Definition insertChildren (position count : Z) (t : TreeItem) : bool * TreeItem :=
  if ((position <? 0) || (TreeItem_childCount t <? position))%Z then (false, t)
  else (true, insertChildren_loop (Z.to_nat count) position t).

(** [_TreeItem.removeChildren] *)
Definition removeChildren (position count : Z) (t : TreeItem)
    : Result (bool * TreeItem) :=
  if ((position <? 0) || (TreeItem_childCount t <? position + count))%Z
  then Ok (false, t)
  else rbind (pop_times (Z.to_nat count) position (_childItems t))
         (fun childItems => Ok (true, mkTreeItem (_itemData t) childItems)).

(** [_TreeItem.insertColumns]; what the call on a child returns is not
    looked at. *)
Fixpoint insertColumns (position columns : Z) (t : TreeItem) : bool * TreeItem :=
  match t with
  | mkTreeItem itemData childItems =>
      if ((position <? 0) || (Z.of_nat (length itemData) <? position))%Z
      then (false, t)
      else (true,
            mkTreeItem (insert_times (Z.to_nat columns) position None itemData)
              ((fun child => (insertColumns position columns child).2)
                 <$> childItems))
  end.

(** [_TreeItem.removeColumns] *)
Fixpoint removeColumns (position columns : Z) (t : TreeItem)
    : Result (bool * TreeItem) :=
  match t with
  | mkTreeItem itemData childItems =>
      if ((position <? 0) ||
          (Z.of_nat (length itemData) <? position + columns))%Z
      then Ok (false, t)
      else
        rbind (pop_times (Z.to_nat columns) position itemData) (fun itemData' =>
        rbind ((fix each (children : list TreeItem) : Result (list TreeItem) :=
                  match children with
                  | [] => Ok []
                  | child :: children' =>
                      rbind (removeColumns position columns child) (fun r =>
                      rbind (each children') (fun rest => Ok (r.2 :: rest)))
                  end) childItems) (fun childItems' =>
        Ok (true, mkTreeItem itemData' childItems')))
  end.

(** [TreeModel]: the root item and the begin/end notifications sent. *)
Inductive ModelSignal :=
| beginInsertRows (first last : Z)
| endInsertRows
| beginRemoveRows (first last : Z)
| endRemoveRows.

Record TreeModel := mkTreeModel {
  _rootItem : TreeItem;
  notifications : list ModelSignal
}.

(** The item at a path of rows below [t]. *)
Fixpoint item_at (path : list nat) (t : TreeItem) : option TreeItem :=
  match path with
  | [] => Some t
  | row :: path' =>
      match _childItems t !! row with
      | Some c => item_at path' c
      | None => None
      end
  end.

(** Replacing the item at a path. *)
Fixpoint set_item_at (path : list nat) (new : TreeItem) (t : TreeItem) : TreeItem :=
  match path with
  | [] => new
  | row :: path' =>
      mkTreeItem (_itemData t)
        (alter (set_item_at path' new) row (_childItems t))
  end.

(** [TreeModel.item]: the item an index points to, the root for an
    invalid index. An index is given by the path of its item. *)
Definition TreeModel_item (index : option (list nat)) (m : TreeModel)
    : list nat * TreeItem :=
  match index with
  | Some path =>
      match item_at path (_rootItem m) with
      | Some t => (path, t)
      | None => ([], _rootItem m)
      end
  | None => ([], _rootItem m)
  end.

(** A call [item.insertChildren(args)] with positional arguments: the
    method takes two. *)
Definition call_insertChildren (args : list Z) (t : TreeItem)
    : Result (bool * TreeItem) :=
  match args with
  | [position; count] => Ok (insertChildren position count t)
  | _ => Raise TypeError
  end.

(** [TreeModel.insertRows] *)
Definition insertRows (position rows : Z) (parent : option (list nat))
    : M TreeModel bool :=
  fun m =>
    let '(path, parentItem) := TreeModel_item parent m in
    let m1 := mkTreeModel (_rootItem m)
                (notifications m ++
                   [beginInsertRows position (position + rows - 1)]) in
    let columnCount := TreeItem_columnCount (_rootItem m1) in
    match call_insertChildren [position; rows; columnCount] parentItem with
    | Ok (success, parentItem') =>
        (Ok success,
         mkTreeModel (set_item_at path parentItem' (_rootItem m1))
           (notifications m1 ++ [endInsertRows]))
    | Raise e => (Raise e, m1)
    end.

(** [TreeModel.removeRows] *)
Definition removeRows (position rows : Z) (parent : option (list nat))
    : M TreeModel bool :=
  fun m =>
    let '(path, parentItem) := TreeModel_item parent m in
    let m1 := mkTreeModel (_rootItem m)
                (notifications m ++
                   [beginRemoveRows position (position + rows - 1)]) in
    match removeChildren position rows parentItem with
    | Ok (success, parentItem') =>
        (Ok success,
         mkTreeModel (set_item_at path parentItem' (_rootItem m1))
           (notifications m1 ++ [endRemoveRows]))
    | Raise e => (Raise e, m1)
    end.

(** ** common/models/JsonModel.py *)

(** The values a document is made of: scalars (numbers with a fraction
    are left out), lists, and dicts given by their items in order, with
    pairwise different keys. A key is a string or an integer. *)
Inductive Scalar :=
| SNone
| SBool (b : bool)
| SInt (z : Z)
| SStr (s : string).

Inductive JsonKey :=
| KeyStr (s : string)
| KeyInt (i : Z).

#[global] Instance JsonKey_eq_dec : EqDecision JsonKey.
Proof. solve_decision. Defined.

Inductive Document :=
| DocLeaf (v : Scalar)
| DocList (items : list Document)
| DocDict (items : list (JsonKey * Document)).

(** [type(value)] *)
Inductive ValueType :=
| type_NoneType
| type_bool
| type_int
| type_str
| type_list
| type_dict.

Definition type_of (value : Document) : ValueType :=
  match value with
  | DocLeaf SNone => type_NoneType
  | DocLeaf (SBool _) => type_bool
  | DocLeaf (SInt _) => type_int
  | DocLeaf (SStr _) => type_str
  | DocList _ => type_list
  | DocDict _ => type_dict
  end.

(** [_JsonTreeItem]; the parent reference is left out, only [parent] and
    [row] read it. *)
Inductive JsonTreeItem :=
| mkJsonTreeItem (key : JsonKey) (value : Scalar)
    (valueType : option ValueType) (children : list JsonTreeItem).

Definition _key (item : JsonTreeItem) : JsonKey :=
  match item with mkJsonTreeItem key _ _ _ => key end.
Definition _value (item : JsonTreeItem) : Scalar :=
  match item with mkJsonTreeItem _ value _ _ => value end.
Definition _valueType (item : JsonTreeItem) : option ValueType :=
  match item with mkJsonTreeItem _ _ valueType _ => valueType end.
Definition _children (item : JsonTreeItem) : list JsonTreeItem :=
  match item with mkJsonTreeItem _ _ _ children => children end.

(** [_JsonTreeItem.__init__] *)
Definition JsonTreeItem_init : JsonTreeItem :=
  mkJsonTreeItem (KeyStr "") (SStr "") None [].

(** The setters of [key], [value] and [valueType], and [appendChild]. *)
Definition set_key (key : JsonKey) (item : JsonTreeItem) : JsonTreeItem :=
  mkJsonTreeItem key (_value item) (_valueType item) (_children item).
Definition set_value (value : Scalar) (item : JsonTreeItem) : JsonTreeItem :=
  mkJsonTreeItem (_key item) value (_valueType item) (_children item).
Definition set_valueType (valueType : ValueType) (item : JsonTreeItem)
    : JsonTreeItem :=
  mkJsonTreeItem (_key item) (_value item) (Some valueType) (_children item).
Definition appendChild (child : JsonTreeItem) (item : JsonTreeItem)
    : JsonTreeItem :=
  mkJsonTreeItem (_key item) (_value item) (_valueType item)
    (_children item ++ [child]).

(** [a < b] on keys: strings and integers are not comparable with each
    other. *)
Definition key_lt (a b : JsonKey) : Result bool :=
  match a, b with
  | KeyStr s1, KeyStr s2 => Ok (String.ltb s1 s2)
  | KeyInt i1, KeyInt i2 => Ok (i1 <? i2)%Z
  | _, _ => Raise TypeError
  end.

(** [sorted(items)] for the items of a dict. The keys of a dict are
    pairwise different, so two items are compared by their keys alone and
    the sorted list does not depend on how it is found: the items are put
    one by one, from the last, into the items sorted so far. *)
Fixpoint insort {V} (x : JsonKey * V) (l : list (JsonKey * V))
    : Result (list (JsonKey * V)) :=
  match l with
  | [] => Ok [x]
  | y :: l' =>
      rbind (key_lt x.1 y.1) (fun before =>
      if before then Ok (x :: y :: l')
      else rbind (insort x l') (fun r => Ok (y :: r)))
  end.

Fixpoint py_sorted {V} (l : list (JsonKey * V)) : Result (list (JsonKey * V)) :=
  match l with
  | [] => Ok []
  | x :: l' => rbind (py_sorted l') (insort x)
  end.

(** [_JsonTreeItem.load]. The child of every item is loaded (with the
    default [sort]) and gets its key and type; a child does not depend on
    its position, so the children are built in the order of [value] and
    the built children are sorted, where the source sorts the items and
    builds the children in sorted order (the lemma
    [JsonTreeItem_load_dict] gives that form). *)
Fixpoint JsonTreeItem_load (value : Document) (sort : bool)
    : Result JsonTreeItem :=
  match value with
  | DocDict items =>
      rbind ((fix each (items : list (JsonKey * Document))
                : Result (list (JsonKey * JsonTreeItem)) :=
                match items with
                | [] => Ok []
                | (key, v) :: rest =>
                    rbind (JsonTreeItem_load v true) (fun child =>
                    rbind (each rest) (fun children =>
                    Ok ((key, set_valueType (type_of v) (set_key key child))
                          :: children)))
                end) items) (fun loaded =>
      rbind (if sort then py_sorted loaded else Ok loaded) (fun loaded' =>
      Ok (foldl (fun rootItem child => appendChild child.2 rootItem)
            (set_key (KeyStr "root") JsonTreeItem_init) loaded')))
  | DocList items =>
      rbind ((fix each (items : list Document) (index : Z)
                : Result (list JsonTreeItem) :=
                match items with
                | [] => Ok []
                | v :: rest =>
                    rbind (JsonTreeItem_load v true) (fun child =>
                    rbind (each rest (index + 1)%Z) (fun children =>
                    Ok (set_valueType (type_of v) (set_key (KeyInt index) child)
                          :: children)))
                end) items 0%Z) (fun loaded =>
      Ok (foldl (fun rootItem child => appendChild child rootItem)
            (set_key (KeyStr "root") JsonTreeItem_init) loaded))
  | DocLeaf v =>
      Ok (set_valueType (type_of value)
            (set_value v (set_key (KeyStr "root") JsonTreeItem_init)))
  end.

(** The body of the two loops of [load]: the child for [value], with its
    key and type set. *)
Definition load_child (key : JsonKey) (value : Document) : Result JsonTreeItem :=
  rbind (JsonTreeItem_load value true) (fun child =>
  Ok (set_valueType (type_of value) (set_key key child))).

(** [JsonModel.load], as far as the tree goes: the document has to be a
    dict or a list. *)
Definition JsonModel_load (document : Document) : Result JsonTreeItem :=
  match document with
  | DocLeaf _ => Raise (OtherError "AssertionError")
  | _ =>
      rbind (JsonTreeItem_load document true) (fun rootItem =>
      Ok (set_valueType (type_of document) rootItem))
  end.

(** [JsonModel.to_dict] *)
Fixpoint to_dict (item : JsonTreeItem) : Document :=
  match item with
  | mkJsonTreeItem _ value valueType children =>
      match valueType with
      | Some type_dict =>
          DocDict (foldl (fun document ch =>
                            dict_set (_key ch) (to_dict ch) document)
                     [] children)
      | Some type_list => DocList (to_dict <$> children)
      | _ => DocLeaf value
      end
  end.

(** ** Notions used in the statements *)

(** The capability tests of the router. *)
Definition is_dock (r : AuxRegistrable) : bool :=
  issubclass (aux_type r) BaseDock_class.
Definition is_setting (r : AuxRegistrable) : bool :=
  issubclass (aux_type r) BaseSetting_class.

(** A registry after the items [rs] were added to it, one after the
    other, each with its notification. *)
Definition with_added {T} `{Registrable T} (reg : BaseRegistry T)
    (rs : list T) : BaseRegistry T :=
  mkRegistry (_registrables reg ++ ((fun r => (reg_id r, r)) <$> rs))
             (registry_emitted reg ++ (registrableAdded <$> rs)).

(** The navigation entry a plugin gets in [_MainWindow.addPlugin]: its
    button, when it has both a widget and a button. *)
Definition navigation_entry (p : BasePlugin) : option NavigationBarButton :=
  match plugin_widget p, navigationBarButton p with
  | Some _, Some navBarBtn => Some navBarBtn
  | _, _ => None
  end.

(** The order of priorities. *)
Definition priority_le (p q : BasePlugin) : Prop := (priority p <= priority q)%Z.

(** An application whose plugin service received [addPlugin] for each
    of [ps], in that order. *)
Definition app_with_plugins (ps : list BasePlugin) : BaseApplication :=
  mkApp (for_each ps addPlugin PluginService_init).2
    (settingService BaseApplication_init) (dockService BaseApplication_init)
    (_mainWindow BaseApplication_init).

(** The fields of [ModuleMetadata] without a default. *)
Definition ModuleMetadata_required : list string :=
  ["id"; "relativePath"; "displayName"].

Definition is_str (v : PyVal) : bool :=
  match v with PyStr _ => true | _ => false end.

(** Modelled from the spec: the serialization of a list of ModuleMetadata
    to a manifest, which the repository does not contain. Each metadata
    becomes an object of the manifest format; a description that is [None]
    is left out or written as [null], as [keep_none] says. *)
Definition metadata_to_json (keep_none : bool) (m : ModuleMetadata) : PyVal :=
  PyDict ([("id", id m); ("relativePath", relativePath m);
           ("displayName", displayName m)] ++
          match description m with
          | PyNone => if keep_none then [("description", PyNone)] else []
          | d => [("description", d)]
          end).

Definition serialize (keep_none : bool) (ms : list ModuleMetadata)
    : ManifestFile :=
  Json (PyList (metadata_to_json keep_none <$> ms)).

(** Every item of the module list is the address of a Module object. *)
Definition modules_wf (w : PluginWorld) : Prop :=
  Forall (fun a => a < length (module_objects w))
         (_items (_moduleListModel (service w))).

(** The Module [Module.__init__] makes from a metadata whose relative
    path is the string [rel]. *)
Definition module_of (dirPath : Path) (m : ModuleMetadata) (rel : string)
    : Module :=
  mkModule (id m) (displayName m) (description m)
    (Path_join dirPath (Path_of_string rel)) false.

(** The world after the Module objects [modules] were allocated and
    appended to the module list. *)
Definition with_modules (w : PluginWorld) (modules : list Module)
    : PluginWorld :=
  let model := _moduleListModel (service w) in
  let addrs := seq (length (module_objects w)) (length modules) in
  mkPluginWorld (module_objects w ++ modules)
    (mkPluginService (_registry (service w))
       (mkItemTableModel (_items model ++ addrs) (items_added model ++ addrs))
       (pluginAdded (service w))).

(** A call of [add] or of [remove], and the registry after a sequence of
    such calls, whatever each call returned or raised. *)
Inductive RegistryCall (T : Type) :=
| CallAdd (a : AddArg T)
| CallRemove (a : AddArg T).
Arguments CallAdd {T} a.
Arguments CallRemove {T} a.

Definition run_call {T} `{Registrable T} (c : RegistryCall T)
    : M (BaseRegistry T) unit :=
  match c with
  | CallAdd a => BaseRegistry_add a
  | CallRemove a => BaseRegistry_remove a
  end.

Fixpoint after_calls {T} `{Registrable T} (calls : list (RegistryCall T))
    (reg : BaseRegistry T) : BaseRegistry T :=
  match calls with
  | [] => reg
  | c :: calls' => after_calls calls' (run_call c reg).2
  end.

(** [c] implements [class_] and is not [class_] itself. *)
Definition proper_subclass (c class_ : PyClass) : Prop :=
  issubclass c class_ = true /\ cls_addr c <> cls_addr class_.

(** The Module objects of the module list, in list order. *)
Definition listed_modules (w : PluginWorld) : list Module :=
  omap (fun a => module_objects w !! a) (_items (_moduleListModel (service w))).

(** [PluginService.enabledModules] *)
Definition enabledModules (w : PluginWorld) : list Module :=
  filter (fun m => _enabled m = true) (listed_modules w).

(** [PluginService.plugin] *)
Definition PluginService_plugin (id : pyid) (svc : PluginService)
    : option BasePlugin :=
  BaseRegistry_registrable id (_registry svc).

(** The service after a sequence of [addPlugin] calls, whatever each call
    returned or raised. *)
Fixpoint after_addPlugin_calls (ps : list BasePlugin) (svc : PluginService)
    : PluginService :=
  match ps with
  | [] => svc
  | p :: ps' => after_addPlugin_calls ps' (addPlugin p svc).2
  end.

(** A Module with [enabled] set. *)
Definition enabled_copy (m : Module) : Module :=
  mkModule (_id m) (_displayName m) (_description m) (_path m) true.

(** The test of the second loop of [PluginService.load] for the Module at
    an address: [module.id in moduleIds]. *)
Definition selected (moduleIds : list string) (w : PluginWorld) (a : nat)
    : bool :=
  match module_objects w !! a with
  | Some m =>
      match _id m with
      | PyStr s => bool_decide (s ∈ moduleIds)
      | _ => false
      end
  | None => false
  end.

(** Every item of the tree has [n] columns. *)
Fixpoint uniform (n : nat) (t : TreeItem) : bool :=
  match t with
  | mkTreeItem itemData childItems =>
      (length itemData =? n) && forallb (uniform n) childItems
  end.

(** A document as [json.load] gives it: every key is a string, and the
    keys of a dict are pairwise different. *)
Fixpoint is_json (d : Document) : bool :=
  match d with
  | DocLeaf _ => true
  | DocList items => forallb is_json items
  | DocDict items =>
      bool_decide (NoDup items.*1) &&
      forallb (fun '(k, v) =>
                 match k with KeyStr _ => is_json v | KeyInt _ => false end)
        items
  end.

(** [a == b] on documents: two dicts are equal when they have the same
    number of items and every key of the first has an equal value in the
    second, whatever the order of the items. *)
Inductive doc_eq : Document -> Document -> Prop :=
| doc_eq_leaf v : doc_eq (DocLeaf v) (DocLeaf v)
| doc_eq_list l1 l2 :
    Forall2 doc_eq l1 l2 -> doc_eq (DocList l1) (DocList l2)
| doc_eq_dict d1 d2 :
    length d1 = length d2 ->
    Forall (fun kv => exists v2, dict_get kv.1 d2 = Some v2 /\ doc_eq kv.2 v2)
      d1 ->
    doc_eq (DocDict d1) (DocDict d2).

(** Each key is less than the next. *)
Fixpoint ascending (keys : list JsonKey) : bool :=
  match keys with
  | a :: rest =>
      match rest with
      | b :: _ => match key_lt a b with Ok true => true | _ => false end
      | [] => true
      end && ascending rest
  | [] => true
  end.

(** Throughout the tree, the rows below an item of type dict are in
    ascending order of their keys and the rows below an item of type list
    are numbered from 0. *)
Fixpoint rows_ordered (item : JsonTreeItem) : bool :=
  match item with
  | mkJsonTreeItem _ _ valueType children =>
      match valueType with
      | Some type_dict => ascending (_key <$> children)
      | Some type_list =>
          bool_decide (_key <$> children =
                       KeyInt <$> seqZ 0 (Z.of_nat (length children)))
      | _ => true
      end && forallb rows_ordered children
  end.

(** ** Sample data *)

Definition dock_a : AuxRegistrable :=
  mkAux (mkClass 10 "DockA" [2; 0]) (Some "a").
Definition dock_a' : AuxRegistrable :=
  mkAux (mkClass 11 "OtherDockA" [2; 0]) (Some "a").
Definition dock_b : AuxRegistrable :=
  mkAux (mkClass 12 "DockB" [2; 0]) (Some "b").
Definition setting_s : AuxRegistrable :=
  mkAux (mkClass 13 "SettingS" [3; 0]) (Some "s").

Definition DemoPlugin_class : PyClass := mkClass 20 "DemoPlugin" [1; 0].

(** A module that imports [BasePlugin] and defines one plugin class. *)
Definition demo_module : Namespace :=
  [("__name__", PyOther "demo");
   ("BasePlugin", PyType BasePlugin_class);
   ("DemoWidget", PyType (mkClass 21 "DemoWidget" []));
   ("DemoPlugin", PyType DemoPlugin_class);
   ("main", PyOther "function")].

(** An instance, as the class it was made from and the arguments. *)
Definition record_instance (c : PyClass) (a : list string)
    : Result (PyClass * list string) := Ok (c, a).



Definition plugin_30 : BasePlugin :=
  BasePlugin_init (mkPluginSubclass (Some "thirty") (Some "w30") []) 30
    (Some "ph.a") (Some "thirty").
Definition plugin_10 : BasePlugin :=
  BasePlugin_init (mkPluginSubclass (Some "ten") (Some "w10") []) 10
    (Some "ph.b") (Some "ten").
Definition plugin_20 : BasePlugin :=
  BasePlugin_init (mkPluginSubclass (Some "twenty") (Some "w20") []) 20
    (Some "ph.c") (Some "twenty").

(** A plugin made with an icon but no tool tip. *)
Definition quiet_plugin : BasePlugin :=
  BasePlugin_init (mkPluginSubclass (Some "quiet") (Some "w") []) 10
    (Some "ph.x") None.

Definition sample_cwd : Path := mkPath true ["home"; "app"].

Definition meta_good : ModuleMetadata :=
  mkModuleMetadata (PyStr "core") (PyStr "modules/core") (PyStr "Core") PyNone.
(** The same id as [meta_good]. *)
Definition meta_twin : ModuleMetadata :=
  mkModuleMetadata (PyStr "core") (PyStr "modules/other") (PyStr "Other")
    (PyStr "a second module named core").

(** An entry without [relativePath]. *)
Definition entry_bad : PyVal :=
  PyDict [("id", PyStr "broken"); ("displayName", PyStr "Broken")].

(** One file system: a manifest with a good and a bad entry, and a
    manifest written by [serialize]. *)
Definition sample_files (p : Path) : option ManifestFile :=
  if decide (p = mkPath true ["home"; "app"; "bad.json"])
  then Some (Json (PyList [metadata_to_json true meta_good; entry_bad]))
  else if decide (p = mkPath true ["home"; "app"; "repo"; "modules.json"])
  then Some (serialize false [meta_good; meta_twin])
  else None.

(** A file system whose manifests are not UTF-8. *)
Definition latin1_files (p : Path) : option ManifestFile :=
  Some (ReadError (OtherError "UnicodeDecodeError")).

Definition empty_world : PluginWorld := mkPluginWorld [] PluginService_init.

(** A module directory with the demo module, and plugin classes that are
    made without arguments. *)
Definition sample_fs (p : Path) : FsEntry :=
  FsDir "core" [FsFile "demo.py" (Ok demo_module)].
Definition sample_instantiate (c : PyClass) (_ : unit) : Result BasePlugin :=
  Ok (BasePlugin_init (mkPluginSubclass (Some (cls_name c)) None []) 10
        None None).

(** A module directory: a text file, a package with the demo module, a
    hidden file, and a module that cannot be executed. *)
Definition good_entries : list FsEntry :=
  [FsFile "README.md" (Raise (OtherError "not Python"));
   FsDir "sub" [FsFile "demo.py" (Ok demo_module)];
   FsFile ".hidden.py" (Raise FileNotFoundError)].
Definition broken_entry : FsEntry :=
  FsFile "broken.py" (Raise (OtherError "SyntaxError")).

(** A metadata whose relative path is a number, as the manifest entry
    [{"id": "odd", "relativePath": 7, "displayName": "Odd"}] gives. *)
Definition meta_odd : ModuleMetadata :=
  mkModuleMetadata (PyStr "odd") (PyInt 7) (PyStr "Odd") PyNone.

Definition meta_solo : ModuleMetadata :=
  mkModuleMetadata (PyStr "solo") (PyStr "modules/solo") (PyStr "Solo") PyNone.

(** A world with two listed, disabled Modules: "core" and "solo". *)
Definition sample_world : PluginWorld :=
  with_modules empty_world
    [module_of sample_cwd meta_good "modules/core";
     module_of sample_cwd meta_solo "modules/solo"].

(** The same world after [PluginService.load] enabled "core". *)
Definition loaded_world : PluginWorld :=
  (load_enabled sample_fs sample_instantiate ["core"; "ghost"] sample_world).2.

(** A file system whose only module cannot be executed. *)
Definition broken_fs (p : Path) : FsEntry := FsDir "core" [broken_entry].

(** A dock that is also a setting, under the id of the setting that the
    application registers at start. *)
Definition dock_setting : AuxRegistrable :=
  mkAux (mkClass 30 "DockSetting" [2; 3; 0])
        (Some "application/enabledExtensions").

(** The application after [run] added three plugins to the window. *)
Definition started_app : BaseApplication :=
  BaseApplication_run (app_with_plugins [plugin_30; plugin_10; plugin_20]).

(** A tree with two columns: two rows, the first with a row below it. *)
Definition sample_tree : TreeItem :=
  mkTreeItem [Some "Name"; Some "Size"]
    [mkTreeItem [None; None] [mkTreeItem [None; None] []];
     mkTreeItem [None; None] []].

(** A document: [{"name": "qtapp", "deps": [1, {"b": null, "a": true}]}]. *)
Definition sample_items : list (JsonKey * Document) :=
  [(KeyStr "name", DocLeaf (SStr "qtapp"));
   (KeyStr "deps",
    DocList [DocLeaf (SInt 1);
             DocDict [(KeyStr "b", DocLeaf SNone);
                      (KeyStr "a", DocLeaf (SBool true))]])].

Definition sample_document : Document := DocDict sample_items.

(** * Properties *)

(** ** The monad *)

Lemma for_each_app {S X} (body : X -> M S unit) (xs ys : list X) (s : S) :
  for_each (xs ++ ys) body s =
  match for_each xs body s with
  | (Ok _, s') => for_each ys body s'
  | (Raise e, s') => (Raise e, s')
  end.
Proof.
  revert s. induction xs as [|x xs IH]; intros s; simpl.
  - reflexivity.
  - unfold bind. destruct (body x s) as [[[]|e] s1]; [apply IH | reflexivity].
Qed.

Lemma for_each_cons {S X} (body : X -> M S unit) (x : X) (xs : list X) (s : S) :
  for_each (x :: xs) body s =
  match body x s with
  | (Ok _, s') => for_each xs body s'
  | (Raise e, s') => (Raise e, s')
  end.
Proof. reflexivity. Qed.

(** ** Dictionaries *)

Section DictFacts.
Context {K V : Type} `{EqDecision K}.
Implicit Types (d : dict K V) (k : K) (v : V).

Lemma dict_get_None d k : dict_get k d = None <-> k ∉ dict_keys d.
Proof.
  induction d as [|[k' v'] d IH]; simpl.
  - split; [intros _; apply not_elem_of_nil | done].
  - rewrite not_elem_of_cons. destruct (decide (k = k')); [|tauto].
    split; [done | tauto].
Qed.

Lemma dict_set_fresh d k v :
  dict_get k d = None -> dict_set k v d = d ++ [(k, v)].
Proof.
  induction d as [|[k' v'] d IH]; simpl; [done|].
  destruct (decide (k = k')); [done|]. intros Hd. by rewrite IH.
Qed.

Lemma dict_get_set_eq d k v : dict_get k (dict_set k v d) = Some v.
Proof.
  induction d as [|[k' v'] d IH]; simpl.
  - by rewrite decide_True.
  - destruct (decide (k = k')) as [->|Hne]; simpl.
    + by rewrite decide_True.
    + by rewrite decide_False.
Qed.

Lemma dict_get_set_ne d k k' v :
  k' <> k -> dict_get k' (dict_set k v d) = dict_get k' d.
Proof.
  intros Hne. induction d as [|[k1 v1] d IH]; simpl.
  - by rewrite decide_False.
  - destruct (decide (k = k1)) as [->|Hne1]; simpl.
    + by rewrite !decide_False.
    + by rewrite IH.
Qed.

Lemma dict_get_app_l d d' k v :
  dict_get k d = Some v -> dict_get k (d ++ d') = Some v.
Proof.
  induction d as [|[k1 v1] d IH]; simpl; [done|].
  by destruct (decide (k = k1)).
Qed.

End DictFacts.

(** ** The registry *)

Section RegistryFacts.
Context {T : Type} `{Registrable T}.
Implicit Types (reg : BaseRegistry T) (r : T).

Lemma add_one_present reg r :
  is_Some (BaseRegistry_registrable (reg_id r) reg) ->
  add_one r reg = (Raise RegistrableAlreadyExistsError, reg).
Proof.
  unfold BaseRegistry_registrable, add_one. by intros [x ->].
Qed.

Lemma add_one_absent reg r :
  BaseRegistry_registrable (reg_id r) reg = None ->
  add_one r reg =
    (Ok tt, mkRegistry (_registrables reg ++ [(reg_id r, r)])
              (registry_emitted reg ++ [registrableAdded r])).
Proof.
  unfold BaseRegistry_registrable, add_one. intros Hd.
  by rewrite Hd, dict_set_fresh.
Qed.

Lemma add_one_wf reg r : registry_wf reg -> registry_wf (add_one r reg).2.
Proof.
  intros [Hnd Hid].
  destruct (BaseRegistry_registrable (reg_id r) reg) as [x|] eqn:Hd.
  - rewrite add_one_present by eauto. by split.
  - rewrite add_one_absent by done. split; simpl.
    + unfold dict_keys in *. rewrite fmap_app. apply NoDup_app.
      split_and!; [done| |apply NoDup_singleton].
      intros k Hk Hin. apply list_elem_of_singleton in Hin. simpl in Hin.
      subst k. by apply dict_get_None in Hd.
    + apply Forall_app. split; [done|]. by apply Forall_singleton.
Qed.

Lemma add_wf reg (a : AddArg T) :
  registry_wf reg -> registry_wf (BaseRegistry_add a reg).2.
Proof.
  destruct a as [r|rs]; simpl; [apply add_one_wf|].
  revert reg. induction rs as [|r rs IH]; intros reg Hwf; [done|].
  rewrite for_each_cons. pose proof (add_one_wf reg r Hwf) as Hwf1.
  destruct (add_one r reg) as [[[]|e] reg1]; simpl in *; [by apply IH | done].
Qed.

Lemma after_adds_wf calls reg :
  registry_wf reg -> registry_wf (after_adds calls reg).
Proof.
  revert reg. induction calls as [|a calls IH]; intros reg Hwf; simpl.
  - done.
  - by apply IH, add_wf.
Qed.

Lemma registry_wf_NoDup_ids reg :
  registry_wf reg ->
  NoDup (reg_id <$> dict_values (BaseRegistry_registrables reg)).
Proof.
  intros [Hnd Hid]. unfold dict_values, BaseRegistry_registrables, dict_keys in *.
  replace (reg_id <$> (_registrables reg).*2) with ((_registrables reg).*1); [done|].
  rewrite <- list_fmap_compose. apply Forall_fmap_ext_1.
  eapply Forall_impl; [apply Hid|]. by intros [k v].
Qed.
End RegistryFacts.

Section RegistryClaims.
Context {T : Type} `{Registrable T}.
Implicit Types (reg : BaseRegistry T) (r : T).

(** Adding items with fresh, pairwise different ids appends all of them. *)
Lemma add_several_fresh reg (items : list T) :
  Forall (fun r => BaseRegistry_registrable (reg_id r) reg = None) items ->
  NoDup (reg_id <$> items) ->
  for_each items add_one reg =
    (Ok tt, mkRegistry (_registrables reg ++ ((fun r => (reg_id r, r)) <$> items))
              (registry_emitted reg ++ (registrableAdded <$> items))).
Proof.
  revert reg. induction items as [|r items IH]; intros reg Hfresh Hnd.
  - simpl. unfold ret. rewrite !app_nil_r. by destruct reg.
  - apply Forall_cons in Hfresh as [Hr Hfresh].
    rewrite fmap_cons in Hnd. apply NoDup_cons in Hnd as [Hnotin Hnd].
    rewrite for_each_cons, add_one_absent by done.
    rewrite IH; simpl.
    + by rewrite <- !app_assoc.
    + apply Forall_forall. intros y Hy.
      unfold BaseRegistry_registrable; simpl.
      apply dict_get_None. unfold dict_keys. rewrite fmap_app.
      rewrite elem_of_app. intros [Hin|Hin].
      * rewrite Forall_forall in Hfresh. specialize (Hfresh y Hy).
        by apply dict_get_None in Hfresh.
      * simpl in Hin. apply list_elem_of_singleton in Hin.
        apply Hnotin. rewrite <- Hin. by apply list_elem_of_fmap_2.
    + done.
Qed.

Lemma registrable_after_append reg (items : list T) r :
  registry_wf (mkRegistry (_registrables reg ++ ((fun r => (reg_id r, r)) <$> items))
                 (registry_emitted reg)) ->
  r ∈ items ->
  dict_get (reg_id r)
    (_registrables reg ++ ((fun r => (reg_id r, r)) <$> items)) = Some r.
Proof.
  intros [Hnd _] Hr. simpl in Hnd.
  assert (Hin : (reg_id r, r) ∈
            _registrables reg ++ ((fun r => (reg_id r, r)) <$> items)).
  { apply elem_of_app. right. by apply (list_elem_of_fmap_2 (fun r => (reg_id r, r))). }
  revert Hnd Hin. generalize (_registrables reg ++ ((fun r => (reg_id r, r)) <$> items)).
  intros d. induction d as [|[k v] d IH]; simpl.
  - by intros _ ?%not_elem_of_nil.
  - intros Hnd' [Heq|Hin]%elem_of_cons.
    + injection Heq as <- <-. by rewrite decide_True.
    + apply NoDup_cons in Hnd' as [Hk Hnd'].
      destruct (decide (reg_id r = k)) as [<-|Hne]; [|by apply IH].
      exfalso. apply Hk. by apply (list_elem_of_fmap_2 fst) in Hin.
Qed.

(** C1. [add(item)] raises [RegistrableAlreadyExistsError] (the spec's
    DuplicateIdError) when an item with the same id is present, and then
    leaves the registry as it was; otherwise it stores the item under its
    id, keeps every other entry, and has emitted [registrableAdded(item)]
    by the time it returns.  After any sequence of [add] calls on a new
    registry, no two items of the registry have the same id. *)
Theorem C1_add_rejects_duplicates reg (item : T) :
  (is_Some (BaseRegistry_registrable (reg_id item) reg) ->
     BaseRegistry_add (One item) reg =
       (Raise RegistrableAlreadyExistsError, reg)) /\
  (BaseRegistry_registrable (reg_id item) reg = None ->
     exists reg',
       BaseRegistry_add (One item) reg = (Ok tt, reg') /\
       BaseRegistry_registrable (reg_id item) reg' = Some item /\
       (forall k, k <> reg_id item ->
          BaseRegistry_registrable k reg' = BaseRegistry_registrable k reg) /\
       registry_emitted reg' =
         registry_emitted reg ++ [registrableAdded item]) /\
  (forall calls : list (AddArg T),
     NoDup (reg_id <$> dict_values
              (BaseRegistry_registrables (after_adds calls BaseRegistry_init)))).
Proof.
  split_and!.
  - apply add_one_present.
  - intros Hd. eexists. split; [by apply add_one_absent|].
    unfold BaseRegistry_registrable in *; simpl.
    rewrite <- (dict_set_fresh _ _ _ Hd). split_and!.
    + apply dict_get_set_eq.
    + intros k Hk. by apply dict_get_set_ne.
    + done.
  - intros calls. apply registry_wf_NoDup_ids, after_adds_wf.
    split; [apply NoDup_nil_2 | apply Forall_nil_2].
Qed.

(** C8. [add(list)] adds the items one after the other: when the first
    [k] items have new, pairwise different ids and item [k] has an id
    that is taken (in the registry or by one of the first [k] items), the
    call raises, and the registry is the one obtained by adding exactly
    items [0..k-1]: they are in the registry, their notifications were
    emitted, and nothing of items [k..] was added. *)
Theorem C8_add_list_keeps_prefix reg (items : list T) (k : nat) (x : T) :
  items !! k = Some x ->
  Forall (fun r => BaseRegistry_registrable (reg_id r) reg = None)
         (take k items) ->
  NoDup (reg_id <$> take k items) ->
  is_Some (BaseRegistry_registrable (reg_id x) reg) \/
    reg_id x ∈ reg_id <$> take k items ->
  let reg_k :=
    mkRegistry
      (_registrables reg ++ ((fun r => (reg_id r, r)) <$> take k items))
      (registry_emitted reg ++ (registrableAdded <$> take k items)) in
  BaseRegistry_add (Several items) reg =
    (Raise RegistrableAlreadyExistsError, reg_k) /\
  BaseRegistry_add (Several (take k items)) reg = (Ok tt, reg_k) /\
  (registry_wf reg ->
   Forall (fun r => BaseRegistry_registrable (reg_id r) reg_k = Some r)
          (take k items)).
Proof.
  intros Hk Hfresh Hnd Htaken reg_k.
  pose proof (add_several_fresh reg (take k items) Hfresh Hnd) as Hpre.
  fold reg_k in Hpre. split_and!.
  - simpl. rewrite <- (take_drop k items) at 1.
    rewrite for_each_app, Hpre.
    rewrite (drop_S _ _ _ Hk), for_each_cons.
    rewrite add_one_present; [done|].
    unfold BaseRegistry_registrable, reg_k; simpl.
    destruct Htaken as [[y Hy]|Hin].
    + exists y. by apply dict_get_app_l.
    + destruct (dict_get (reg_id x) (_registrables reg ++
        ((fun r => (reg_id r, r)) <$> take k items))) eqn:Hd; [eauto|].
      exfalso. apply dict_get_None in Hd. apply Hd.
      unfold dict_keys. rewrite fmap_app, elem_of_app. right.
      by rewrite <- list_fmap_compose.
  - done.
  - intros Hwf. apply Forall_forall. intros r Hr.
    apply registrable_after_append; [|done].
    pose proof (add_wf reg (Several (take k items)) Hwf) as Hwf'.
    simpl in Hwf'. rewrite Hpre in Hwf'. destruct Hwf' as [? ?].
    by split.
Qed.
End RegistryClaims.

Lemma C1_witness :
  let reg1 := (BaseRegistry_add (One dock_a) BaseRegistry_init).2 in
  BaseRegistry_add (One dock_a') reg1 =
    (Raise RegistrableAlreadyExistsError, reg1) /\
  exists reg',
    BaseRegistry_add (One dock_b) reg1 = (Ok tt, reg') /\
    BaseRegistry_registrable (Some "b") reg' = Some dock_b /\
    registry_emitted reg' = [registrableAdded dock_a; registrableAdded dock_b].
Proof.
  intros reg1.
  destruct (C1_add_rejects_duplicates reg1 dock_a') as [Hdup _].
  destruct (C1_add_rejects_duplicates reg1 dock_b) as (_ & Hnew & _).
  split.
  - apply Hdup. vm_compute. eauto.
  - destruct Hnew as (reg' & Hadd & Hget & _ & Hemit); [reflexivity|].
    exists reg'. split_and!; [exact Hadd | exact Hget | exact Hemit].
Defined.

Lemma C8_witness :
  BaseRegistry_add (Several [dock_b; dock_a; dock_a'; setting_s])
    BaseRegistry_init =
  (Raise RegistrableAlreadyExistsError,
   mkRegistry [(Some "b", dock_b); (Some "a", dock_a)]
     [registrableAdded dock_b; registrableAdded dock_a]).
Proof.
  refine (proj1 (C8_add_list_keeps_prefix BaseRegistry_init
            [dock_b; dock_a; dock_a'; setting_s] 2 dock_a' _ _ _ _)).
  - reflexivity.
  - repeat constructor.
  - simpl. compute_done.
  - right. simpl. compute_done.
Defined.

(** ** The worker *)


(** ** The loader *)

Section LoaderFacts.
Context {T Args : Type} (instantiate : PyClass -> Args -> Result T).

Lemma instantiate_all_ok (module : Namespace) (class_ : PyClass) (a : Args) :
  Forall (fun c => is_ok (instantiate c a) = true)
         (implementing_types module class_) ->
  exists instances,
    instantiate_all instantiate module class_ a = Ok instances /\
    Forall2 (fun c x => instantiate c a = Ok x)
            (implementing_types module class_) instances.
Proof.
  induction module as [|[name obj] module IH]; simpl; intros Hok.
  - exists []. by split.
  - destruct obj as [c|repr]; simpl in *; [|by apply IH].
    destruct (issubclass c class_ && class_ne c class_); [|by apply IH].
    apply Forall_cons in Hok as [Hc Hok].
    destruct (IH Hok) as (rest & Hrest & Hall).
    destruct (instantiate c a) as [x|e] eqn:Hx; [|done].
    exists (x :: rest). simpl. rewrite Hrest. split; [done|].
    by constructor.
Qed.

Lemma implementing_types_spec (module : Namespace) (class_ c : PyClass) :
  c ∈ implementing_types module class_ <->
  (exists name, (name, PyType c) ∈ module) /\
  issubclass c class_ = true /\ cls_addr c <> cls_addr class_.
Proof.
  unfold implementing_types. rewrite list_elem_of_omap. split.
  - intros ([name obj] & Hin & Hsome). simpl in Hsome.
    destruct obj as [c'|]; [|done].
    destruct (issubclass c' class_) eqn:Hsub; [|done].
    destruct (class_ne c' class_) eqn:Hne; [|done].
    simpl in Hsome. injection Hsome as ->. split_and!; [by eauto|done|].
    unfold class_ne in Hne. apply negb_true_iff in Hne.
    by apply bool_decide_eq_false in Hne.
  - intros ((name & Hin) & Hsub & Hne). exists (name, PyType c).
    split; [done|]. simpl. rewrite Hsub. unfold class_ne.
    by rewrite bool_decide_false.
Qed.

(** C2. For a directory that holds one loadable file whose module defines
    the requested class and subclasses of it that can be instantiated,
    [load] returns one instance for each definition of the module that is
    a class, a subclass of the requested class and not the requested class
    itself (in the order of the namespace, each made with the arguments
    given to [load]); no instance is made from the requested class. *)
Theorem C2_load_one_instance_per_subtype (dir name : string)
    (module : Namespace) (class_ : PyClass) (a : Args) :
  _isValidModule name (path_suffix name) = true ->
  Forall (fun c => is_ok (instantiate c a) = true)
         (implementing_types module class_) ->
  exists instances,
    RegistrableLoader_load instantiate
      (FsDir dir [FsFile name (Ok module)]) class_ a = Ok instances /\
    Forall2 (fun c x => instantiate c a = Ok x)
            (implementing_types module class_) instances /\
    (forall c, c ∈ implementing_types module class_ <->
       (exists n, (n, PyType c) ∈ module) /\
       issubclass c class_ = true /\ cls_addr c <> cls_addr class_) /\
    class_ ∉ implementing_types module class_.
Proof.
  intros Hvalid Hok.
  destruct (instantiate_all_ok module class_ a Hok) as (instances & Hrun & Hall).
  exists instances. split_and!.
  - simpl. unfold _loadRegistrablesFromModule. rewrite Hvalid. simpl.
    rewrite Hrun. simpl. by rewrite app_nil_r.
  - done.
  - intros c. apply implementing_types_spec.
  - intros Hin. apply implementing_types_spec in Hin as (_ & _ & Hne). done.
Qed.
End LoaderFacts.

Lemma C2_witness :
  RegistrableLoader_load record_instance
    (FsDir "demo" [FsFile "demo.py" (Ok demo_module)]) BasePlugin_class
    ["arg"] = Ok [(DemoPlugin_class, ["arg"])].
Proof.
  destruct (C2_load_one_instance_per_subtype record_instance "demo" "demo.py"
              demo_module BasePlugin_class ["arg"])
    as (instances & Hload & Hall & _); [reflexivity | repeat constructor |].
  rewrite Hload. f_equal.
  vm_compute in Hall.
  inversion Hall as [|c x cs xs Hx Hrest]; subst.
  inversion Hrest; subst. unfold record_instance in Hx. by injection Hx as <-.
Defined.

(** ** The capability router *)

Lemma with_added_nil {T} `{Registrable T} (reg : BaseRegistry T) :
  with_added reg [] = reg.
Proof. unfold with_added. simpl. rewrite !app_nil_r. by destruct reg. Qed.

Lemma with_added_app {T} `{Registrable T} (reg : BaseRegistry T) (rs rs' : list T) :
  with_added (with_added reg rs) rs' = with_added reg (rs ++ rs').
Proof. unfold with_added. simpl. by rewrite !fmap_app, !app_assoc. Qed.










(** ** Sorting by priority *)

Section SortFacts.
Context {A : Type} (key : A -> Z).
Implicit Types (x : A) (l : list A).

Lemma insert_by_key_perm x l : insert_by_key key x l ≡ₚ x :: l.
Proof.
  induction l as [|y l IH]; simpl; [done|].
  destruct (key x <=? key y)%Z; [done|].
  rewrite IH. apply Permutation_swap.
Qed.

Lemma sort_by_key_perm l : sort_by_key key l ≡ₚ l.
Proof.
  induction l as [|x l IH]; simpl; [done|].
  rewrite insert_by_key_perm. by f_equiv.
Qed.

Lemma insert_by_key_sorted x l :
  StronglySorted (fun a b => (key a <= key b)%Z) l ->
  StronglySorted (fun a b => (key a <= key b)%Z) (insert_by_key key x l).
Proof.
  induction 1 as [|y l Hsorted IH Hall]; simpl.
  - repeat constructor.
  - destruct (key x <=? key y)%Z eqn:Hle.
    + apply Z.leb_le in Hle. constructor; [by constructor|].
      constructor; [done|]. eapply Forall_impl; [apply Hall|].
      simpl. intros z Hz. lia.
    + apply Z.leb_gt in Hle. constructor; [done|].
      rewrite insert_by_key_perm. constructor; [lia | done].
Qed.

Lemma sort_by_key_sorted l :
  StronglySorted (fun a b => (key a <= key b)%Z) (sort_by_key key l).
Proof.
  induction l as [|x l IH]; simpl; [constructor|].
  by apply insert_by_key_sorted.
Qed.

(** Elements of equal key keep their relative order. *)
Lemma insert_by_key_stable (z : Z) x l :
  filter (fun a => key a = z) (insert_by_key key x l) =
  filter (fun a => key a = z) (x :: l).
Proof.
  induction l as [|y l IH]; simpl; [done|].
  destruct (key x <=? key y)%Z eqn:Hle; [done|].
  apply Z.leb_gt in Hle.
  rewrite (filter_cons _ y), IH, !filter_cons.
  repeat case_decide; try done; lia.
Qed.

Lemma sort_by_key_stable (z : Z) l :
  filter (fun a => key a = z) (sort_by_key key l) =
  filter (fun a => key a = z) l.
Proof.
  induction l as [|x l IH]; simpl; [done|].
  by rewrite insert_by_key_stable, !filter_cons, IH.
Qed.
End SortFacts.

(** ** The plugin service and the navigation bar *)

Lemma addPlugin_absent (p : BasePlugin) (svc : PluginService) :
  BaseRegistry_registrable (plugin_id p) (_registry svc) = None ->
  addPlugin p svc =
    (Ok tt, mkPluginService (with_added (_registry svc) [p])
              (_moduleListModel svc) (pluginAdded svc ++ [p])).
Proof.
  intros Hd. unfold addPlugin, BaseRegistry_add.
  rewrite (@add_one_absent _ BasePlugin_Registrable (_registry svc) p Hd).
  simpl.
  by rewrite drop_app_length.
Qed.


Lemma addPlugin_several_fresh (ps : list BasePlugin) (svc : PluginService) :
  Forall (fun p => BaseRegistry_registrable (plugin_id p) (_registry svc) = None) ps ->
  NoDup (plugin_id <$> ps) ->
  for_each ps addPlugin svc =
    (Ok tt, mkPluginService (with_added (_registry svc) ps)
              (_moduleListModel svc) (pluginAdded svc ++ ps)).
Proof.
  revert svc. induction ps as [|p ps IH]; intros svc Hfresh Hnd.
  - simpl. unfold ret. rewrite with_added_nil, app_nil_r. by destruct svc.
  - apply Forall_cons in Hfresh as [Hp Hfresh].
    rewrite fmap_cons in Hnd. apply NoDup_cons in Hnd as [Hnotin Hnd].
    rewrite for_each_cons, addPlugin_absent by done.
    rewrite IH; simpl.
    + by rewrite with_added_app, <- app_assoc.
    + apply Forall_forall. intros q Hq.
      unfold BaseRegistry_registrable; simpl.
      apply dict_get_None. unfold dict_keys. rewrite fmap_app.
      rewrite elem_of_app. intros [Hin|Hin].
      * rewrite Forall_forall in Hfresh. specialize (Hfresh q Hq).
        by apply dict_get_None in Hfresh.
      * simpl in Hin. apply list_elem_of_singleton in Hin.
        apply Hnotin. change (plugin_id q = plugin_id p) in Hin.
        rewrite <- Hin. by apply (list_elem_of_fmap_2 plugin_id).
    + done.
Qed.

Lemma foldl_addPlugin_navBar (ps : list BasePlugin) (win : MainWindow) :
  _navBar (foldl (fun win plugin => MainWindow_addPlugin plugin win) win ps) =
  _navBar win ++ omap navigation_entry ps.
Proof.
  revert win. induction ps as [|p ps IH]; intros win; simpl.
  - by rewrite app_nil_r.
  - rewrite IH. unfold MainWindow_addPlugin, navigation_entry.
    destruct (plugin_widget p), (navigationBarButton p); simpl; try done.
    by rewrite <- app_assoc.
Qed.

Lemma app_with_plugins_values (ps : list BasePlugin) :
  NoDup (plugin_id <$> ps) ->
  dict_values (plugins (pluginService (app_with_plugins ps))) = ps.
Proof.
  intros Hnd. unfold app_with_plugins, plugins, BaseRegistry_registrables.
  simpl. rewrite addPlugin_several_fresh; [|by apply Forall_true|done].
  unfold dict_values. simpl. rewrite <- list_fmap_compose.
  by rewrite list_fmap_id.
Qed.

(** C5. [run] hands the registered plugins to the main window sorted by
    priority, smallest first, plugins of equal priority in the order of
    the registry; the navigation bar receives, in that order, the button
    of every plugin that has a widget and a button. For plugins of
    priorities 30, 10, 20 added in that order the order is 10, 20, 30. *)
Theorem C5_navigation_sorted_by_priority (app : BaseApplication) :
  let registered := dict_values (plugins (pluginService app)) in
  run_order app ≡ₚ registered /\
  StronglySorted priority_le (run_order app) /\
  (forall z : Z,
     filter (fun p => priority p = z) (run_order app) =
     filter (fun p => priority p = z) registered) /\
  _navBar (_mainWindow (BaseApplication_run app)) =
    _navBar (_mainWindow app) ++ omap navigation_entry (run_order app) /\
  (forall p1 p2 p3 : BasePlugin,
     priority p1 = 30%Z -> priority p2 = 10%Z -> priority p3 = 20%Z ->
     NoDup (plugin_id <$> [p1; p2; p3]) ->
     run_order (app_with_plugins [p1; p2; p3]) = [p2; p3; p1] /\
     _navBar (_mainWindow (BaseApplication_run (app_with_plugins [p1; p2; p3]))) =
       omap navigation_entry [p2; p3; p1]).
Proof.
  intros registered. split_and!.
  - apply sort_by_key_perm.
  - apply sort_by_key_sorted.
  - intros z. apply sort_by_key_stable.
  - apply foldl_addPlugin_navBar.
  - intros p1 p2 p3 H1 H2 H3 Hnd.
    assert (Horder : run_order (app_with_plugins [p1; p2; p3]) = [p2; p3; p1]).
    { unfold run_order. rewrite app_with_plugins_values by done.
      unfold sort_by_key. simpl. rewrite H2, H3. simpl.
      rewrite H1, H2. simpl. by rewrite H3. }
    split; [done|].
    unfold BaseApplication_run. simpl _mainWindow.
    rewrite foldl_addPlugin_navBar, Horder. reflexivity.
Qed.

Lemma C5_witness :
  toolTip <$> _navBar (_mainWindow (BaseApplication_run
      (app_with_plugins [plugin_30; plugin_10; plugin_20]))) =
    ["ten"; "twenty"; "thirty"].
Proof.
  destruct (C5_navigation_sorted_by_priority BaseApplication_init)
    as (_ & _ & _ & _ & Hex).
  destruct (Hex plugin_30 plugin_10 plugin_20) as [_ Hnav];
    [reflexivity | reflexivity | reflexivity | simpl; compute_done |].
  rewrite Hnav. reflexivity.
Defined.

Lemma dict_get_append_fresh {K V} `{EqDecision K} (d : dict K V) k v :
  dict_get k d = None -> dict_get k (d ++ [(k, v)]) = Some v.
Proof.
  intros Hd. rewrite <- (dict_set_fresh _ _ v Hd). apply dict_get_set_eq.
Qed.

(** C10. The button of a plugin exists exactly when both the icon string
    and the tool tip given to [BasePlugin.__init__] are truthy. Without
    both, [navigationBarButton()] is [None] and [_MainWindow.addPlugin]
    leaves the window as it is, and the plugin is registered by
    [PluginService.addPlugin] like any other: the outcome depends on its id
    only, and [pluginAdded] is emitted for it. *)
Theorem C10_button_iff_icon_and_tooltip (sub : PluginSubclass) (prio : Z)
    (icon tip : option string) :
  let p := BasePlugin_init sub prio icon tip in
  (is_Some (navigationBarButton p) <->
     truthy icon = true /\ truthy tip = true) /\
  (forall i t, icon = Some i -> tip = Some t -> i <> "" -> t <> "" ->
     navigationBarButton p = Some (mkNavigationBarButton i t)) /\
  (truthy icon = false \/ truthy tip = false ->
     navigationBarButton p = None /\
     navigation_entry p = None /\
     forall win, MainWindow_addPlugin p win = win) /\
  (forall svc : PluginService,
     BaseRegistry_registrable (plugin_id p) (_registry svc) = None ->
     exists svc',
       addPlugin p svc = (Ok tt, svc') /\
       BaseRegistry_registrable (plugin_id p) (_registry svc') = Some p /\
       pluginAdded svc' = pluginAdded svc ++ [p]).
Proof.
  intros p. split_and!.
  - unfold p, navigationBarButton, BasePlugin_init; simpl.
    destruct (truthy icon), (truthy tip); simpl; split;
      try (intros [? ?]; done); try (intros [x Hx]; done); eauto.
  - intros i t -> -> Hi Ht.
    unfold p, navigationBarButton, BasePlugin_init, truthy; simpl.
    by rewrite !bool_decide_false.
  - intros Hfalse.
    assert (Hnone : navigationBarButton p = None).
    { unfold p, navigationBarButton, BasePlugin_init; simpl.
      destruct Hfalse as [-> | ->]; [done|]. by rewrite andb_false_r. }
    split_and!; [done| |].
    + unfold navigation_entry. rewrite Hnone. by destruct (plugin_widget p).
    + intros win. unfold MainWindow_addPlugin. rewrite Hnone.
      by destruct (plugin_widget p).
  - intros svc Hd. eexists. split; [by apply addPlugin_absent|]. simpl.
    split; [|done]. exact (dict_get_append_fresh _ _ p Hd).
Qed.

Lemma C10_witness :
  navigationBarButton quiet_plugin = None /\
  MainWindow_addPlugin quiet_plugin (mkMainWindow [] []) = mkMainWindow [] [] /\
  exists svc',
    addPlugin quiet_plugin PluginService_init = (Ok tt, svc') /\
    pluginAdded svc' = [quiet_plugin].
Proof.
  destruct (C10_button_iff_icon_and_tooltip
              (mkPluginSubclass (Some "quiet") (Some "w") []) 10
              (Some "ph.x") None) as (_ & _ & Hnone & Hreg).
  destruct Hnone as (Hbtn & _ & Hwin); [by right|].
  destruct (Hreg PluginService_init) as (svc' & Hadd & _ & Hsig);
    [reflexivity|].
  split_and!; [exact Hbtn | apply Hwin |].
  exists svc'. split; [exact Hadd | exact Hsig].
Defined.

(** ** Manifests *)

Lemma rmap_raise {A B} (f : A -> Result B) (xs : list A) (x : A) (e : PyExc) :
  x ∈ xs -> f x = Raise e ->
  (forall y e', f y = Raise e' -> e' = e) ->
  rmap f xs = Raise e.
Proof.
  intros Hin Hx Hall. induction xs as [|y xs IH]; [by apply not_elem_of_nil in Hin|].
  simpl. destruct (f y) as [b|e'] eqn:Hy; simpl.
  - apply elem_of_cons in Hin as [->|Hin]; [congruence|].
    by rewrite IH.
  - f_equal. by eapply Hall.
Qed.

Lemma rmap_raise_inv {A B} (f : A -> Result B) (xs : list A) (e e0 : PyExc) :
  (forall y e', f y = Raise e' -> e' = e0) ->
  rmap f xs = Raise e -> e = e0.
Proof.
  intros Hall. induction xs as [|y xs IH]; [done|].
  cbn [rmap]. destruct (f y) as [b|e'] eqn:Hy; cbn [rbind].
  - destruct (rmap f xs) as [bs|e2]; [done|]. cbn [rbind].
    intros [= <-]. by apply IH.
  - intros [= <-]. by eapply Hall.
Qed.


Lemma ModuleMetadata_init_raises (obj : PyVal) (e : PyExc) :
  ModuleMetadata_init obj = Raise e -> e = TypeError.
Proof.
  unfold ModuleMetadata_init. destruct obj; try by intros [= <-].
  repeat case_match; by intros [= <-].
Qed.

Lemma ModuleMetadata_init_missing (kwargs : list (string * PyVal)) (k : string) :
  k ∈ ModuleMetadata_required -> k ∉ kwargs.*1 ->
  ModuleMetadata_init (PyDict kwargs) = Raise TypeError.
Proof.
  intros Hreq Hmiss.
  assert (Hnone : dict_get k kwargs = None) by by apply dict_get_None.
  unfold ModuleMetadata_init. case_match; [|done].
  unfold ModuleMetadata_required in Hreq.
  repeat (apply elem_of_cons in Hreq as [->|Hreq]);
    [..|by apply not_elem_of_nil in Hreq];
    rewrite Hnone; by repeat case_match.
Qed.

Lemma ModuleMetadata_init_to_json (keep_none : bool) (m : ModuleMetadata) :
  ModuleMetadata_init (metadata_to_json keep_none m) = Ok m.
Proof.
  destruct m as [i r d descr].
  destruct descr, keep_none; reflexivity.
Qed.

Section ManifestClaims.
Variable cwd : Path.
Variable files : Path -> option ManifestFile.


(** C6. [Repository.loadFromFile] catches nothing. What [open] and
    [json.load] raise for the manifest is raised unchanged
    ([JSONDecodeError] for text that is not JSON, [UnicodeDecodeError]
    for bytes that are not UTF-8), and a JSON array with an entry that
    lacks a required field raises [TypeError]; these exceptions are what
    the spec calls ManifestParseError, and with [FileNotFoundError] for a
    missing file they are the only ones. In [PluginService.load] the
    exception of a manifest leaves the service as it was after the
    manifests before it: no module of the failing manifest is added,
    whatever its other entries are. *)
Theorem C6_manifest_fail_fast (p : Path) :
  (forall e, files (Path_resolve cwd p) = Some (ReadError e) ->
     Repository_loadFromFile cwd files p = Raise e) /\
  (forall (entries : list PyVal) (kwargs : list (string * PyVal)) (k : string),
     files (Path_resolve cwd p) = Some (Json (PyList entries)) ->
     PyDict kwargs ∈ entries ->
     k ∈ ModuleMetadata_required -> k ∉ kwargs.*1 ->
     Repository_loadFromFile cwd files p = Raise TypeError) /\
  (forall e, Repository_loadFromFile cwd files p = Raise e ->
     forall (fs : Path -> FsEntry)
            (instantiate : PyClass -> unit -> Result BasePlugin)
            (before rest : list Path) (moduleIds : list string)
            (w w1 : PluginWorld),
       load_repositories cwd files before w = (Ok tt, w1) ->
       PluginService_load cwd files fs instantiate (before ++ p :: rest)
         moduleIds w = (Raise e, w1)) /\
  (forall e, Repository_loadFromFile cwd files p = Raise e ->
     (files (Path_resolve cwd p) = None /\ e = FileNotFoundError) \/
     files (Path_resolve cwd p) = Some (ReadError e) \/
     ((exists jsonData, files (Path_resolve cwd p) = Some (Json jsonData)) /\
      e = TypeError)).
Proof.
  split_and!.
  - intros e Hfile. unfold Repository_loadFromFile. by rewrite Hfile.
  - intros entries kwargs k Hfile Hin Hreq Hmiss.
    unfold Repository_loadFromFile. rewrite Hfile. simpl.
    rewrite (rmap_raise ModuleMetadata_init entries (PyDict kwargs) TypeError);
      [done|done| |].
    + by eapply ModuleMetadata_init_missing.
    + apply ModuleMetadata_init_raises.
  - intros e Hload fs instantiate before rest moduleIds w w1 Hbefore.
    unfold PluginService_load, bind.
    unfold load_repositories in *. rewrite for_each_app, Hbefore.
    rewrite for_each_cons, Hload. reflexivity.
  - intros e. unfold Repository_loadFromFile.
    destruct (files (Path_resolve cwd p)) as [[e'|jsonData]|].
    + intros [= ->]. right. by left.
    + intros Hraise. right. right. split; [by exists jsonData|].
      destruct (py_iter jsonData) as [objs|e1] eqn:Hiter.
      * cbn [rbind] in Hraise.
        destruct (rmap ModuleMetadata_init objs) as [ms|e2] eqn:Hmap; [done|].
        cbn [rbind] in Hraise. injection Hraise as <-.
        apply (rmap_raise_inv ModuleMetadata_init objs _ TypeError);
          [apply ModuleMetadata_init_raises | done].
      * cbn [rbind] in Hraise. injection Hraise as <-.
        destruct jsonData; cbn [py_iter] in Hiter; congruence.
    + intros [= <-]. by left.
Qed.
End ManifestClaims.

Lemma C6_witness :
  PluginService_load sample_cwd sample_files sample_fs sample_instantiate
    [Path_of_string "bad.json"] ["core"] empty_world =
    (Raise TypeError, empty_world) /\
  PluginService_load sample_cwd latin1_files sample_fs sample_instantiate
    [Path_of_string "bad.json"] ["core"] empty_world =
    (Raise (OtherError "UnicodeDecodeError"), empty_world).
Proof.
  split.
  - destruct (C6_manifest_fail_fast sample_cwd sample_files
                (Path_of_string "bad.json")) as (_ & Hentry & Hload & _).
    apply (Hload TypeError) with (before := []); [|reflexivity].
    apply (Hentry [metadata_to_json true meta_good; entry_bad]
             [("id", PyStr "broken"); ("displayName", PyStr "Broken")]
             "relativePath"); [reflexivity | | |].
    + unfold entry_bad. apply elem_of_cons. right. apply elem_of_cons. by left.
    + compute_done.
    + compute_done.
  - destruct (C6_manifest_fail_fast sample_cwd latin1_files
                (Path_of_string "bad.json")) as (Hread & _ & Hload & _).
    apply (Hload (OtherError "UnicodeDecodeError")) with (before := []);
      [|reflexivity].
    by apply Hread.
Defined.

Lemma rmap_init_serialized (keep_none : bool) (ms : list ModuleMetadata) :
  rmap ModuleMetadata_init (metadata_to_json keep_none <$> ms) = Ok ms.
Proof.
  induction ms as [|m ms IH]; [done|].
  rewrite fmap_cons. cbn [rmap].
  by rewrite ModuleMetadata_init_to_json, IH.
Qed.

Lemma Module_init_str (dirPath : Path) (m : ModuleMetadata) :
  is_str (relativePath m) = true ->
  exists rel, relativePath m = PyStr rel /\
    Module_init dirPath m = Ok (module_of dirPath m rel).
Proof.
  unfold Module_init, module_of. destruct (relativePath m) as [| | |rel| |]; try done.
  intros _. by exists rel.
Qed.

Lemma rmap_Module_init (dirPath : Path) (ms : list ModuleMetadata) :
  Forall (fun m => is_str (relativePath m) = true) ms ->
  exists modules,
    rmap (Module_init dirPath) ms = Ok modules /\
    Forall2 (fun m module =>
               exists rel, relativePath m = PyStr rel /\
                 module = module_of dirPath m rel) ms modules.
Proof.
  induction 1 as [|m ms Hm _ (modules & Hrest & Hall)]; simpl.
  - exists []. by split.
  - destruct (Module_init_str dirPath m Hm) as (rel & Hrel & Hinit).
    exists (module_of dirPath m rel :: modules). rewrite Hinit, Hrest.
    split; [done|]. constructor; [by exists rel | done].
Qed.

(** C7. A manifest written from a list of ModuleMetadata (whose relative
    paths are strings) is loaded back as a Repository with the same
    metadata, whose path is the absolute parent directory of the manifest;
    the Modules made from it have the id, display name and description of
    the originals and the path [basePath / relativePath]. *)
Theorem C7_manifest_round_trip (cwd : Path)
    (files : Path -> option ManifestFile) (p : Path) (keep_none : bool)
    (ms : list ModuleMetadata) :
  files (Path_resolve cwd p) = Some (serialize keep_none ms) ->
  Forall (fun m => is_str (relativePath m) = true) ms ->
  let basePath := Path_parent (Path_resolve cwd p) in
  Repository_loadFromFile cwd files p = Ok (mkRepository basePath ms) /\
  path_absolute basePath = true /\
  exists modules,
    rmap (Module_init basePath) ms = Ok modules /\
    Forall2 (fun m module =>
               _id module = id m /\
               _displayName module = displayName m /\
               _description module = description m /\
               Path_joinpath basePath (relativePath m) = Ok (_path module))
            ms modules.
Proof.
  intros Hfile Hstr basePath. split_and!.
  - unfold Repository_loadFromFile, serialize in *. rewrite Hfile. simpl.
    by rewrite rmap_init_serialized.
  - reflexivity.
  - destruct (rmap_Module_init basePath ms Hstr) as (modules & Hmods & Hall).
    exists modules. split; [done|].
    eapply Forall2_impl; [apply Hall|].
    intros m module (rel & Hrel & ->). simpl. by rewrite Hrel.
Qed.

Lemma C7_witness :
  exists modules,
    rbind (Repository_loadFromFile sample_cwd sample_files
             (Path_of_string "repo/./modules.json"))
      (fun repo => rmap (Module_init (path repo)) (modulesMetadata repo)) =
      Ok modules /\
    _id <$> modules = [PyStr "core"; PyStr "core"] /\
    _path <$> modules =
      [mkPath true ["home"; "app"; "repo"; "modules"; "core"];
       mkPath true ["home"; "app"; "repo"; "modules"; "other"]].
Proof.
  destruct (C7_manifest_round_trip sample_cwd sample_files
              (Path_of_string "repo/./modules.json") false
              [meta_good; meta_twin])
    as (Hload & _ & modules & Hmods & _);
    [reflexivity | repeat constructor |].
  exists modules. rewrite Hload. simpl rbind. split; [exact Hmods|].
  vm_compute in Hmods. injection Hmods as <-. split; reflexivity.
Defined.

(** ** The module list *)

Lemma with_modules_nil (w : PluginWorld) : with_modules w [] = w.
Proof.
  unfold with_modules. simpl. rewrite !app_nil_r.
  by destruct w as [objs [reg [items added] sig]].
Qed.

Lemma addModule_fresh (dirPath : Path) (m : ModuleMetadata) (rel : string)
    (w : PluginWorld) :
  modules_wf w -> relativePath m = PyStr rel ->
  bind (construct_Module dirPath m) addModule w =
    (Ok tt, with_modules w [module_of dirPath m rel]).
Proof.
  intros Hwf Hrel. unfold bind, construct_Module, Module_init, new_Module.
  rewrite Hrel. simpl. unfold addModule, appendItem, isPresent. simpl.
  rewrite bool_decide_false; [done|].
  intros Hin. unfold modules_wf in Hwf. rewrite Forall_forall in Hwf.
  apply Hwf in Hin. lia.
Qed.

Lemma with_modules_wf (w : PluginWorld) (modules : list Module) :
  modules_wf w -> modules_wf (with_modules w modules).
Proof.
  unfold modules_wf, with_modules. simpl. intros Hwf.
  rewrite length_app. apply Forall_app. split.
  - eapply Forall_impl; [apply Hwf|]. simpl. intros a Ha. lia.
  - apply Forall_forall. intros a Ha%elem_of_seq. lia.
Qed.

Lemma with_modules_app (w : PluginWorld) (ms ms' : list Module) :
  with_modules (with_modules w ms) ms' = with_modules w (ms ++ ms').
Proof.
  unfold with_modules. simpl.
  rewrite !length_app, seq_app, <- !app_assoc. reflexivity.
Qed.

Lemma addModules_fresh (dirPath : Path) (metas : list ModuleMetadata)
    (w : PluginWorld) :
  modules_wf w ->
  Forall (fun m => is_str (relativePath m) = true) metas ->
  exists modules,
    rmap (Module_init dirPath) metas = Ok modules /\
    for_each metas (fun metadata =>
      bind (construct_Module dirPath metadata) addModule) w =
      (Ok tt, with_modules w modules).
Proof.
  intros Hwf Hstr. revert w Hwf.
  induction Hstr as [|m metas Hm _ IH]; intros w Hwf.
  - exists []. simpl. unfold ret. by rewrite with_modules_nil.
  - destruct (Module_init_str dirPath m Hm) as (rel & Hrel & Hinit).
    destruct (IH (with_modules w [module_of dirPath m rel]))
      as (modules & Hrest & Hrun); [by apply with_modules_wf|].
    exists (module_of dirPath m rel :: modules). split.
    + cbn [rmap]. by rewrite Hinit, Hrest.
    + rewrite for_each_cons, (addModule_fresh dirPath m rel w Hwf Hrel), Hrun.
      by rewrite with_modules_app.
Qed.

(** C9. [addModulesFromRepository] makes one Module for each metadata of
    the repository (their relative paths being strings), disabled, and
    appends each to the module list: the list grows by exactly as many
    items as there are metadata, whatever their ids are and whatever ids
    the list already holds; the plugin registry is not touched. *)
Theorem C9_modules_appended_without_id_check (repository : Repository)
    (w : PluginWorld) :
  modules_wf w ->
  Forall (fun m => is_str (relativePath m) = true)
         (modulesMetadata repository) ->
  exists modules,
    rmap (Module_init (path repository)) (modulesMetadata repository) =
      Ok modules /\
    addModulesFromRepository repository w = (Ok tt, with_modules w modules) /\
    length modules = length (modulesMetadata repository) /\
    _id <$> modules = id <$> modulesMetadata repository /\
    Forall (fun module => _enabled module = false) modules /\
    modules_wf (with_modules w modules).
Proof.
  intros Hwf Hstr.
  destruct (addModules_fresh (path repository) (modulesMetadata repository)
              w Hwf Hstr) as (modules & Hmods & Hrun).
  destruct (rmap_Module_init (path repository) (modulesMetadata repository)
              Hstr) as (modules' & Hmods' & Hall).
  rewrite Hmods in Hmods'. injection Hmods' as <-.
  exists modules. split_and!; [done|done| | | |by apply with_modules_wf].
  - symmetry. by eapply Forall2_length.
  - clear Hmods Hrun Hstr.
    induction Hall as [|m module ms mods (rel & _ & ->) _ IH];
      [done|]. rewrite !fmap_cons. f_equal. exact IH.
  - clear Hmods Hrun Hstr. induction Hall as [|m module ms mods (rel & _ & ->) _ IH];
      constructor; done.
Qed.

Lemma C9_witness :
  exists w',
    addModulesFromRepository
      (mkRepository sample_cwd [meta_good; meta_twin])
      (with_modules empty_world [module_of sample_cwd meta_good "modules/core"]) =
      (Ok tt, w') /\
    _items (_moduleListModel (service w')) = [0; 1; 2] /\
    _id <$> module_objects w' = [PyStr "core"; PyStr "core"; PyStr "core"] /\
    _enabled <$> module_objects w' = [false; false; false].
Proof.
  destruct (C9_modules_appended_without_id_check
              (mkRepository sample_cwd [meta_good; meta_twin])
              (with_modules empty_world
                 [module_of sample_cwd meta_good "modules/core"]))
    as (modules & Hmods & Hrun & _).
  - repeat constructor.
  - repeat constructor.
  - eexists. split; [exact Hrun|].
    vm_compute in Hmods. injection Hmods as <-. split_and!; reflexivity.
Defined.

(** * Further properties *)

(** ** Removing from a registry *)

Section RemoveFacts.
Context {K V : Type} `{EqDecision K}.
Implicit Types (d : dict K V) (k : K) (v : V).

Lemma dict_pop_keys_sublist d k : dict_keys (dict_pop k d) `sublist_of` dict_keys d.
Proof.
  induction d as [|[k' v'] d IH]; simpl; [done|].
  destruct (decide (k = k')); simpl.
  - by apply sublist_cons.
  - by apply sublist_skip.
Qed.

Lemma dict_pop_sublist d k : dict_pop k d `sublist_of` d.
Proof.
  induction d as [|[k' v'] d IH]; simpl; [done|].
  destruct (decide (k = k')); simpl.
  - by apply sublist_cons.
  - by apply sublist_skip.
Qed.

Lemma dict_get_pop_eq d k : NoDup (dict_keys d) -> dict_get k (dict_pop k d) = None.
Proof.
  induction d as [|[k' v'] d IH]; simpl; [done|].
  intros [Hk Hnd]%NoDup_cons.
  destruct (decide (k = k')) as [->|Hne]; simpl.
  - by apply dict_get_None.
  - rewrite decide_False by done. by apply IH.
Qed.

Lemma dict_get_pop_ne d k k' : k' <> k -> dict_get k' (dict_pop k d) = dict_get k' d.
Proof.
  intros Hne. induction d as [|[k1 v1] d IH]; simpl; [done|].
  destruct (decide (k = k1)) as [->|Hne1]; simpl.
  - by rewrite decide_False.
  - by rewrite IH.
Qed.

Lemma dict_pop_appended d k v : dict_get k d = None -> dict_pop k (d ++ [(k, v)]) = d.
Proof.
  induction d as [|[k1 v1] d IH]; simpl.
  - by rewrite decide_True.
  - destruct (decide (k = k1)); [done|]. intros Hd. by rewrite IH.
Qed.
End RemoveFacts.

Section RegistryRemove.
Context {T : Type} `{Registrable T}.
Implicit Types (reg : BaseRegistry T) (r : T).

Lemma remove_one_wf reg r : registry_wf reg -> registry_wf (remove_one r reg).2.
Proof.
  intros [Hnd Hid]. unfold remove_one.
  destruct (dict_get (reg_id r) (_registrables reg)); [|by split].
  split; simpl.
  - eapply sublist_NoDup; [done | apply dict_pop_keys_sublist].
  - apply Forall_forall. intros kv Hkv. rewrite Forall_forall in Hid.
    apply Hid. eapply elem_of_sublist; [done | apply dict_pop_sublist].
Qed.

Lemma for_each_wf (step : T -> M (BaseRegistry T) unit) (rs : list T) reg :
  (forall r reg, registry_wf reg -> registry_wf (step r reg).2) ->
  registry_wf reg -> registry_wf (for_each rs step reg).2.
Proof.
  intros Hstep. revert reg. induction rs as [|r rs IH]; intros reg Hwf; [done|].
  rewrite for_each_cons. pose proof (Hstep r reg Hwf) as Hwf1.
  destruct (step r reg) as [[[]|e] reg1]; simpl in *; [by apply IH | done].
Qed.

Lemma run_call_wf (c : RegistryCall T) reg :
  registry_wf reg -> registry_wf (run_call c reg).2.
Proof.
  destruct c as [[r|rs]|[r|rs]]; simpl.
  - apply add_one_wf.
  - apply for_each_wf. intros r reg'. apply add_one_wf.
  - apply remove_one_wf.
  - apply for_each_wf. intros r reg'. apply remove_one_wf.
Qed.

(** X1. [remove(item)] raises [RegistrableNotFoundError] when no item is
    stored under the id of [item], and leaves the registry as it was.
    Otherwise it removes what is stored under that id (which may be
    another object than [item]), keeps every other entry, and emits
    [registrableRemoved] with [item] itself. *)
Theorem X1_remove_by_id reg r :
  (BaseRegistry_registrable (reg_id r) reg = None ->
     BaseRegistry_remove (One r) reg = (Raise RegistrableNotFoundError, reg)) /\
  (forall stored, registry_wf reg ->
     BaseRegistry_registrable (reg_id r) reg = Some stored ->
     exists reg',
       BaseRegistry_remove (One r) reg = (Ok tt, reg') /\
       BaseRegistry_registrable (reg_id r) reg' = None /\
       (forall k, k <> reg_id r ->
          BaseRegistry_registrable k reg' = BaseRegistry_registrable k reg) /\
       registry_emitted reg' = registry_emitted reg ++ [registrableRemoved r]).
Proof.
  unfold BaseRegistry_registrable, BaseRegistry_remove, remove_one. split.
  - by intros ->.
  - intros stored [Hnd _] ->. eexists. split; [done|]. simpl. split_and!.
    + by apply dict_get_pop_eq.
    + intros k Hk. by apply dict_get_pop_ne.
    + done.
Qed.

(** X2. Adding an item whose id is free and removing it again gives back
    the dictionary of the registry, entry for entry and in the same order;
    the two notifications were emitted. *)
Theorem X2_add_then_remove reg r :
  BaseRegistry_registrable (reg_id r) reg = None ->
  exists reg1 reg2,
    BaseRegistry_add (One r) reg = (Ok tt, reg1) /\
    BaseRegistry_remove (One r) reg1 = (Ok tt, reg2) /\
    BaseRegistry_registrables reg2 = BaseRegistry_registrables reg /\
    registry_emitted reg2 =
      registry_emitted reg ++ [registrableAdded r; registrableRemoved r].
Proof.
  intros Hd. do 2 eexists. split; [by apply add_one_absent|].
  unfold BaseRegistry_remove, remove_one, BaseRegistry_registrables. simpl.
  rewrite (dict_get_append_fresh _ _ r Hd). split; [done|]. simpl.
  split; [by apply dict_pop_appended | by rewrite <- app_assoc].
Qed.

(** X3. Whatever sequence of [add] and [remove] calls a new registry
    receives, with single items or lists, failing or not: every key is the
    id of the item stored under it and no two stored items share an id. *)
Theorem X3_add_remove_invariant (calls : list (RegistryCall T)) :
  let reg := after_calls calls BaseRegistry_init in
  Forall (fun kv => kv.1 = reg_id kv.2) (BaseRegistry_registrables reg) /\
  NoDup (dict_keys (BaseRegistry_registrables reg)) /\
  NoDup (reg_id <$> dict_values (BaseRegistry_registrables reg)).
Proof.
  assert (Hwf : forall reg, registry_wf reg -> registry_wf (after_calls calls reg)).
  { induction calls as [|c calls IH]; intros reg Hreg; simpl; [done|].
    by apply IH, run_call_wf. }
  specialize (Hwf BaseRegistry_init).
  assert (Hinit : registry_wf (BaseRegistry_init (T:=T))).
  { split; [apply NoDup_nil_2 | apply Forall_nil_2]. }
  specialize (Hwf Hinit). intros reg. split_and!.
  - apply Hwf.
  - apply Hwf.
  - by apply registry_wf_NoDup_ids.
Qed.
End RegistryRemove.

Lemma X1_witness :
  exists reg',
    BaseRegistry_remove (One dock_a')
      (mkRegistry [(Some "b", dock_b); (Some "a", dock_a)] []) = (Ok tt, reg') /\
    BaseRegistry_registrables reg' = [(Some "b", dock_b)] /\
    registry_emitted reg' = [registrableRemoved dock_a'].
Proof.
  destruct (X1_remove_by_id
              (mkRegistry [(Some "b", dock_b); (Some "a", dock_a)] []) dock_a')
    as [_ Hpresent].
  destruct (Hpresent dock_a) as (reg' & Hrem & _ & _ & Hemit).
  - split; [compute_done | repeat constructor].
  - reflexivity.
  - exists reg'. split; [exact Hrem|].
    vm_compute in Hrem. injection Hrem as <-. split; reflexivity.
Defined.

Lemma X2_witness :
  BaseRegistry_registrables
    (BaseRegistry_remove (One dock_a)
       (BaseRegistry_add (One dock_a)
          (mkRegistry [(Some "b", dock_b)] [])).2).2 =
  [(Some "b", dock_b)].
Proof.
  destruct (X2_add_then_remove (mkRegistry [(Some "b", dock_b)] []) dock_a)
    as (reg1 & reg2 & Hadd & Hrem & Hregs & _); [reflexivity|].
  rewrite Hadd. cbn [snd]. rewrite Hrem. exact Hregs.
Defined.

(** ** The loader on directory trees *)

Lemma FsEntry_tree_ind (P : FsEntry -> Prop) :
  (forall n x, P (FsFile n x)) ->
  (forall n es, Forall P es -> P (FsDir n es)) ->
  forall e, P e.
Proof.
  intros Hfile Hdir. fix IH 1. intros [n x|n es]; [apply Hfile|].
  apply Hdir. induction es as [|e es IHes]; constructor; [apply IH | apply IHes].
Qed.

Section LoaderTrees.
Context {T Args : Type} (instantiate : PyClass -> Args -> Result T).
Implicit Types (a : Args).

Lemma load_file n x (class_ : PyClass) a :
  RegistrableLoader_load instantiate (FsFile n x) class_ a =
  _loadRegistrablesFromModule instantiate n x class_ a.
Proof. reflexivity. Qed.

Lemma load_dir_cons d e es (class_ : PyClass) a :
  RegistrableLoader_load instantiate (FsDir d (e :: es)) class_ a =
  rbind (RegistrableLoader_load instantiate e class_ a) (fun found =>
  rbind (RegistrableLoader_load instantiate (FsDir d es) class_ a) (fun rest =>
  Ok (found ++ rest))).
Proof. by destruct e. Qed.

Lemma instantiate_all_sound (module : Namespace) (class_ : PyClass) a (l : list T) :
  instantiate_all instantiate module class_ a = Ok l ->
  Forall (fun x => exists c, instantiate c a = Ok x /\ proper_subclass c class_) l.
Proof.
  revert l. induction module as [|[name obj] module IH]; simpl; intros l.
  - by intros [= <-].
  - destruct obj as [c|repr]; [|by apply IH].
    destruct (issubclass c class_) eqn:Hsub; simpl; [|by apply IH].
    destruct (class_ne c class_) eqn:Hne; simpl; [|by apply IH].
    destruct (instantiate c a) as [x|e] eqn:Hx; simpl; [|done].
    destruct (instantiate_all instantiate module class_ a) as [rest|e]; simpl;
      [|done].
    intros [= <-]. constructor; [|by apply IH].
    exists c. split; [done|]. split; [done|].
    unfold class_ne in Hne. apply negb_true_iff in Hne.
    by apply bool_decide_eq_false in Hne.
Qed.

(** X4. Loading a directory whose entries all load gives the instances
    of the entries, concatenated in the order of the directory listing;
    an entry that is a directory contributes what loading it gives. *)
Theorem X4_load_directory_concatenates (d : string) (entries : list FsEntry)
    (found : list (list T)) (class_ : PyClass) a :
  Forall2 (fun e l => RegistrableLoader_load instantiate e class_ a = Ok l)
          entries found ->
  RegistrableLoader_load instantiate (FsDir d entries) class_ a =
    Ok (concat found).
Proof.
  induction 1 as [|e l es ls He _ IH]; [done|].
  rewrite load_dir_cons, He, IH. reflexivity.
Qed.

(** X5. One entry that raises makes the whole load raise: when the
    entries before it load, the exception of the first failing file or
    sub-directory is the outcome of loading the directory, and nothing of
    what the entries before it or after it hold is returned. *)
Theorem X5_load_fails_fast (d : string) (before rest : list FsEntry)
    (e : FsEntry) (exc : PyExc) (class_ : PyClass) a :
  Forall (fun e' => is_ok (RegistrableLoader_load instantiate e' class_ a) = true)
         before ->
  RegistrableLoader_load instantiate e class_ a = Raise exc ->
  RegistrableLoader_load instantiate (FsDir d (before ++ e :: rest)) class_ a =
    Raise exc.
Proof.
  intros Hbefore He. induction Hbefore as [|e' es He' _ IH]; simpl app.
  - by rewrite load_dir_cons, He.
  - rewrite load_dir_cons, IH.
    by destruct (RegistrableLoader_load instantiate e' class_ a).
Qed.

(** X6. Whatever the tree under the path is, every instance that [load]
    returns was made by calling a class that implements the requested
    class and is not the requested class itself. *)
Theorem X6_load_only_proper_subclasses (tree : FsEntry) (class_ : PyClass) a (l : list T) :
  RegistrableLoader_load instantiate tree class_ a = Ok l ->
  Forall (fun x => exists c, instantiate c a = Ok x /\ proper_subclass c class_) l.
Proof.
  revert l. induction tree as [n x|n es IH] using FsEntry_tree_ind; intros l.
  - rewrite load_file. unfold _loadRegistrablesFromModule.
    destruct (negb _); [by intros [= <-]|].
    destruct x as [module|e]; simpl; [apply instantiate_all_sound | done].
  - revert l. induction IH as [|e es He _ IHes]; intros l.
    + by intros [= <-].
    + rewrite load_dir_cons.
      destruct (RegistrableLoader_load instantiate e class_ a) as [found|?] eqn:Hfound;
        cbn [rbind]; [|done].
      destruct (RegistrableLoader_load instantiate (FsDir n es) class_ a)
        as [rest|?] eqn:Hrest; cbn [rbind]; [|done].
      intros [= <-]. apply Forall_app. split; [by apply He | by apply IHes].
Qed.
End LoaderTrees.

Lemma X4_witness :
  RegistrableLoader_load record_instance (FsDir "ext" good_entries)
    BasePlugin_class ["arg"] = Ok [(DemoPlugin_class, ["arg"])].
Proof.
  apply (X4_load_directory_concatenates record_instance "ext" good_entries
           [[]; [(DemoPlugin_class, ["arg"])]; []]).
  repeat constructor.
Defined.

Lemma X5_witness :
  RegistrableLoader_load record_instance
    (FsDir "ext" (good_entries ++ [broken_entry; FsFile "late.py" (Ok demo_module)]))
    BasePlugin_class ["arg"] = Raise (OtherError "SyntaxError").
Proof.
  apply X5_load_fails_fast; [repeat constructor | reflexivity].
Defined.

Lemma X6_witness :
  Forall (fun x => exists c, record_instance c ["arg"] = Ok x /\
                     proper_subclass c BasePlugin_class)
         [(DemoPlugin_class, ["arg"])].
Proof.
  apply (X6_load_only_proper_subclasses record_instance
           (FsDir "ext" good_entries) BasePlugin_class ["arg"]).
  reflexivity.
Defined.

(** ** Module file names *)

Lemma rfind_dot_py (stem : string) : rfind_dot (stem +:+ ".py") = Some (String.length stem).
Proof. induction stem as [|c stem IH]; simpl; [done|]. by rewrite IH. Qed.

Lemma length_append_py (stem : string) :
  String.length (stem +:+ ".py") = String.length stem + 3.
Proof. induction stem as [|c stem IH]; simpl; [done|]. by rewrite IH. Qed.

Lemma substring_suffix_py (stem : string) :
  String.substring (String.length stem) 3 (stem +:+ ".py") = ".py".
Proof. induction stem as [|c stem IH]; simpl; [done | exact IH]. Qed.

Lemma substring_all (s : string) : String.substring 0 (String.length s) s = s.
Proof. induction s as [|c s IH]; simpl; [done|]. by rewrite IH. Qed.

Lemma substring_split (s : string) (i : nat) :
  i <= String.length s ->
  s = String.substring 0 i s +:+ String.substring i (String.length s - i) s.
Proof.
  revert i. induction s as [|c s IH]; intros i Hi.
  - destruct i; [done | simpl in Hi; lia].
  - destruct i as [|i].
    + rewrite Nat.sub_0_r, substring_all. done.
    + simpl in Hi.
      change (String c s = String c (String.substring 0 i s +:+
                String.substring i (String.length s - i) s)).
      f_equal. apply IH. lia.
Qed.

Lemma substring_prefix_length (s : string) (i : nat) :
  i <= String.length s -> String.length (String.substring 0 i s) = i.
Proof.
  revert i. induction s as [|c s IH]; intros [|i] Hi; simpl in *; try lia; try done.
  by rewrite IH by lia.
Qed.

Lemma prefix_dot_append (stem rest : string) :
  stem <> "" -> String.prefix "." (stem +:+ rest) = String.prefix "." stem.
Proof.
  destruct stem as [|c stem]; [done|]. intros _.
  change (String c stem +:+ rest) with (String c (stem +:+ rest)).
  cbn [String.prefix]. destruct (ascii_dec "." c); [|done].
  by destruct (stem +:+ rest), stem.
Qed.

(** X7. A file is loaded as a module exactly when its name is a
    non-empty stem that does not begin with a dot, followed by [.py];
    any other file contributes no instance and is not executed, so it can
    neither add instances nor make the load fail. *)
Theorem X7_valid_module_names (name : string) :
  (_isValidModule name (path_suffix name) = true <->
   exists stem, name = stem +:+ ".py" /\ stem <> "" /\
                String.prefix "." stem = false) /\
  (_isValidModule name (path_suffix name) = false ->
   forall (T Args : Type) (instantiate : PyClass -> Args -> Result T)
          (x : Result Namespace) (class_ : PyClass) (a : Args),
     RegistrableLoader_load instantiate (FsFile name x) class_ a = Ok []).
Proof.
  split.
  - unfold _isValidModule. rewrite andb_true_iff, bool_decide_eq_true,
      negb_true_iff. split.
    + intros [Hsuffix Hhidden]. unfold path_suffix in Hsuffix.
      destruct (rfind_dot name) as [i|]; [|done].
      destruct (0 <? i) eqn:Hpos; [|done]. apply Nat.ltb_lt in Hpos.
      destruct (i <? String.length name - 1) eqn:Hlt; [|done].
      apply Nat.ltb_lt in Hlt. simpl in Hsuffix.
      exists (String.substring 0 i name).
      assert (Hstem : String.substring 0 i name <> "").
      { intros Hempty.
        pose proof (substring_prefix_length name i ltac:(lia)) as Hlen.
        rewrite Hempty in Hlen. simpl in Hlen. lia. }
      assert (Hname : name = String.substring 0 i name +:+ ".py").
      { rewrite <- Hsuffix. apply substring_split. lia. }
      split_and!; [done|done|].
      rewrite <- (prefix_dot_append _ ".py") by done. by rewrite <- Hname.
    + intros (stem & -> & Hstem & Hhidden). split.
      * unfold path_suffix. rewrite rfind_dot_py, length_append_py.
        assert (0 < String.length stem) by (destruct stem; [done|simpl; lia]).
        replace (0 <? String.length stem) with true
          by (symmetry; by apply Nat.ltb_lt).
        replace (String.length stem <? String.length stem + 3 - 1) with true
          by (symmetry; apply Nat.ltb_lt; lia).
        simpl. replace (String.length stem + 3 - String.length stem) with 3 by lia.
        apply substring_suffix_py.
      * by rewrite prefix_dot_append.
  - intros Hinvalid T Args instantiate x class_ a. simpl.
    unfold _loadRegistrablesFromModule. by rewrite Hinvalid.
Qed.

Lemma X7_witness :
  _isValidModule "demo.py" (path_suffix "demo.py") = true /\
  RegistrableLoader_load record_instance
    (FsFile ".hidden.py" (Raise FileNotFoundError)) BasePlugin_class [] = Ok [].
Proof.
  split.
  - apply (proj1 (X7_valid_module_names "demo.py")).
    exists "demo". split_and!; [reflexivity | done | reflexivity].
  - apply (proj2 (X7_valid_module_names ".hidden.py")). reflexivity.
Defined.

(** ** Manifest entries and the top level of a manifest *)

Lemma dict_get_is_Some {K V} `{EqDecision K} (d : dict K V) (k : K) :
  is_Some (dict_get k d) <-> k ∈ dict_keys d.
Proof.
  destruct (dict_get k d) eqn:Hd.
  - split; [|by eauto]. intros _.
    destruct (decide (k ∈ dict_keys d)) as [|Hnot]; [done|].
    apply dict_get_None in Hnot. congruence.
  - split; [by intros [? ?]|]. intros Hin. by apply dict_get_None in Hd.
Qed.

Lemma forallb_bool_decide {A} (P : A -> Prop) `{forall x, Decision (P x)}
    (l : list A) :
  forallb (fun x => bool_decide (P x)) l = true <-> Forall P l.
Proof.
  induction l as [|x l IH]; simpl.
  - split; [constructor | done].
  - rewrite andb_true_iff, bool_decide_eq_true, IH, Forall_cons. done.
Qed.

(** X8. The constructor of [ModuleMetadata] accepts an entry exactly
    when it is an object all of whose keys are field names and which has
    the three fields [id], [relativePath] and [displayName]; an entry with
    one key more is refused like an entry with a field missing. The values
    are taken as they are, [description] is [None] when left out, and
    every refusal is a [TypeError]. *)
Theorem X8_metadata_keywords (obj : PyVal) :
  (forall kwargs, obj = PyDict kwargs ->
     (is_ok (ModuleMetadata_init obj) = true <->
      Forall (fun k => k ∈ ModuleMetadata_fields) kwargs.*1 /\
      Forall (fun k => k ∈ kwargs.*1) ModuleMetadata_required)) /\
  (forall m, ModuleMetadata_init obj = Ok m ->
     exists kwargs, obj = PyDict kwargs /\
       dict_get "id" kwargs = Some (id m) /\
       dict_get "relativePath" kwargs = Some (relativePath m) /\
       dict_get "displayName" kwargs = Some (displayName m) /\
       description m = default PyNone (dict_get "description" kwargs)) /\
  (forall e, ModuleMetadata_init obj = Raise e -> e = TypeError).
Proof.
  split_and!.
  - intros kwargs ->. unfold ModuleMetadata_init, ModuleMetadata_required.
    rewrite !Forall_cons, Forall_nil.
    rewrite <- !(dict_get_is_Some kwargs). unfold dict_keys.
    destruct (forallb _ _) eqn:Hkeys.
    + apply forallb_bool_decide in Hkeys.
      destruct (dict_get "id" kwargs), (dict_get "relativePath" kwargs),
        (dict_get "displayName" kwargs); simpl;
        split; try done; try (intros (_ & [? ?] & [? ?] & [? ?] & _); done);
        intros _; split_and!; eauto.
    + split; [done|]. intros [Hall _]. exfalso.
      apply (forallb_bool_decide (fun k => k ∈ ModuleMetadata_fields)) in Hall.
      congruence.
  - intros m. unfold ModuleMetadata_init. destruct obj; try done.
    destruct (forallb _ _); [|done].
    destruct (dict_get "id" _) eqn:Hi; [|done].
    destruct (dict_get "relativePath" _) eqn:Hr; [|done].
    destruct (dict_get "displayName" _) eqn:Hd; [|done].
    intros [= <-]. eexists. by split_and!.
  - intros e. apply ModuleMetadata_init_raises.
Qed.

Lemma X8_witness :
  is_ok (ModuleMetadata_init (metadata_to_json true meta_good)) = true /\
  is_ok (ModuleMetadata_init
           (PyDict [("id", PyStr "x"); ("relativePath", PyStr "x");
                    ("displayName", PyStr "X"); ("version", PyInt 2)])) = false.
Proof.
  split.
  - apply (proj1 (X8_metadata_keywords (metadata_to_json true meta_good)) _ eq_refl).
    split; repeat constructor; compute_done.
  - apply not_true_is_false. intros Hok.
    apply (proj1 (X8_metadata_keywords _) _ eq_refl) in Hok as [Hkeys _].
    apply Forall_cons in Hkeys as [_ Hkeys]. apply Forall_cons in Hkeys as [_ Hkeys].
    apply Forall_cons in Hkeys as [_ Hkeys]. apply Forall_cons in Hkeys as [Hbad _].
    revert Hbad. compute_done.
Defined.

Section ManifestEdges.
Variable cwd : Path.
Variable files : Path -> option ManifestFile.

(** X9. What [Repository.loadFromFile] does with a file that is missing
    or whose JSON is not an array of objects: a missing file raises
    [FileNotFoundError]; an empty array, but also an empty object and an
    empty string, give a repository without modules; [null], a boolean or
    a number raise [TypeError] (they cannot be iterated), and so do a
    non-empty object and a non-empty string (their elements are strings,
    not entries). *)
Theorem X9_manifest_top_level (p : Path) :
  (files (Path_resolve cwd p) = None ->
     Repository_loadFromFile cwd files p = Raise FileNotFoundError) /\
  (forall v, files (Path_resolve cwd p) = Some (Json v) ->
     v = PyList [] \/ v = PyDict [] \/ v = PyStr "" ->
     Repository_loadFromFile cwd files p =
       Ok (mkRepository (Path_parent (Path_resolve cwd p)) [])) /\
  (forall v, files (Path_resolve cwd p) = Some (Json v) ->
     (v = PyNone \/ (exists b, v = PyBool b) \/ (exists z, v = PyInt z) \/
      (exists kv items, v = PyDict (kv :: items)) \/
      (exists c s, v = PyStr (String c s))) ->
     Repository_loadFromFile cwd files p = Raise TypeError).
Proof.
  unfold Repository_loadFromFile. split_and!.
  - by intros ->.
  - intros v -> [-> | [-> | ->]]; reflexivity.
  - intros v -> [-> | [[b ->] | [[z ->] | [(kv & items & ->) | (c & s & ->)]]]];
      reflexivity.
Qed.
End ManifestEdges.

Lemma X9_witness :
  Repository_loadFromFile sample_cwd
    (fun _ => Some (Json (PyDict [("id", PyStr "core")])))
    (Path_of_string "repo.json") = Raise TypeError /\
  Repository_loadFromFile sample_cwd (fun _ => Some (Json (PyDict [])))
    (Path_of_string "repo.json") = Ok (mkRepository sample_cwd []) /\
  Repository_loadFromFile sample_cwd sample_files
    (Path_of_string "missing.json") = Raise FileNotFoundError.
Proof.
  destruct (X9_manifest_top_level sample_cwd
              (fun _ => Some (Json (PyDict [("id", PyStr "core")])))
              (Path_of_string "repo.json")) as (_ & _ & Hbad).
  destruct (X9_manifest_top_level sample_cwd
              (fun _ => Some (Json (PyDict [])))
              (Path_of_string "repo.json")) as (_ & Hempty & _).
  destruct (X9_manifest_top_level sample_cwd sample_files
              (Path_of_string "missing.json")) as (Hmissing & _).
  split_and!.
  - apply (Hbad _ eq_refl). do 3 right. left. by do 2 eexists.
  - apply (Hempty _ eq_refl). right. by left.
  - apply Hmissing. reflexivity.
Defined.

(** X10. A manifest entry whose [relativePath] is not a string passes
    [loadFromFile] and fails only when its Module is made. Then
    [addModulesFromRepository] raises [TypeError] with the Modules of the
    entries before it already appended to the module list, and none for
    the entries after it. *)
Theorem X10_modules_before_bad_path_stay (dirPath : Path)
    (good rest : list ModuleMetadata) (bad : ModuleMetadata) (w : PluginWorld) :
  modules_wf w ->
  Forall (fun m => is_str (relativePath m) = true) good ->
  is_str (relativePath bad) = false ->
  ModuleMetadata_init (metadata_to_json true bad) = Ok bad /\
  exists modules,
    rmap (Module_init dirPath) good = Ok modules /\
    length modules = length good /\
    addModulesFromRepository (mkRepository dirPath (good ++ bad :: rest)) w =
      (Raise TypeError, with_modules w modules).
Proof.
  intros Hwf Hgood Hbad. split; [apply ModuleMetadata_init_to_json|].
  destruct (addModules_fresh dirPath good w Hwf Hgood) as (modules & Hmods & Hrun).
  exists modules. split; [done|]. split.
  - destruct (rmap_Module_init dirPath good Hgood) as (modules' & Hmods' & Hall).
    rewrite Hmods in Hmods'. injection Hmods' as <-.
    symmetry. by eapply Forall2_length.
  - unfold addModulesFromRepository. simpl.
    rewrite for_each_app, Hrun, for_each_cons.
    unfold bind at 1, construct_Module, Module_init, Path_joinpath.
    by destruct (relativePath bad).
Qed.

Lemma X10_witness :
  exists w',
    addModulesFromRepository
      (mkRepository sample_cwd [meta_good; meta_odd; meta_twin]) empty_world =
      (Raise TypeError, w') /\
    _id <$> module_objects w' = [PyStr "core"] /\
    _items (_moduleListModel (service w')) = [0].
Proof.
  destruct (X10_modules_before_bad_path_stay sample_cwd [meta_good] [meta_twin]
              meta_odd empty_world) as (_ & modules & Hmods & _ & Hrun);
    [constructor | repeat constructor | reflexivity |].
  eexists. split; [exact Hrun|].
  vm_compute in Hmods. injection Hmods as <-. split; reflexivity.
Defined.

(** ** The plugin service *)

Lemma addPlugin_taken (p : BasePlugin) (svc : PluginService) :
  is_Some (BaseRegistry_registrable (plugin_id p) (_registry svc)) ->
  addPlugin p svc = (Raise RegistrableAlreadyExistsError, svc).
Proof.
  intros Hd. unfold addPlugin, BaseRegistry_add.
  rewrite (@add_one_present _ BasePlugin_Registrable (_registry svc) p Hd).
  rewrite drop_all. simpl. rewrite app_nil_r. by destruct svc.
Qed.

(** X11. After any sequence of [addPlugin] calls on a new service,
    failed ones included, the emissions of [pluginAdded] are exactly the
    registered plugins in registration order: every registered plugin was
    announced once, and no plugin that the registry refused was announced. *)
Theorem X11_pluginAdded_matches_registry (ps : list BasePlugin) :
  let svc := after_addPlugin_calls ps PluginService_init in
  pluginAdded svc = dict_values (plugins svc) /\
  NoDup (plugin_id <$> pluginAdded svc) /\
  Forall (fun p => PluginService_plugin (plugin_id p) svc = Some p)
         (pluginAdded svc).
Proof.
  assert (Hinv : forall svc,
            registry_wf (_registry svc) ->
            pluginAdded svc = dict_values (plugins svc) ->
            let svc' := after_addPlugin_calls ps svc in
            registry_wf (_registry svc') /\
            pluginAdded svc' = dict_values (plugins svc')).
  { induction ps as [|p ps IH]; intros svc Hwf Hsig; simpl; [done|].
    apply IH.
    - unfold addPlugin. simpl.
      pose proof (@add_one_wf _ BasePlugin_Registrable (_registry svc) p Hwf) as Hwf'.
      by destruct (add_one p (_registry svc)).
    - destruct (BaseRegistry_registrable (plugin_id p) (_registry svc)) eqn:Hd.
      + rewrite addPlugin_taken by eauto. done.
      + rewrite addPlugin_absent by done. simpl.
        unfold plugins, BaseRegistry_registrables, dict_values in *. simpl.
        by rewrite fmap_app, Hsig. }
  intros svc.
  destruct (Hinv PluginService_init) as [Hwf Hsig].
  { split; [apply NoDup_nil_2 | apply Forall_nil_2]. }
  { done. }
  fold svc in Hwf, Hsig. split_and!; [done| |].
  - rewrite Hsig. by apply (@registry_wf_NoDup_ids _ BasePlugin_Registrable).
  - rewrite Hsig. unfold plugins, BaseRegistry_registrables, dict_values,
      PluginService_plugin, BaseRegistry_registrable.
    destruct Hwf as [Hnd Hid]. revert Hnd Hid.
    generalize (_registrables (_registry svc)). intros d.
    induction d as [|[k v] d IHd]; intros Hnd Hid; [constructor|].
    apply NoDup_cons in Hnd as [Hk Hnd]. apply Forall_cons in Hid as [Hkv Hid].
    simpl in Hkv. subst k. rewrite fmap_cons. constructor.
    + simpl. change (reg_id v) with (plugin_id v). by rewrite decide_True.
    + eapply Forall_impl; [by apply IHd|]. simpl. intros p Hp.
      destruct (decide (plugin_id p = reg_id v)) as [Heq|]; [|done].
      exfalso. apply Hk. rewrite <- Heq. apply dict_get_is_Some. eauto.
Qed.

Section EnableFacts.
Variable fs : Path -> FsEntry.
Variable instantiate : PyClass -> unit -> Result BasePlugin.

Lemma addPlugin_keeps_model (p : BasePlugin) (svc : PluginService) :
  _moduleListModel (addPlugin p svc).2 = _moduleListModel svc.
Proof. unfold addPlugin. by destruct (BaseRegistry_add _ _). Qed.

Lemma add_plugins_keeps_modules (ps : list BasePlugin) (w : PluginWorld) :
  let w' := (for_each ps (fun plugin =>
               zoom service (fun svc w => mkPluginWorld (module_objects w) svc)
                    (addPlugin plugin)) w).2 in
  module_objects w' = module_objects w /\
  _moduleListModel (service w') = _moduleListModel (service w).
Proof.
  revert w. induction ps as [|p ps IH]; intros w; [done|].
  rewrite for_each_cons. unfold zoom at 1.
  pose proof (addPlugin_keeps_model p (service w)) as Hmodel.
  destruct (addPlugin p (service w)) as [[[]|e] svc1]; simpl in *.
  - destruct (IH (mkPluginWorld (module_objects w) svc1)) as [Hobjs Hm].
    simpl in *. split; [done | congruence].
  - done.
Qed.

Lemma addPluginsFromModule_modules (a : nat) (m : Module) (w : PluginWorld) :
  let w' := (addPluginsFromModule fs instantiate a m w).2 in
  module_objects w' = alter enabled_copy a (module_objects w) /\
  _moduleListModel (service w') = _moduleListModel (service w).
Proof.
  unfold addPluginsFromModule, bind, set_enabled, modify.
  destruct (RegistrableLoader_load _ _ _ _) as [ps|e]; [|done].
  exact (add_plugins_keeps_modules ps
           (mkPluginWorld (alter enabled_copy a (module_objects w)) (service w))).
Qed.

Lemma selected_id_in (ids : list string) (w : PluginWorld) (a : nat) (m : Module) :
  module_objects w !! a = Some m -> selected ids w a = id_in (_id m) ids.
Proof. unfold selected, id_in. by intros ->. Qed.

(** The objects after the modules at the addresses [l] that are selected
    were enabled. *)
Lemma enable_loop (ids : list string) (w0 : PluginWorld) (l : list nat)
    (s s' : PluginWorld) :
  for_each l (fun module =>
    match module_objects w0 !! module with
    | Some m =>
        if id_in (_id m) ids then addPluginsFromModule fs instantiate module m
        else ret tt
    | None => ret tt
    end) s = (Ok tt, s') ->
  _moduleListModel (service s') = _moduleListModel (service s) /\
  length (module_objects s') = length (module_objects s) /\
  forall a,
    module_objects s' !! a =
    (if bool_decide (a ∈ l) && selected ids w0 a
     then enabled_copy <$> module_objects s !! a
     else module_objects s !! a).
Proof.
  revert s. induction l as [|b l IH]; intros s.
  - unfold for_each, ret. intros [= <-]. split_and!; [done..|].
    intros a. case_bool_decide as Hin; [by apply not_elem_of_nil in Hin | done].
  - rewrite for_each_cons.
    set (body := match module_objects w0 !! b with
                 | Some m => if id_in (_id m) ids
                             then addPluginsFromModule fs instantiate b m
                             else ret tt
                 | None => ret tt end).
    destruct (body s) as [[[]|e] s1] eqn:Hbody; [|done].
    intros Hrest. destruct (IH _ Hrest) as (Hmodel & Hlen & Hobjs).
    assert (Hstep : _moduleListModel (service s1) = _moduleListModel (service s) /\
              module_objects s1 =
                if selected ids w0 b
                then alter enabled_copy b (module_objects s)
                else module_objects s).
    { subst body. destruct (module_objects w0 !! b) as [m|] eqn:Hb.
      - rewrite (selected_id_in ids w0 b m Hb).
        destruct (id_in (_id m) ids) eqn:Hid.
        + pose proof (addPluginsFromModule_modules b m s) as Hadd.
          rewrite Hbody in Hadd. simpl in Hadd. by destruct Hadd as [Ho Hm].
        + unfold ret in Hbody. by injection Hbody as <-.
      - unfold ret in Hbody. injection Hbody as <-.
        unfold selected. by rewrite Hb. }
    destruct Hstep as [Hmodel1 Hobjs1]. split_and!.
    + congruence.
    + rewrite Hlen, Hobjs1. destruct (selected ids w0 b); [apply length_alter | done].
    + intros a. rewrite Hobjs, Hobjs1.
      destruct (decide (a = b)) as [->|Hne].
      * rewrite (bool_decide_true (b ∈ b :: l)) by left. simpl.
        destruct (selected ids w0 b); simpl.
        -- rewrite list_lookup_alter_eq.
           destruct (bool_decide (b ∈ l)); simpl; [|done].
           by destruct (module_objects s !! b).
        -- by rewrite andb_false_r.
      * assert (Hin : bool_decide (a ∈ b :: l) = bool_decide (a ∈ l)).
        { apply bool_decide_ext. rewrite elem_of_cons.
          split; [by intros [?|?] | by right]. }
        rewrite Hin.
        assert (Hother : (if selected ids w0 b
                          then alter enabled_copy b (module_objects s)
                          else module_objects s) !! a = module_objects s !! a).
        { destruct (selected ids w0 b); [|done].
          by apply list_lookup_alter_ne. }
        by rewrite Hother.
Qed.
Lemma enabled_ids_of (ids : list string) (w : PluginWorld)
    (objs' : list Module) (l : list nat) :
  Forall (fun a => a < length (module_objects w)) l ->
  (forall a, a ∈ l ->
     objs' !! a = if selected ids w a
                  then enabled_copy <$> module_objects w !! a
                  else module_objects w !! a) ->
  Forall (fun m => _enabled m = false)
         (omap (fun a => module_objects w !! a) l) ->
  _id <$> filter (fun m => _enabled m = true) (omap (fun a => objs' !! a) l) =
  filter (fun v => id_in v ids = true)
         (_id <$> omap (fun a => module_objects w !! a) l).
Proof.
  induction l as [|a l IH]; intros Hwf Hobjs Hdisabled; [done|].
  apply Forall_cons in Hwf as [Ha Hwf].
  apply lookup_lt_is_Some in Ha as [m Hm].
  simpl in Hdisabled |- *. rewrite Hm in Hdisabled |- *.
  apply Forall_cons in Hdisabled as [Hoff Hdisabled].
  rewrite (Hobjs a) by left. rewrite Hm, (selected_id_in ids w a m Hm).
  assert (IH' := IH Hwf (fun b Hb => Hobjs b (list_elem_of_further _ _ _ Hb))
                   Hdisabled).
  rewrite fmap_cons, (filter_cons _ (_id m)).
  destruct (id_in (_id m) ids) eqn:Hid; simpl.
  - f_equal. exact IH'.
  - rewrite filter_cons, decide_False by (rewrite Hoff; done). exact IH'.
Qed.
End EnableFacts.

Section EnableClaims.
Variable fs : Path -> FsEntry.
Variable instantiate : PyClass -> unit -> Result BasePlugin.

(** X12. When the second loop of [PluginService.load] ends without an
    error, the module list holds the same items, and each Module object
    is as before except that the listed Modules whose id is in
    [moduleIds] are enabled; no Module is disabled by loading. *)
Theorem X12_load_enables_selected (moduleIds : list string)
    (w w' : PluginWorld) :
  load_enabled fs instantiate moduleIds w = (Ok tt, w') ->
  _moduleListModel (service w') = _moduleListModel (service w) /\
  length (module_objects w') = length (module_objects w) /\
  forall a m,
    module_objects w !! a = Some m ->
    module_objects w' !! a =
      Some (if bool_decide (a ∈ _items (_moduleListModel (service w))) &&
               id_in (_id m) moduleIds
            then enabled_copy m else m).
Proof.
  unfold load_enabled, bind, get. intros Hrun.
  destruct (enable_loop fs instantiate moduleIds w _ w w' Hrun)
    as (Hmodel & Hlen & Hobjs).
  split_and!; [done..|]. intros a m Ha.
  rewrite Hobjs, Ha, (selected_id_in moduleIds w a m Ha). simpl.
  by destruct (_ && _).
Qed.

(** X13. After a successful second loop on a module list whose Modules
    were all disabled, the ids of [enabledModules] (what the extension
    dialog writes back on closing) are the ids of the listed Modules that
    are in [moduleIds], in list order: an id of [moduleIds] that no listed
    Module has is not among them. *)
Theorem X13_enabledModules_after_load (moduleIds : list string)
    (w w' : PluginWorld) :
  modules_wf w ->
  Forall (fun m => _enabled m = false) (listed_modules w) ->
  load_enabled fs instantiate moduleIds w = (Ok tt, w') ->
  _id <$> enabledModules w' =
    filter (fun v => id_in v moduleIds = true) (_id <$> listed_modules w).
Proof.
  unfold load_enabled, bind, get. intros Hwf Hdisabled Hrun.
  destruct (enable_loop fs instantiate moduleIds w _ w w' Hrun)
    as (Hmodel & Hlen & Hobjs).
  unfold enabledModules, listed_modules in *. rewrite Hmodel.
  apply (enabled_ids_of moduleIds w); [done| |done].
  intros a Ha. by rewrite Hobjs, bool_decide_true.
Qed.

(** X14. [addPluginsFromModule] marks the Module enabled before it runs
    the loader: when the loader raises, the exception goes to the caller,
    no plugin is registered, and the Module stays enabled. *)
Theorem X14_failed_load_leaves_module_enabled (a : nat) (m : Module)
    (w : PluginWorld) (e : PyExc) :
  module_objects w !! a = Some m ->
  RegistrableLoader_load instantiate (fs (_path m)) BasePlugin_class tt =
    Raise e ->
  exists w',
    addPluginsFromModule fs instantiate a m w = (Raise e, w') /\
    service w' = service w /\
    module_objects w' !! a = Some (enabled_copy m) /\
    (forall b, b <> a -> module_objects w' !! b = module_objects w !! b).
Proof.
  intros Ha Hload. eexists. unfold addPluginsFromModule, bind, set_enabled, modify.
  rewrite Hload. split; [reflexivity|]. simpl. split_and!; [done| |].
  - rewrite list_lookup_alter_eq, Ha. done.
  - intros b Hb. by apply list_lookup_alter_ne.
Qed.
End EnableClaims.

Lemma X12_witness :
  _enabled <$> module_objects loaded_world = [true; false] /\
  _items (_moduleListModel (service loaded_world)) = [0; 1].
Proof.
  destruct (X12_load_enables_selected sample_fs sample_instantiate
              ["core"; "ghost"] sample_world loaded_world)
    as (Hmodel & Hlen & Hobjs); [reflexivity|].
  split; [|by rewrite Hmodel].
  pose proof (Hobjs 0 _ eq_refl) as H0. pose proof (Hobjs 1 _ eq_refl) as H1.
  destruct (module_objects loaded_world) as [|m0 [|m1 [|m2 objs]]];
    try discriminate Hlen.
  simpl in H0, H1. injection H0 as ->. injection H1 as ->. reflexivity.
Defined.

Lemma X13_witness :
  _id <$> enabledModules loaded_world = [PyStr "core"].
Proof.
  rewrite (X13_enabledModules_after_load sample_fs sample_instantiate
             ["core"; "ghost"] sample_world loaded_world).
  - reflexivity.
  - repeat constructor.
  - repeat constructor.
  - reflexivity.
Defined.

Lemma X14_witness :
  exists w',
    addPluginsFromModule broken_fs sample_instantiate 0
      (module_of sample_cwd meta_good "modules/core") sample_world =
      (Raise (OtherError "SyntaxError"), w') /\
    _enabled <$> module_objects w' = [true; false] /\
    plugins (service w') = [].
Proof.
  destruct (X14_failed_load_leaves_module_enabled broken_fs sample_instantiate
              0 (module_of sample_cwd meta_good "modules/core") sample_world
              (OtherError "SyntaxError"))
    as (w' & Hrun & Hsvc & _); [reflexivity | reflexivity |].
  exists w'. split; [exact Hrun|]. rewrite Hsvc.
  vm_compute in Hrun. injection Hrun as <-. split; reflexivity.
Defined.

(** ** The item table model *)

Lemma py_insert_split {A} (i : Z) (x : A) (l : list A) :
  exists k, k <= length l /\ py_insert i x l = take k l ++ x :: drop k l /\
    Z.of_nat k = if (i <? 0)%Z then Z.max 0 (i + Z.of_nat (length l))
                 else Z.min i (Z.of_nat (length l)).
Proof.
  unfold py_insert.
  set (k := if (i <? 0)%Z then Z.max 0 (i + Z.of_nat (length l))
            else Z.min i (Z.of_nat (length l))).
  assert (0 <= k <= Z.of_nat (length l))%Z.
  { subst k. destruct (i <? 0)%Z eqn:Hi; [apply Z.ltb_lt in Hi|apply Z.ltb_ge in Hi]; lia. }
  exists (Z.to_nat k). split_and!; [lia | done | lia].
Qed.

Lemma py_insert_perm {A} (i : Z) (x : A) (l : list A) : py_insert i x l ≡ₚ x :: l.
Proof.
  destruct (py_insert_split i x l) as (k & _ & -> & _).
  rewrite <- Permutation_middle. by rewrite take_drop.
Qed.

Lemma py_remove_sublist (x : nat) (l : list nat) : py_remove x l `sublist_of` l.
Proof.
  induction l as [|y l IH]; simpl; [done|].
  destruct (decide (y = x)); [by apply sublist_cons | by apply sublist_skip].
Qed.

Lemma py_remove_not_in (x : nat) (l : list nat) : NoDup l -> x ∉ py_remove x l.
Proof.
  induction 1 as [|y l Hy _ IH]; simpl; [apply not_elem_of_nil|].
  destruct (decide (y = x)) as [->|Hne]; [done|].
  apply not_elem_of_cons. by split.
Qed.

Lemma py_remove_length (x : nat) (l : list nat) :
  x ∈ l -> S (length (py_remove x l)) = length l.
Proof.
  induction l as [|y l IH]; simpl; [by intros ?%not_elem_of_nil|].
  destruct (decide (y = x)) as [->|Hne]; [done|].
  intros [?|Hin]%elem_of_cons; [congruence|]. simpl. by rewrite IH.
Qed.

Lemma py_remove_appended (x : nat) (l : list nat) :
  x ∉ l -> py_remove x (l ++ [x]) = l.
Proof.
  induction l as [|y l IH]; simpl.
  - by rewrite decide_True.
  - intros [Hne Hl]%not_elem_of_cons. rewrite decide_False by done.
    by rewrite IH.
Qed.

Lemma index_from_absent (item : nat) (l : list nat) (i : Z) :
  item ∉ l -> index_from item l i = (-1)%Z.
Proof.
  revert i. induction l as [|y l IH]; intros i; simpl; [done|].
  intros [Hne Hl]%not_elem_of_cons. rewrite decide_False by done. by apply IH.
Qed.

Lemma index_from_middle (item : nat) (pre post : list nat) (i : Z) :
  item ∉ pre ->
  index_from item (pre ++ item :: post) i = (i + Z.of_nat (length pre))%Z.
Proof.
  revert i. induction pre as [|y pre IH]; intros i; simpl.
  - intros _. rewrite decide_True by done. lia.
  - intros [Hne Hl]%not_elem_of_cons. rewrite decide_False by done.
    rewrite IH by done. lia.
Qed.

Lemma index_from_present (item : nat) (l : list nat) (i : Z) :
  item ∈ l ->
  (i <= index_from item l i < i + Z.of_nat (length l))%Z /\
  l !! Z.to_nat (index_from item l i - i) = Some item.
Proof.
  revert i. induction l as [|y l IH]; intros i; [by intros ?%not_elem_of_nil|].
  simpl. destruct (decide (y = item)) as [->|Hne].
  - intros _. split; [lia|]. by rewrite Z.sub_diag.
  - intros [?|Hin]%elem_of_cons; [congruence|].
    destruct (IH (i + 1)%Z Hin) as [Hrange Hget]. split; [lia|].
    replace (Z.to_nat (index_from item l (i + 1) - i))
      with (S (Z.to_nat (index_from item l (i + 1) - (i + 1)))) by lia.
    done.
Qed.

Lemma filter_all {A} (P : A -> Prop) `{forall x, Decision (P x)} (l : list A) :
  Forall P l -> filter P l = l.
Proof.
  induction 1 as [|x l Hx _ IH]; [done|]. by rewrite filter_cons_True, IH.
Qed.

(** X15. Whatever sequence of [appendItem], [insertItem] and [removeItem]
    calls an empty model receives, with present or absent items and any
    row numbers, no item occurs twice in the list of items. *)
Theorem X15_items_stay_distinct (calls : list ItemCall) :
  NoDup (_items (after_item_calls calls (mkItemTableModel [] []))).
Proof.
  assert (Hstep : forall c m, NoDup (_items m) -> NoDup (_items (run_item_call c m))).
  { intros [item|row item|item] m Hnd; simpl.
    - unfold appendItem, isPresent. case_bool_decide as Hin; simpl; [done|].
      apply NoDup_app. split_and!; [done| |apply NoDup_singleton].
      intros x Hx ->%list_elem_of_singleton. done.
    - unfold insertItem, isPresent. case_bool_decide as Hin; simpl; [done|].
      rewrite py_insert_perm. by apply NoDup_cons.
    - unfold removeItem. case_bool_decide as Hin; simpl; [|done].
      eapply sublist_NoDup; [done | apply py_remove_sublist]. }
  unfold after_item_calls.
  assert (Hall : forall m, NoDup (_items m) ->
            NoDup (_items (foldl (fun m c => run_item_call c m) m calls))).
  { induction calls as [|c calls IH]; intros m Hnd; simpl; [done|].
    by apply IH, Hstep. }
  apply Hall. simpl. constructor.
Qed.

(** X16. [insertItem] of an item that is not in the model returns [True]
    and puts the item at the row asked for when that row exists or is the
    end; a row beyond the end gives the same list as [appendItem], a
    negative row counts from the end and stops at the front. The other
    items keep their order, and [indexOf] finds the item at its row. *)
Theorem X16_insertItem_position (row : Z) (item : nat) (m : ItemTableModel) :
  isPresent item m = false ->
  exists m',
    insertItem row item m = (true, m') /\
    rowCount m' = (rowCount m + 1)%Z /\
    indexOf item m' =
      (if (row <? 0)%Z then Z.max 0 (row + rowCount m)
       else Z.min row (rowCount m)) /\
    (rowCount m <= row -> _items m' = _items (appendItem item m).2)%Z /\
    filter (fun x => x <> item) (_items m') = _items m /\
    items_added m' = items_added m ++ [item].
Proof.
  intros Habsent. unfold insertItem. rewrite Habsent. eexists. split; [done|].
  unfold isPresent in Habsent. apply bool_decide_eq_false in Habsent.
  unfold rowCount, indexOf. simpl.
  destruct (py_insert_split row item (_items m)) as (k & Hk & Hins & Hkz).
  rewrite Hins. split_and!.
  - rewrite length_app. simpl. rewrite length_take, length_drop. lia.
  - rewrite index_from_middle.
    + rewrite length_take. rewrite <- Hkz. lia.
    + intros Hin%elem_of_take. destruct Hin as (j & Hj & _).
      apply Habsent. by eapply list_elem_of_lookup_2.
  - intros Hrow. unfold appendItem, isPresent.
    rewrite bool_decide_false by done. simpl.
    assert (k = length (_items m)) as ->.
    { destruct (row <? 0)%Z eqn:Hneg;
        [apply Z.ltb_lt in Hneg | apply Z.ltb_ge in Hneg]; lia. }
    by rewrite take_ge, drop_ge by lia.
  - rewrite filter_app, filter_cons_False by (intros Hne; done).
    rewrite <- filter_app, take_drop.
    apply filter_all. apply Forall_forall. by intros x Hx ->.
  - done.
Qed.

Lemma X16_witness :
  _items (insertItem (-1) 9 (mkItemTableModel [4; 5; 6] [])).2 = [4; 5; 9; 6] /\
  _items (insertItem 70 9 (mkItemTableModel [4; 5; 6] [])).2 = [4; 5; 6; 9] /\
  indexOf 9 (insertItem (-70) 9 (mkItemTableModel [4; 5; 6] [])).2 = 0%Z.
Proof.
  destruct (X16_insertItem_position (-70) 9 (mkItemTableModel [4; 5; 6] []))
    as (m' & Hins & _ & Hidx & _); [reflexivity|].
  split_and!; [reflexivity | reflexivity |].
  rewrite Hins. simpl snd. rewrite Hidx. reflexivity.
Defined.

(** X17. [indexOf] returns -1 exactly for an item that is not in the
    model, and otherwise a row of the model that holds the item.
    [removeItem] returns [False] and changes nothing for an item that is
    not there; for an item of a duplicate-free model it returns [True],
    emits [itemRemoved] once, and afterwards the item is gone and the
    model has one row less. Removing an item just appended gives back the
    items. *)
Theorem X17_indexOf_and_removeItem (item : nat) (m : ItemTableModel) :
  (indexOf item m = (-1)%Z <-> isPresent item m = false) /\
  (isPresent item m = true ->
     (0 <= indexOf item m < rowCount m)%Z /\
     _items m !! Z.to_nat (indexOf item m) = Some item) /\
  (isPresent item m = false -> removeItem item m = (false, m, [])) /\
  (isPresent item m = true -> NoDup (_items m) ->
     exists m',
       removeItem item m = (true, m', [item]) /\
       isPresent item m' = false /\
       indexOf item m' = (-1)%Z /\
       rowCount m' = (rowCount m - 1)%Z) /\
  (isPresent item m = false ->
     _items (removeItem item (appendItem item m).2).1.2 = _items m).
Proof.
  unfold isPresent, indexOf, rowCount. split_and!.
  - rewrite bool_decide_eq_false. split.
    + intros Hidx Hin.
      destruct (index_from_present item (_items m) 0 Hin) as [Hrange _]. lia.
    + apply index_from_absent.
  - intros Hin%bool_decide_eq_true.
    destruct (index_from_present item (_items m) 0 Hin) as [Hrange Hget].
    split; [lia|]. by rewrite Z.sub_0_r in Hget.
  - intros Hin. unfold removeItem. by rewrite Hin.
  - intros Hin Hnd. unfold removeItem. rewrite Hin.
    apply bool_decide_eq_true in Hin. eexists. split; [done|]. simpl.
    pose proof (py_remove_not_in item (_items m) Hnd) as Hgone.
    split_and!.
    + by apply bool_decide_eq_false.
    + by apply index_from_absent.
    + pose proof (py_remove_length item (_items m) Hin). lia.
  - intros Hin. unfold appendItem, isPresent. rewrite Hin. simpl.
    apply bool_decide_eq_false in Hin. unfold removeItem. simpl.
    rewrite bool_decide_true by (apply elem_of_app; right; by left). simpl.
    by apply py_remove_appended.
Qed.

Lemma X17_witness :
  indexOf 5 (mkItemTableModel [4; 5; 6] []) = 1%Z /\
  removeItem 5 (mkItemTableModel [4; 5; 6] []) =
    (true, mkItemTableModel [4; 6] [], [5]) /\
  indexOf 5 (removeItem 5 (mkItemTableModel [4; 5; 6] [])).1.2 = (-1)%Z.
Proof.
  destruct (X17_indexOf_and_removeItem 5 (mkItemTableModel [4; 5; 6] []))
    as (_ & _ & _ & Hrem & _).
  destruct Hrem as (m' & Hrun & _ & Hidx & _); [reflexivity | compute_done |].
  split_and!; [reflexivity | reflexivity |].
  rewrite Hrun. exact Hidx.
Defined.

(** ** The router and the selection at startup *)

(** X18. The router does not undo what it did: for a Registrable that is
    both a dock and a setting, whose id is free in the dock registry but
    taken in the setting registry, [handleRegistrable] raises and the
    Registrable stays in the dock registry, announced by
    [registrableAdded]; the setting registry is as before. *)
Theorem X18_router_keeps_dock_on_setting_clash (r : AuxRegistrable)
    (app : BaseApplication) :
  is_dock r = true -> is_setting r = true ->
  BaseRegistry_registrable (aux_id r) (dock_registry (dockService app)) = None ->
  is_Some (BaseRegistry_registrable (aux_id r)
             (setting_registry (settingService app))) ->
  exists app',
    handleRegistrable r app = (Raise RegistrableAlreadyExistsError, app') /\
    dock_registry (dockService app') =
      with_added (dock_registry (dockService app)) [r] /\
    BaseRegistry_registrable (aux_id r) (dock_registry (dockService app')) =
      Some r /\
    settingService app' = settingService app.
Proof.
  intros Hdock Hsetting Hfree Htaken. eexists.
  unfold handleRegistrable, is_dock, is_setting in *. rewrite Hdock, Hsetting.
  unfold addDock, addSetting, bind, zoom, BaseRegistry_add.
  rewrite (@add_one_absent _ AuxRegistrable_Registrable _ r Hfree). simpl.
  rewrite (@add_one_present _ AuxRegistrable_Registrable _ r Htaken).
  split; [reflexivity|]. simpl. split_and!; [done| |by destruct (settingService app)].
  exact (dict_get_append_fresh _ _ r Hfree).
Qed.

(** X19. [navigate] returns [None] also when the plugin was found and
    selected, and [run] takes that for a failure: whenever the navigation
    bar has a button, the last click of [run] goes to its first button,
    whatever the setting [application/selectedPlugin] names. When the
    setting names a registered plugin with a button, that button is
    clicked first and the window remembers that plugin, although the first
    button was clicked after it. *)
Theorem X19_run_always_clicks_first_button (selectedPlugin : option string)
    (app : BaseApplication) (sel : Selection)
    (first : NavigationBarButton) (others : list NavigationBarButton) :
  _navBar (_mainWindow app) = first :: others ->
  last (clicked (run_select selectedPlugin app sel)) = Some first /\
  (forall id p button,
     selectedPlugin = Some id -> id <> "" ->
     dict_get (Some id) (plugins (pluginService app)) = Some p ->
     navigationBarButton p = Some button ->
     run_select selectedPlugin app sel =
       mkSelection (clicked sel ++ [button; first]) (Some p)).
Proof.
  intros Hbar. split.
  - unfold run_select. destruct (negb (truthy selectedPlugin)).
    + rewrite Hbar. simpl. by rewrite last_snoc.
    + unfold navigate. simpl. rewrite Hbar. simpl. by rewrite last_snoc.
  - intros id p button -> Hid Hp Hbutton. unfold run_select, truthy.
    rewrite bool_decide_false by done. simpl.
    unfold navigate, setCurrentPlugin. rewrite Hp, Hbutton. simpl.
    rewrite Hbar. simpl. by rewrite <- app_assoc.
Qed.

Lemma X18_witness :
  exists app',
    handleRegistrable dock_setting BaseApplication_init =
      (Raise RegistrableAlreadyExistsError, app') /\
    dict_values (docks (dockService app')) = [dock_setting] /\
    dict_values (settings (settingService app')) = [EnabledExtensionsSetting].
Proof.
  destruct (X18_router_keeps_dock_on_setting_clash dock_setting
              BaseApplication_init)
    as (app' & Hrun & Hdock & _ & Hset);
    [reflexivity | reflexivity | reflexivity | by eexists |].
  exists app'. split; [exact Hrun|].
  unfold docks, settings, BaseRegistry_registrables. rewrite Hdock, Hset.
  split; reflexivity.
Defined.

Lemma X19_witness :
  toolTip <$> clicked (run_select (Some "thirty") started_app
                         (mkSelection [] None)) = ["thirty"; "ten"].
Proof.
  destruct (X19_run_always_clicks_first_button (Some "thirty") started_app
              (mkSelection [] None)
              (mkNavigationBarButton "ph.b" "ten")
              [mkNavigationBarButton "ph.c" "twenty";
               mkNavigationBarButton "ph.a" "thirty"]) as [_ Hsel];
    [reflexivity|].
  rewrite (Hsel "thirty" plugin_30 (mkNavigationBarButton "ph.a" "thirty"));
    [reflexivity | reflexivity | done | reflexivity | reflexivity].
Defined.

(** ** utils/singleton.py *)

Lemma get_instances_app {Args I} (cls : Args -> Result I) calls1 calls2
    (st : SingletonState Args I) :
  get_instances cls (calls1 ++ calls2) st =
    let '(rs1, st1) := get_instances cls calls1 st in
    let '(rs2, st2) := get_instances cls calls2 st1 in
    (rs1 ++ rs2, st2).
Proof.
  revert st. induction calls1 as [|a calls1 IH]; intros st; simpl.
  - by destruct (get_instances cls calls2 st).
  - destruct (get_instance cls a st) as [r st1]. rewrite IH.
    destruct (get_instances cls calls1 st1) as [rs1 st2].
    by destruct (get_instances cls calls2 st2).
Qed.

Lemma get_instances_failing {Args I} (cls : Args -> Result I) failed done :
  Forall (fun args => is_ok (cls args) = false) failed ->
  get_instances cls failed (mkSingleton None done) =
    (cls <$> failed, mkSingleton None (done ++ failed)).
Proof.
  intros Hfailed. revert done.
  induction Hfailed as [|a failed Ha _ IH]; intros done; simpl.
  - by rewrite app_nil_r.
  - unfold get_instance. simpl. destruct (cls a) as [i|e]; [done|].
    rewrite IH. by rewrite <- app_assoc.
Qed.

Lemma get_instances_set {Args I} (cls : Args -> Result I) later i done :
  get_instances cls later (mkSingleton (Some i) done) =
    ((fun _ => Ok i) <$> later, mkSingleton (Some i) done).
Proof.
  induction later as [|a later IH]; simpl; [done|].
  unfold get_instance. simpl. by rewrite IH.
Qed.

(** X20. A decorated class is constructed by the first call of
    [get_instance] whose construction does not raise: the calls before it
    each run the constructor and raise what it raises, that call and
    every later call return the one instance, and the later calls never
    run the constructor, whatever their arguments. *)
Theorem X20_singleton_constructs_once {Args I} (cls : Args -> Result I)
    (failed : list Args) (first : Args) (later : list Args) (i : I) :
  Forall (fun args => is_ok (cls args) = false) failed ->
  cls first = Ok i ->
  get_instances cls (failed ++ first :: later) (mkSingleton None []) =
    ((cls <$> failed) ++ Ok i :: ((fun _ => Ok i) <$> later),
     mkSingleton (Some i) (failed ++ [first])).
Proof.
  intros Hfailed Hfirst. rewrite get_instances_app.
  rewrite get_instances_failing by done. simpl.
  unfold get_instance at 1. simpl. rewrite Hfirst.
  by rewrite get_instances_set.
Qed.

Lemma X20_witness :
  get_instances (fun n => match n with 0 => Raise TypeError | _ => Ok n end)
    [0; 5; 7; 0] (mkSingleton None []) =
    ([Raise TypeError; Ok 5; Ok 5; Ok 5], mkSingleton (Some 5) [0; 5]).
Proof.
  apply (X20_singleton_constructs_once
           (fun n => match n with 0 => Raise TypeError | _ => Ok n end)
           [0] 5 [7; 0] 5).
  - by repeat constructor.
  - reflexivity.
Defined.

(** ** utils/passwords.py *)

Lemma choice_ok (chars : list ascii) (r : Rand) :
  chars <> [] ->
  exists c, choice chars r = (Ok c, mkRand (draws r) (S (taken r))) /\
            c ∈ chars.
Proof.
  destruct chars as [|c0 chars]; [done|]. intros _.
  unfold choice, bind, randbelow, ret.
  eexists. split; [reflexivity|].
  apply list_elem_of_In, nth_In.
  apply Nat.mod_upper_bound. simpl. lia.
Qed.

Lemma choices_ok (n : nat) (chars : list ascii) (r : Rand) :
  chars <> [] ->
  exists cs, choices n chars r = (Ok cs, mkRand (draws r) (n + taken r)) /\
             length cs = n /\ Forall (fun c => c ∈ chars) cs.
Proof.
  intros Hne. revert r. induction n as [|n IH]; intros r.
  - exists []. destruct r. by repeat split.
  - destruct (choice_ok chars r Hne) as (c & Hc & Hin).
    destruct (IH (mkRand (draws r) (S (taken r)))) as (cs & Hcs & Hlen & Hall).
    exists (c :: cs). simpl. unfold bind at 1. rewrite Hc.
    unfold bind at 1. rewrite Hcs. simpl.
    rewrite Nat.add_succ_r. repeat split; [by f_equal | by constructor].
Qed.

Lemma list_delete_insert_same {A} (l : list A) (i : nat) (b : A) :
  delete i (<[i := b]> l) = delete i l.
Proof.
  revert i. induction l as [|a l IH]; intros [|i]; simpl; [done..|].
  by rewrite IH.
Qed.

Lemma insert_Permutation_cons {A} (l : list A) (i : nat) (a b : A) :
  l !! i = Some a -> a :: <[i := b]> l ≡ₚ b :: l.
Proof.
  intros Hi.
  assert (Hb : <[i := b]> l !! i = Some b).
  { apply list_lookup_insert_eq. by eapply lookup_lt_Some. }
  rewrite (delete_Permutation _ _ _ Hb), list_delete_insert_same.
  rewrite (delete_Permutation l _ _ Hi) at 2. apply perm_swap.
Qed.

Lemma swap_Permutation (i j : nat) (x : list ascii) : swap i j x ≡ₚ x.
Proof.
  unfold swap. destruct (x !! i) as [a|] eqn:Hi; [|done].
  destruct (x !! j) as [b|] eqn:Hj; [|done].
  assert (Hj' : <[i := b]> x !! j = Some b).
  { destruct (decide (i = j)) as [->|Hne].
    - apply list_lookup_insert_eq. by eapply lookup_lt_Some.
    - by rewrite list_lookup_insert_ne. }
  apply (Permutation_cons_inv (a := b)).
  rewrite (insert_Permutation_cons _ _ _ a Hj').
  by apply insert_Permutation_cons.
Qed.

Lemma shuffle_from_ok (n : nat) (x : list ascii) (r : Rand) :
  exists x', shuffle_from n x r = (Ok x', mkRand (draws r) (n + taken r)) /\
             x' ≡ₚ x.
Proof.
  revert x r. induction n as [|n IH]; intros x r.
  - exists x. destruct r. by split.
  - simpl. unfold bind, randbelow.
    destruct (IH (swap (S n) (draws r (taken r) mod S (S n)) x)
                (mkRand (draws r) (S (taken r)))) as (x' & Hx' & Hperm).
    exists x'. rewrite Hx'. simpl. rewrite Nat.add_succ_r.
    split; [done|]. by rewrite Hperm, swap_Permutation.
Qed.

Lemma list_ascii_of_string_of_list (l : list ascii) :
  String.list_ascii_of_string (String.string_of_list_ascii l) = l.
Proof. apply String.list_ascii_of_string_of_list_ascii. Qed.

Lemma length_string_of_list (l : list ascii) :
  String.length (String.string_of_list_ascii l) = length l.
Proof. induction l as [|c l IH]; simpl; [done | by rewrite IH]. Qed.

(** What [generatePassword] does up to the shuffle. *)
Lemma generatePassword_run (length charSet : Z) (r : Rand) :
  allCharacters charSet <> [] \/ (length <= 3)%Z ->
  exists p1 p2 rest password r',
    generatePassword length charSet r =
      (Ok (String.string_of_list_ascii password), r') /\
    (if isSet charSet LETTERS then exists c, p1 = [c] /\ c ∈ letters
     else p1 = []) /\
    (if isSet charSet DIGITS then exists c, p2 = [c] /\ c ∈ digits
     else p2 = []) /\
    List.length rest = Z.to_nat (length - 3) /\
    Forall (fun c => c ∈ allCharacters charSet) rest /\
    password ≡ₚ p1 ++ p2 ++ rest.
Proof.
  intros Hok. unfold generatePassword.
  set (c1 := if isSet charSet LETTERS
             then bind (choice letters) (fun c => ret [c]) else ret []).
  assert (H1 : exists p1 r1, c1 r = (Ok p1, r1) /\
            if isSet charSet LETTERS then exists c, p1 = [c] /\ c ∈ letters
            else p1 = []).
  { subst c1. destruct (isSet charSet LETTERS).
    - destruct (choice_ok letters r) as (c & Hc & Hin); [done|].
      exists [c], (mkRand (draws r) (S (taken r))). unfold bind. rewrite Hc.
      split; [done|]. by exists c.
    - by exists [], r. }
  destruct H1 as (p1 & r1 & Hc1 & Hp1).
  set (c2 := if isSet charSet DIGITS
             then bind (choice digits) (fun c => ret [c]) else ret []).
  assert (H2 : exists p2 r2, c2 r1 = (Ok p2, r2) /\
            if isSet charSet DIGITS then exists c, p2 = [c] /\ c ∈ digits
            else p2 = []).
  { subst c2. destruct (isSet charSet DIGITS).
    - destruct (choice_ok digits r1) as (c & Hc & Hin); [done|].
      exists [c], (mkRand (draws r1) (S (taken r1))). unfold bind. rewrite Hc.
      split; [done|]. by exists c.
    - by exists [], r1. }
  destruct H2 as (p2 & r2 & Hc2 & Hp2).
  set (c3 := if isSet charSet SPECIALS
             then bind (choice specials) (fun _ => ret tt) else ret tt).
  assert (H3 : exists r3, c3 r2 = (Ok tt, r3)).
  { subst c3. destruct (isSet charSet SPECIALS).
    - destruct (choice_ok specials r2) as (c & Hc & Hin); [done|].
      eexists. unfold bind. by rewrite Hc.
    - by exists r2. }
  destruct H3 as (r3 & Hc3).
  assert (H4 : exists rest r4,
            choices (Z.to_nat (length - 3)) (allCharacters charSet) r3 =
              (Ok rest, r4) /\
            List.length rest = Z.to_nat (length - 3) /\
            Forall (fun c => c ∈ allCharacters charSet) rest).
  { destruct Hok as [Hne|Hshort].
    - destruct (choices_ok (Z.to_nat (length - 3)) _ r3 Hne)
        as (rest & Hrest & Hlen & Hall).
      by exists rest, (mkRand (draws r3) (Z.to_nat (length - 3) + taken r3)).
    - replace (Z.to_nat (length - 3)) with 0 by lia. by exists [], r3. }
  destruct H4 as (rest & r4 & Hc4 & Hlen & Hall).
  destruct (shuffle_from_ok (List.length (p1 ++ p2 ++ rest) - 1)
              (p1 ++ p2 ++ rest) r4) as (password & Hsh & Hperm).
  exists p1, p2, rest, password. eexists.
  unfold bind at 1. rewrite Hc1. unfold bind at 1. rewrite Hc2.
  unfold bind at 1. rewrite Hc3. unfold bind at 1. rewrite Hc4.
  unfold bind at 1, shuffle. rewrite Hsh. simpl. done.
Qed.

Lemma allCharacters_nil (charSet : Z) :
  allCharacters charSet = [] ->
  isSet charSet LETTERS = false /\ isSet charSet DIGITS = false /\
  isSet charSet SPECIALS = false.
Proof.
  unfold allCharacters.
  destruct (isSet charSet LETTERS); [done|].
  destruct (isSet charSet DIGITS); [done|].
  by destruct (isSet charSet SPECIALS).
Qed.

Lemma generatePassword_raises (length charSet : Z) (r : Rand) :
  allCharacters charSet = [] -> (3 < length)%Z ->
  generatePassword length charSet r = (Raise (OtherError "IndexError"), r).
Proof.
  intros Hnil Hlen. destruct (allCharacters_nil _ Hnil) as (H1 & H2 & H3).
  unfold generatePassword. rewrite H1, H2, H3, Hnil.
  destruct (Z.to_nat (length - 3)) as [|n] eqn:Hn; [lia|]. reflexivity.
Qed.

(** X21. [generatePassword] does not return [length] characters. Unless
    no character set is selected while [length > 3], it returns one
    character for LETTERS if selected, one for DIGITS if selected, and
    [length - 3] further ones (none when [length <= 3]), whatever the
    random source delivers: the character chosen for SPECIALS is not
    added. With no set selected and [length > 3] it raises IndexError. *)
Theorem X21_password_length (length charSet : Z) (r : Rand) :
  (allCharacters charSet <> [] \/ (length <= 3)%Z ->
   exists password r',
     generatePassword length charSet r = (Ok password, r') /\
     String.length password =
       (if isSet charSet LETTERS then 1 else 0) +
       (if isSet charSet DIGITS then 1 else 0) +
       Z.to_nat (length - 3)) /\
  (allCharacters charSet = [] -> (3 < length)%Z ->
   generatePassword length charSet r = (Raise (OtherError "IndexError"), r)).
Proof.
  split; [|apply generatePassword_raises].
  intros Hok.
  destruct (generatePassword_run length charSet r Hok)
    as (p1 & p2 & rest & password & r' & Hrun & Hp1 & Hp2 & Hlen & _ & Hperm).
  eexists _, r'. split; [exact Hrun|].
  rewrite length_string_of_list, Hperm, !length_app, Hlen.
  destruct (isSet charSet LETTERS), (isSet charSet DIGITS);
    repeat match goal with
           | H : exists _, _ |- _ => destruct H as (? & -> & _)
           | H : _ = [] |- _ => rewrite H
           end; reflexivity.
Qed.

(** X22. Every character of a generated password belongs to a selected
    character set; the password contains a letter when LETTERS is
    selected and a digit when DIGITS is selected. *)
Theorem X22_password_characters (length charSet : Z) (r r' : Rand)
    (password : string) :
  generatePassword length charSet r = (Ok password, r') ->
  Forall (fun c => c ∈ allCharacters charSet)
    (String.list_ascii_of_string password) /\
  (isSet charSet LETTERS = true ->
   Exists (fun c => c ∈ letters) (String.list_ascii_of_string password)) /\
  (isSet charSet DIGITS = true ->
   Exists (fun c => c ∈ digits) (String.list_ascii_of_string password)).
Proof.
  intros Hrun.
  assert (Hok : allCharacters charSet <> [] \/ (length <= 3)%Z).
  { destruct (decide (allCharacters charSet = [])) as [Hnil|]; [|by left].
    destruct (decide (length <= 3)%Z) as [|Hlong]; [by right|].
    rewrite generatePassword_raises in Hrun by (done || lia). done. }
  destruct (generatePassword_run length charSet r Hok)
    as (p1 & p2 & rest & pw & r1 & Hrun' & Hp1 & Hp2 & _ & Hall & Hperm).
  rewrite Hrun' in Hrun. injection Hrun as <- _.
  rewrite list_ascii_of_string_of_list.
  unfold allCharacters in *.
  split; [|split].
  - rewrite Hperm, !Forall_app. split; [|split].
    + destruct (isSet charSet LETTERS).
      * destruct Hp1 as (c & -> & Hc). constructor; [|done].
        apply elem_of_app. by left.
      * by rewrite Hp1.
    + destruct (isSet charSet DIGITS).
      * destruct Hp2 as (c & -> & Hc). constructor; [|done].
        apply elem_of_app. right. apply elem_of_app. by left.
      * by rewrite Hp2.
    + done.
  - intros Hset. rewrite Hset in Hp1. destruct Hp1 as (c & -> & Hc).
    rewrite Hperm. apply Exists_exists. exists c. split; [|done].
    apply elem_of_app. left. by apply list_elem_of_singleton.
  - intros Hset. rewrite Hset in Hp2. destruct Hp2 as (c & -> & Hc).
    rewrite Hperm. apply Exists_exists. exists c. split; [|done].
    apply elem_of_app. right. apply elem_of_app. left.
    by apply list_elem_of_singleton.
Qed.

Lemma choice_first (c : ascii) (chars : list ascii) (k : nat) :
  choice (c :: chars) (mkRand (fun _ => 0) k) =
    (Ok c, mkRand (fun _ => 0) (S k)).
Proof.
  unfold choice, bind, randbelow, ret.
  cbn [draws taken]. by rewrite Nat.Div0.mod_0_l.
Qed.

Lemma choice_from (c : ascii) (l chars : list ascii) (k : nat) :
  chars = c :: l ->
  choice chars (mkRand (fun _ => 0) k) = (Ok c, mkRand (fun _ => 0) (S k)).
Proof. intros ->. apply choice_first. Qed.

Lemma choices_first (n : nat) (c : ascii) (chars : list ascii) (k : nat) :
  choices n (c :: chars) (mkRand (fun _ => 0) k) =
    (Ok (replicate n c), mkRand (fun _ => 0) (n + k)).
Proof.
  revert k. induction n as [|n IH]; intros k; [done|].
  cbn [choices]. unfold bind at 1. rewrite choice_first.
  unfold bind at 1. rewrite IH. unfold ret. cbn [replicate].
  by rewrite Nat.add_succ_r.
Qed.

(** X23. Selecting SPECIALS does not put a special character into the
    password: for every length and every selection that includes LETTERS
    or DIGITS there is a random source (the one that always delivers 0)
    for which the generated password has no special character. *)
Theorem X23_password_may_lack_special (length charSet : Z) :
  isSet charSet LETTERS = true \/ isSet charSet DIGITS = true ->
  exists password r',
    generatePassword length charSet (mkRand (fun _ => 0) 0) =
      (Ok password, r') /\
    Forall (fun c => c ∉ specials) (String.list_ascii_of_string password).
Proof.
  intros Hset. unfold generatePassword, allCharacters.
  assert (Ha : "a"%char ∉ specials) by compute_done.
  assert (H0 : "0"%char ∉ specials) by compute_done.
  assert (Hspecial : forall k, exists k',
    (if isSet charSet SPECIALS
     then bind (choice specials) (fun _ => ret tt) else ret tt)
      (mkRand (fun _ => 0) k) = (Ok tt, mkRand (fun _ => 0) k')).
  { intros k. destruct (isSet charSet SPECIALS); [|by exists k].
    exists (S k). unfold bind.
    by rewrite (choice_from (hd "a"%char specials) (tl specials) specials). }
  destruct (isSet charSet LETTERS) eqn:HL.
  - unfold bind at 1. unfold bind at 1.
    rewrite (choice_from "a"%char (tl letters) letters) by reflexivity.
    unfold ret at 1.
    destruct (isSet charSet DIGITS) eqn:HD.
    + unfold bind at 1. unfold bind at 1.
      rewrite (choice_from "0"%char (tl digits) digits) by reflexivity.
      unfold ret at 1.
      destruct (Hspecial 2) as [k' Hk']. unfold bind at 1. rewrite Hk'.
      unfold bind at 1.
      change (letters ++ digits ++ _) with
        ("a"%char :: tl letters ++ digits ++
           (if isSet charSet SPECIALS then specials else [])).
      rewrite choices_first.
      destruct (shuffle_from_ok
                  (List.length (["a"%char] ++ ["0"%char] ++
                     replicate (Z.to_nat (length - 3)) "a"%char) - 1)
                  (["a"%char] ++ ["0"%char] ++
                     replicate (Z.to_nat (length - 3)) "a"%char)
                  (mkRand (fun _ => 0) (Z.to_nat (length - 3) + k')))
        as (pw & Hpw & Hperm).
      unfold bind, shuffle. rewrite Hpw. eexists _, _. split; [reflexivity|].
      rewrite list_ascii_of_string_of_list, Hperm.
      repeat constructor; [done..|]. by apply Forall_replicate.
    + unfold bind at 1. unfold ret at 1.
      destruct (Hspecial 1) as [k' Hk']. unfold bind at 1. rewrite Hk'.
      unfold bind at 1.
      change (letters ++ [] ++ _) with
        ("a"%char :: tl letters ++ [] ++
           (if isSet charSet SPECIALS then specials else [])).
      rewrite choices_first.
      destruct (shuffle_from_ok
                  (List.length (["a"%char] ++ [] ++
                     replicate (Z.to_nat (length - 3)) "a"%char) - 1)
                  (["a"%char] ++ [] ++
                     replicate (Z.to_nat (length - 3)) "a"%char)
                  (mkRand (fun _ => 0) (Z.to_nat (length - 3) + k')))
        as (pw & Hpw & Hperm).
      unfold bind, shuffle. rewrite Hpw. eexists _, _. split; [reflexivity|].
      rewrite list_ascii_of_string_of_list, Hperm.
      repeat constructor; [done|]. by apply Forall_replicate.
  - destruct Hset as [|HD]; [done|]. rewrite HD.
    unfold bind at 1. unfold ret at 1.
    unfold bind at 1. unfold bind at 1.
    rewrite (choice_from "0"%char (tl digits) digits) by reflexivity.
    unfold ret at 1.
    destruct (Hspecial 1) as [k' Hk']. unfold bind at 1. rewrite Hk'.
    unfold bind at 1.
    change ([] ++ digits ++ _) with
      ("0"%char :: tl digits ++
         (if isSet charSet SPECIALS then specials else [])).
    rewrite choices_first.
    destruct (shuffle_from_ok
                (List.length ([] ++ ["0"%char] ++
                   replicate (Z.to_nat (length - 3)) "0"%char) - 1)
                ([] ++ ["0"%char] ++
                   replicate (Z.to_nat (length - 3)) "0"%char)
                (mkRand (fun _ => 0) (Z.to_nat (length - 3) + k')))
      as (pw & Hpw & Hperm).
    unfold bind, shuffle. rewrite Hpw. eexists _, _. split; [reflexivity|].
    rewrite list_ascii_of_string_of_list, Hperm.
    repeat constructor; [done|]. by apply Forall_replicate.
Qed.

Lemma X21_witness :
  (exists password r',
     generatePassword 12 (Z.lor (Z.lor LETTERS DIGITS) SPECIALS)
       (mkRand (fun k => 7 * k + 3) 0) = (Ok password, r') /\
     String.length password = 11) /\
  generatePassword 12 0 (mkRand (fun k => 7 * k + 3) 0) =
    (Raise (OtherError "IndexError"), mkRand (fun k => 7 * k + 3) 0).
Proof.
  split.
  - destruct (X21_password_length 12 (Z.lor (Z.lor LETTERS DIGITS) SPECIALS)
                (mkRand (fun k => 7 * k + 3) 0)) as [Hlen _].
    apply Hlen. left. discriminate.
  - destruct (X21_password_length 12 0 (mkRand (fun k => 7 * k + 3) 0))
      as [_ Hraise].
    apply Hraise; [reflexivity | lia].
Defined.

Lemma X22_witness :
  exists password r',
    generatePassword 12 (Z.lor (Z.lor LETTERS DIGITS) SPECIALS)
      (mkRand (fun k => 7 * k + 3) 0) = (Ok password, r') /\
    Forall (fun c => c ∈ letters ++ digits ++ specials)
      (String.list_ascii_of_string password) /\
    Exists (fun c => c ∈ letters) (String.list_ascii_of_string password) /\
    Exists (fun c => c ∈ digits) (String.list_ascii_of_string password).
Proof.
  destruct (generatePassword 12 (Z.lor (Z.lor LETTERS DIGITS) SPECIALS)
              (mkRand (fun k => 7 * k + 3) 0)) as [[password|e] r'] eqn:Hrun;
    [|by vm_compute in Hrun].
  exists password, r'. split; [reflexivity|].
  destruct (X22_password_characters _ _ _ _ _ Hrun) as (Hall & Hletter & Hdigit).
  split; [exact Hall|]. split; [by apply Hletter | by apply Hdigit].
Defined.

Lemma X23_witness :
  exists password r',
    generatePassword 12 (Z.lor (Z.lor LETTERS DIGITS) SPECIALS)
      (mkRand (fun _ => 0) 0) = (Ok password, r') /\
    Forall (fun c => c ∉ specials) (String.list_ascii_of_string password).
Proof.
  apply (X23_password_may_lack_special 12
           (Z.lor (Z.lor LETTERS DIGITS) SPECIALS)).
  by left.
Defined.

(** ** common/models/TreeModel.py *)

Lemma py_insert_in_range {A} (position : Z) (x : A) (l : list A) :
  (0 <= position <= Z.of_nat (length l))%Z ->
  py_insert position x l =
    take (Z.to_nat position) l ++ x :: drop (Z.to_nat position) l.
Proof.
  intros Hpos. unfold py_insert.
  destruct (position <? 0)%Z eqn:Hneg; [apply Z.ltb_lt in Hneg; lia|].
  by rewrite Z.min_l by lia.
Qed.

Lemma insert_times_in_range {A} (n : nat) (position : Z) (x : A) (l : list A) :
  (0 <= position <= Z.of_nat (length l))%Z ->
  insert_times n position x l =
    take (Z.to_nat position) l ++ replicate n x ++ drop (Z.to_nat position) l.
Proof.
  revert l. induction n as [|n IH]; intros l Hpos; simpl.
  - by rewrite take_drop.
  - rewrite py_insert_in_range by done.
    assert (Hlen : length (take (Z.to_nat position) l) = Z.to_nat position)
      by (rewrite length_take; lia).
    rewrite IH by (rewrite length_app, Hlen; simpl; lia).
    rewrite take_app_length' by done.
    rewrite drop_app_length' by done.
    f_equal.
    replace (replicate n x ++ x :: drop (Z.to_nat position) l)
      with ((replicate n x ++ [x]) ++ drop (Z.to_nat position) l)
      by (by rewrite <- app_assoc).
    by rewrite <- replicate_S_end.
Qed.

Lemma insertChildren_loop_spec (n : nat) (position : Z) (t : TreeItem) :
  insertChildren_loop n position t =
    mkTreeItem (_itemData t)
      (insert_times n position (TreeItem_init (Some t)) (_childItems t)).
Proof.
  revert t. induction n as [|n IH]; intros t; simpl.
  - by destruct t.
  - by rewrite IH.
Qed.

Lemma py_pop_in_range {A} (position : Z) (l : list A) :
  (0 <= position < Z.of_nat (length l))%Z ->
  py_pop position l = Ok (delete (Z.to_nat position) l).
Proof.
  intros Hpos. unfold py_pop.
  destruct (position <? 0)%Z eqn:Hneg; [apply Z.ltb_lt in Hneg; lia|].
  destruct (0 <=? position)%Z eqn:H0; [|apply Z.leb_gt in H0; lia].
  destruct (position <? Z.of_nat (length l))%Z eqn:H1;
    [done | apply Z.ltb_ge in H1; lia].
Qed.

Lemma pop_times_in_range {A} (n : nat) (position : Z) (l : list A) :
  (0 <= position)%Z -> n = 0 \/ Z.to_nat position + n <= length l ->
  pop_times n position l =
    Ok (take (Z.to_nat position) l ++ drop (Z.to_nat position + n) l).
Proof.
  intros Hpos. revert l. induction n as [|n IH]; intros l Hn; simpl.
  - by rewrite Nat.add_0_r, take_drop.
  - destruct Hn as [|Hn]; [done|].
    rewrite py_pop_in_range by lia. simpl.
    rewrite IH by (right; rewrite length_delete; [lia|];
                   apply lookup_lt_is_Some; lia).
    rewrite delete_take_drop.
    assert (Hlen : length (take (Z.to_nat position) l) = Z.to_nat position)
      by (rewrite length_take; lia).
    rewrite take_app_length' by done.
    rewrite drop_app_add' by done.
    rewrite drop_drop. do 3 f_equal. lia.
Qed.

Lemma pop_insert_times {A} (n : nat) (position : Z) (x : A) (l : list A) :
  (0 <= position <= Z.of_nat (length l))%Z ->
  pop_times n position (insert_times n position x l) = Ok l.
Proof.
  intros Hpos. rewrite insert_times_in_range by done.
  assert (Hlen : length (take (Z.to_nat position) l) = Z.to_nat position)
    by (rewrite length_take; lia).
  rewrite pop_times_in_range.
  - rewrite take_app_length' by done.
    rewrite drop_app_add' by done.
    rewrite drop_app_length' by (by rewrite length_replicate).
    by rewrite take_drop.
  - lia.
  - right. rewrite !length_app, Hlen, length_replicate. lia.
Qed.

(** X24. [insertChildren] refuses a position before the first or after
    the last child and leaves the item alone; otherwise it returns True
    and puts [count] new items (none for a negative [count]) in front of
    the child at [position]: each new item has no children and as many
    empty columns as the item itself; the columns of the item and the
    other children are untouched. *)
Theorem X24_insertChildren_contents (position count : Z) (t : TreeItem) :
  insertChildren position count t =
    if decide (0 <= position <= TreeItem_childCount t)%Z
    then (true,
          mkTreeItem (_itemData t)
            (take (Z.to_nat position) (_childItems t) ++
             replicate (Z.to_nat count)
               (mkTreeItem
                  (replicate (Z.to_nat (TreeItem_columnCount t)) None) []) ++
             drop (Z.to_nat position) (_childItems t)))
    else (false, t).
Proof.
  unfold insertChildren.
  destruct (position <? 0)%Z eqn:Hneg; simpl.
  { apply Z.ltb_lt in Hneg. rewrite decide_False by lia. done. }
  apply Z.ltb_ge in Hneg.
  destruct (TreeItem_childCount t <? position)%Z eqn:Hbig.
  { apply Z.ltb_lt in Hbig. rewrite decide_False by lia. done. }
  apply Z.ltb_ge in Hbig. rewrite decide_True by lia.
  rewrite insertChildren_loop_spec.
  rewrite insert_times_in_range by (unfold TreeItem_childCount in Hbig; lia).
  done.
Qed.

Lemma removeChildren_spec (position count : Z) (t : TreeItem) :
  removeChildren position count t =
    Ok (if decide (0 <= position /\
                   position + count <= TreeItem_childCount t)%Z
        then (true,
              mkTreeItem (_itemData t)
                (take (Z.to_nat position) (_childItems t) ++
                 drop (Z.to_nat position + Z.to_nat count) (_childItems t)))
        else (false, t)).
Proof.
  unfold removeChildren.
  destruct (position <? 0)%Z eqn:Hneg; simpl.
  { apply Z.ltb_lt in Hneg. rewrite decide_False by lia. done. }
  apply Z.ltb_ge in Hneg.
  destruct (TreeItem_childCount t <? position + count)%Z eqn:Hbig.
  { apply Z.ltb_lt in Hbig. rewrite decide_False by lia. done. }
  apply Z.ltb_ge in Hbig. rewrite decide_True by lia.
  unfold TreeItem_childCount in Hbig.
  rewrite pop_times_in_range by lia. done.
Qed.

(** X25. [removeChildren] never raises. It returns False and leaves the
    item alone when [position] is negative or [position + count] exceeds
    the number of children; otherwise it returns True and the children at
    [position] to [position + count - 1] are gone. After
    [insertChildren(position, count)], [removeChildren(position, count)]
    gives the item back as it was. *)
Theorem X25_removeChildren_bounds (position count : Z) (t : TreeItem) :
  removeChildren position count t =
    Ok (if decide (0 <= position /\
                   position + count <= TreeItem_childCount t)%Z
        then (true,
              mkTreeItem (_itemData t)
                (take (Z.to_nat position) (_childItems t) ++
                 drop (Z.to_nat position + Z.to_nat count) (_childItems t)))
        else (false, t)) /\
  ((0 <= position <= TreeItem_childCount t)%Z ->
   removeChildren position count (insertChildren position count t).2 =
     Ok (true, t)).
Proof.
  split; [apply removeChildren_spec|].
  - intros Hpos. unfold insertChildren.
    destruct (position <? 0)%Z eqn:Hneg; [apply Z.ltb_lt in Hneg; lia|].
    destruct (TreeItem_childCount t <? position)%Z eqn:Hbig;
      [apply Z.ltb_lt in Hbig; lia|].
    simpl. rewrite insertChildren_loop_spec. unfold removeChildren.
    unfold TreeItem_childCount in *. cbn [_childItems _itemData].
    rewrite Hneg. simpl.
    rewrite pop_insert_times by lia.
    rewrite insert_times_in_range by lia.
    rewrite !length_app, length_replicate, length_take, length_drop.
    match goal with
    | |- context [(Z.of_nat ?a <? ?b)%Z] =>
        destruct (Z.of_nat a <? b)%Z eqn:Hcheck
    end; [apply Z.ltb_lt in Hcheck; lia|].
    simpl. by destruct t.
Qed.

Lemma TreeItem_tree_ind (P : TreeItem -> Prop) :
  (forall itemData childItems,
     Forall P childItems -> P (mkTreeItem itemData childItems)) ->
  forall t, P t.
Proof.
  intros Hnode. fix IH 1. intros [itemData childItems]. apply Hnode.
  induction childItems as [|c cs IHcs]; constructor; [apply IH | apply IHcs].
Qed.

Lemma uniform_node (n : nat) itemData childItems :
  uniform n (mkTreeItem itemData childItems) = true <->
  length itemData = n /\ Forall (fun c => uniform n c = true) childItems.
Proof.
  cbn [uniform]. rewrite andb_true_iff, Nat.eqb_eq, forallb_forall.
  rewrite Forall_forall. split; intros [Hlen Hall]; (split; [done|]);
    intros c Hc; apply Hall; by apply list_elem_of_In.
Qed.

Lemma removeColumns_node (position columns : Z) itemData childItems :
  removeColumns position columns (mkTreeItem itemData childItems) =
    if ((position <? 0) ||
        (Z.of_nat (length itemData) <? position + columns))%Z
    then Ok (false, mkTreeItem itemData childItems)
    else
      rbind (pop_times (Z.to_nat columns) position itemData) (fun itemData' =>
      rbind (rmap (fun child =>
                     rbind (removeColumns position columns child)
                       (fun r => Ok r.2)) childItems) (fun childItems' =>
      Ok (true, mkTreeItem itemData' childItems'))).
Proof.
  cbn [removeColumns]. destruct (_ || _); [done|].
  destruct (pop_times _ _ _) as [itemData'|e]; [|done]. cbn [rbind].
  f_equal. induction childItems as [|c cs IH]; [done|].
  cbn [rmap]. destruct (removeColumns position columns c) as [r|e]; [|done].
  cbn [rbind]. by rewrite IH.
Qed.

Lemma length_insert_times {A} (n : nat) (position : Z) (x : A) (l : list A) :
  length (insert_times n position x l) = n + length l.
Proof.
  revert l. induction n as [|n IH]; intros l; [done|].
  cbn [insert_times]. rewrite IH.
  destruct (py_insert_split position x l) as (k & Hk & -> & _).
  rewrite length_app. cbn [length]. rewrite length_take, length_drop. lia.
Qed.

Lemma removeColumns_total (position columns : Z) (t : TreeItem) :
  exists success t',
    removeColumns position columns t = Ok (success, t').
Proof.
  induction t as [itemData childItems IH] using TreeItem_tree_ind.
  rewrite removeColumns_node.
  destruct (position <? 0)%Z eqn:Hneg; [by eexists _, _|].
  destruct (Z.of_nat (length itemData) <? position + columns)%Z eqn:Hbig;
    [by eexists _, _|].
  apply Z.ltb_ge in Hneg, Hbig. cbn [orb].
  rewrite pop_times_in_range by lia. cbn [rbind].
  assert (Hall : exists childItems',
            rmap (fun child =>
                    rbind (removeColumns position columns child)
                      (fun r => Ok r.2)) childItems = Ok childItems').
  { induction IH as [|c cs (b & c' & Hc) _ (cs' & Hcs)]; [by exists []|].
    exists (c' :: cs'). cbn [rmap]. rewrite Hc. cbn [rbind]. by rewrite Hcs. }
  destruct Hall as [childItems' ->]. by eexists _, _.
Qed.

Lemma insertColumns_uniform (n : nat) (position columns : Z) (t : TreeItem) :
  uniform n t = true -> (0 <= position <= Z.of_nat n)%Z ->
  exists t',
    insertColumns position columns t = (true, t') /\
    uniform (n + Z.to_nat columns) t' = true /\
    removeColumns position columns t' = Ok (true, t).
Proof.
  intros Huni Hpos. revert Huni.
  induction t as [itemData childItems IH] using TreeItem_tree_ind.
  intros [Hlen Hall]%uniform_node.
  cbn [insertColumns].
  destruct (position <? 0)%Z eqn:Hneg; [apply Z.ltb_lt in Hneg; lia|].
  destruct (Z.of_nat (length itemData) <? position)%Z eqn:Hbig;
    [apply Z.ltb_lt in Hbig; lia|].
  cbn [orb]. eexists. split; [reflexivity|].
  assert (Hchildren :
    Forall (fun c => uniform (n + Z.to_nat columns) c = true)
      ((fun child => (insertColumns position columns child).2) <$> childItems) /\
    rmap (fun child =>
            rbind (removeColumns position columns child) (fun r => Ok r.2))
      ((fun child => (insertColumns position columns child).2) <$> childItems) =
      Ok childItems).
  { clear Hlen Hbig. induction IH as [|c cs Hc _ IHcs]; [done|].
    apply Forall_cons in Hall as [Hcu Hall].
    destruct (Hc Hcu) as (c' & Hins & Huni' & Hback).
    destruct (IHcs Hall) as [Hunis Hbacks].
    rewrite fmap_cons, Hins. cbn [snd]. split; [by constructor|].
    cbn [rmap]. rewrite Hback. cbn [rbind snd]. by rewrite Hbacks. }
  destruct Hchildren as [Hunis Hbacks]. split.
  - apply uniform_node. split; [|done].
    rewrite length_insert_times. lia.
  - rewrite removeColumns_node, length_insert_times, Hneg.
    match goal with
    | |- context [(Z.of_nat ?a <? ?b)%Z] =>
        destruct (Z.of_nat a <? b)%Z eqn:Hcheck
    end; [apply Z.ltb_lt in Hcheck; lia|].
    cbn [orb]. rewrite pop_insert_times by lia. cbn [rbind].
    by rewrite Hbacks.
Qed.

Lemma removeColumns_uniform (n : nat) (position columns : Z) (t : TreeItem) :
  uniform n t = true ->
  (0 <= position)%Z -> (position + columns <= Z.of_nat n)%Z ->
  exists t',
    removeColumns position columns t = Ok (true, t') /\
    uniform (n - Z.to_nat columns) t' = true.
Proof.
  intros Huni Hpos Hend. revert Huni.
  induction t as [itemData childItems IH] using TreeItem_tree_ind.
  intros [Hlen Hall]%uniform_node.
  rewrite removeColumns_node.
  destruct (position <? 0)%Z eqn:Hneg; [apply Z.ltb_lt in Hneg; lia|].
  destruct (Z.of_nat (length itemData) <? position + columns)%Z eqn:Hbig;
    [apply Z.ltb_lt in Hbig; lia|].
  cbn [orb]. rewrite pop_times_in_range by lia. cbn [rbind].
  assert (Hchildren : exists childItems',
    rmap (fun child =>
            rbind (removeColumns position columns child) (fun r => Ok r.2))
      childItems = Ok childItems' /\
    Forall (fun c => uniform (n - Z.to_nat columns) c = true) childItems').
  { clear Hlen Hbig. induction IH as [|c cs Hc _ IHcs]; [by exists []|].
    apply Forall_cons in Hall as [Hcu Hall].
    destruct (Hc Hcu) as (c' & Hrem & Huni').
    destruct (IHcs Hall) as (cs' & Hrems & Hunis).
    exists (c' :: cs'). cbn [rmap]. rewrite Hrem. cbn [rbind snd].
    rewrite Hrems. split; [done | by constructor]. }
  destruct Hchildren as (childItems' & -> & Hunis). cbn [rbind].
  eexists. split; [reflexivity|].
  apply uniform_node. split; [|done].
  rewrite length_app, length_take, length_drop.
  destruct (decide (Z.to_nat columns = 0)); lia.
Qed.

Lemma insertChildren_uniform (n : nat) (position count : Z) (t : TreeItem) :
  uniform n t = true -> uniform n (insertChildren position count t).2 = true.
Proof.
  intros Huni. unfold insertChildren. destruct (_ || _); [done|].
  cbn [snd]. rewrite insertChildren_loop_spec.
  destruct t as [itemData childItems].
  apply uniform_node in Huni as [Hlen Hall].
  apply uniform_node. split; [done|]. cbn [_childItems _itemData].
  assert (Hnew : uniform n
            (TreeItem_init (Some (mkTreeItem itemData childItems))) = true).
  { unfold TreeItem_init, TreeItem_columnCount.
    cbn [_itemData uniform forallb].
    rewrite length_replicate, andb_true_r. apply Nat.eqb_eq. lia. }
  revert Hnew.
  generalize (TreeItem_init (Some (mkTreeItem itemData childItems))).
  intros x Hnew. generalize (Z.to_nat count). intros k.
  revert childItems Hall.
  induction k as [|k IH]; intros childItems Hall; [done|].
  cbn [insert_times]. apply IH.
  destruct (py_insert_split position x childItems) as (j & _ & -> & _).
  rewrite <- (take_drop j childItems) in Hall.
  apply Forall_app in Hall as [Htake Hdrop].
  apply Forall_app. split; [done|]. by constructor.
Qed.

(** X26. [removeColumns] never raises. In a tree whose items all have
    [n] columns, [insertChildren] keeps that property;
    [insertColumns(position, columns)] with [0 <= position <= n] returns
    True and gives every item of the tree [columns] more columns, and
    [removeColumns] with the same arguments then gives the tree back;
    [removeColumns] with [position >= 0] and [position + columns <= n]
    returns True and takes [columns] columns from every item. *)
Theorem X26_columns_stay_uniform (n : nat) (position columns : Z)
    (t : TreeItem) :
  (exists success t', removeColumns position columns t = Ok (success, t')) /\
  (uniform n t = true ->
   (forall row count, uniform n (insertChildren row count t).2 = true) /\
   ((0 <= position <= Z.of_nat n)%Z ->
    exists t',
      insertColumns position columns t = (true, t') /\
      uniform (n + Z.to_nat columns) t' = true /\
      removeColumns position columns t' = Ok (true, t)) /\
   ((0 <= position)%Z -> (position + columns <= Z.of_nat n)%Z ->
    exists t',
      removeColumns position columns t = Ok (true, t') /\
      uniform (n - Z.to_nat columns) t' = true)).
Proof.
  split; [apply removeColumns_total|]. intros Huni. split; [|split].
  - intros row count. by apply insertChildren_uniform.
  - by apply insertColumns_uniform.
  - by apply removeColumns_uniform.
Qed.

(** X27. [TreeModel.insertRows] calls [insertChildren] with three
    arguments, one more than it takes: for every position, number of rows
    and parent it raises TypeError after [beginInsertRows], inserts
    nothing and never sends [endInsertRows]. [removeRows] with the same
    arguments never raises and sends [endRemoveRows]. *)
Theorem X27_insertRows_always_raises (position rows : Z)
    (parent : option (list nat)) (m : TreeModel) :
  insertRows position rows parent m =
    (Raise TypeError,
     mkTreeModel (_rootItem m)
       (notifications m ++
          [beginInsertRows position (position + rows - 1)])) /\
  exists success root',
    removeRows position rows parent m =
      (Ok success,
       mkTreeModel root'
         (notifications m ++
            [beginRemoveRows position (position + rows - 1);
             endRemoveRows])).
Proof.
  split.
  - unfold insertRows. by destruct (TreeModel_item parent m).
  - unfold removeRows. destruct (TreeModel_item parent m) as [path item].
    rewrite removeChildren_spec.
    destruct (decide _); eexists _, _; cbn [notifications _rootItem];
      by rewrite <- app_assoc.
Qed.

Lemma X25_witness :
  removeChildren 1 1 sample_tree =
    Ok (true,
        mkTreeItem [Some "Name"; Some "Size"]
          [mkTreeItem [None; None] [mkTreeItem [None; None] []]]) /\
  removeChildren 1 3 (insertChildren 1 3 sample_tree).2 =
    Ok (true, sample_tree).
Proof.
  split.
  - destruct (X25_removeChildren_bounds 1 1 sample_tree) as [Hrun _].
    rewrite Hrun. reflexivity.
  - destruct (X25_removeChildren_bounds 1 3 sample_tree) as [_ Hback].
    apply Hback. compute_done.
Defined.

Lemma X26_witness :
  uniform 2 sample_tree = true /\
  (exists t',
     insertColumns 1 2 sample_tree = (true, t') /\
     uniform 4 t' = true /\
     removeColumns 1 2 t' = Ok (true, sample_tree)) /\
  (exists t',
     removeColumns 0 1 sample_tree = Ok (true, t') /\
     uniform 1 t' = true).
Proof.
  split; [reflexivity|]. split.
  - destruct (X26_columns_stay_uniform 2 1 2 sample_tree) as [_ Huni].
    destruct (Huni eq_refl) as (_ & Hins & _).
    apply Hins. compute_done.
  - destruct (X26_columns_stay_uniform 2 0 1 sample_tree) as [_ Huni].
    destruct (Huni eq_refl) as (_ & _ & Hrem).
    apply Hrem; compute_done.
Defined.

(** ** common/models/JsonModel.py *)

Lemma Document_tree_ind (P : Document -> Prop) :
  (forall v, P (DocLeaf v)) ->
  (forall items, Forall P items -> P (DocList items)) ->
  (forall items, Forall (fun kv => P kv.2) items -> P (DocDict items)) ->
  forall d, P d.
Proof.
  intros Hleaf Hlist Hdict. fix IH 1. intros [v|items|items].
  - apply Hleaf.
  - apply Hlist. induction items as [|d items IHi]; constructor;
      [apply IH | apply IHi].
  - apply Hdict. induction items as [|[k d] items IHi]; constructor;
      [apply IH | apply IHi].
Qed.

Lemma foldl_appendChild (l : list JsonTreeItem) (item : JsonTreeItem) :
  foldl (fun rootItem child => appendChild child rootItem) item l =
    mkJsonTreeItem (_key item) (_value item) (_valueType item)
      (_children item ++ l).
Proof.
  revert item. induction l as [|c l IH]; intros item; simpl.
  - rewrite app_nil_r. by destruct item.
  - rewrite IH. simpl. by rewrite <- app_assoc.
Qed.

Lemma foldl_appendChild_snd {K} (l : list (K * JsonTreeItem))
    (item : JsonTreeItem) :
  foldl (fun rootItem child => appendChild child.2 rootItem) item l =
    mkJsonTreeItem (_key item) (_value item) (_valueType item)
      (_children item ++ l.*2).
Proof.
  revert item. induction l as [|c l IH]; intros item; simpl.
  - rewrite app_nil_r. by destruct item.
  - rewrite IH. simpl. by rewrite <- app_assoc.
Qed.

(** [load] on a list: the children of the elements, numbered from 0. *)
Lemma JsonTreeItem_load_list (items : list Document) (sort : bool) :
  JsonTreeItem_load (DocList items) sort =
    rbind (rmap (fun iv => load_child (KeyInt iv.1) iv.2)
             (zip (seqZ 0 (Z.of_nat (length items))) items)) (fun children =>
    Ok (mkJsonTreeItem (KeyStr "root") (SStr "") None children)).
Proof.
  cbn [JsonTreeItem_load].
  match goal with
  | |- rbind ?a _ = rbind ?b _ => assert (Heach : a = b)
  end.
  { generalize 0%Z. induction items as [|v items IH]; intros index; [done|].
    rewrite seqZ_cons by (cbn [length]; lia).
    replace (Z.pred (Z.of_nat (length (v :: items))))
      with (Z.of_nat (length items)) by (cbn [length]; lia).
    cbn [zip zip_with rmap fst snd]. unfold load_child at 1.
    destruct (JsonTreeItem_load v true) as [child|e]; [|done].
    cbn [rbind]. by rewrite IH. }
  rewrite Heach. destruct (rmap _ _) as [children|e]; [|done].
  cbn [rbind]. by rewrite foldl_appendChild.
Qed.

(** [load] on a dict, with the children built in the order of the dict
    and sorted afterwards. *)
Lemma JsonTreeItem_load_dict_loaded (items : list (JsonKey * Document))
    (sort : bool) :
  JsonTreeItem_load (DocDict items) sort =
    rbind (rmap (fun kv => rbind (load_child kv.1 kv.2)
                             (fun child => Ok (kv.1, child))) items)
      (fun loaded =>
    rbind (if sort then py_sorted loaded else Ok loaded) (fun loaded' =>
    Ok (mkJsonTreeItem (KeyStr "root") (SStr "") None loaded'.*2))).
Proof.
  cbn [JsonTreeItem_load].
  match goal with
  | |- rbind ?a _ = rbind ?b _ => assert (Heach : a = b)
  end.
  { induction items as [|[key v] items IH]; [done|].
    cbn [rmap fst snd]. unfold load_child at 1.
    destruct (JsonTreeItem_load v true) as [child|e]; [|done].
    cbn [rbind]. by rewrite IH. }
  rewrite Heach. destruct (rmap _ _) as [loaded|e]; [|done].
  cbn [rbind]. destruct (if sort then _ else _) as [loaded'|e]; [|done].
  cbn [rbind]. by rewrite foldl_appendChild_snd.
Qed.

Lemma ltb_flip (s1 s2 : string) :
  String.ltb s1 s2 = false -> s1 <> s2 -> String.ltb s2 s1 = true.
Proof.
  unfold String.ltb. rewrite (String.compare_antisym s2 s1).
  destruct (String.compare s1 s2) eqn:Hcmp; [|done..].
  intros _ Hne. by apply String.compare_eq_iff in Hcmp.
Qed.

Lemma ascending_cons (a b : JsonKey) (rest : list JsonKey) :
  ascending (a :: b :: rest) = true <->
  key_lt a b = Ok true /\ ascending (b :: rest) = true.
Proof.
  cbn [ascending]. rewrite andb_true_iff.
  destruct (key_lt a b) as [[|]|e]; split; intros [? ?]; done.
Qed.

Lemma insort_str {V} (x : JsonKey * V) (l : list (JsonKey * V)) :
  Forall (fun kv => exists s, kv.1 = KeyStr s) (x :: l) ->
  x.1 ∉ l.*1 -> ascending l.*1 = true ->
  exists r, insort x l = Ok r /\ r ≡ₚ x :: l /\ ascending r.*1 = true /\
            (head r = Some x \/ head r = head l).
Proof.
  intros Hstr. apply Forall_cons in Hstr as [[sx Hx] Hstr].
  induction l as [|y l IH]; intros Hfresh Hasc.
  - exists [x]. by repeat split; try left.
  - apply Forall_cons in Hstr as [[sy Hy] Hstr].
    rewrite fmap_cons in Hfresh. apply not_elem_of_cons in Hfresh as [Hne Hfresh].
    cbn [insort]. rewrite Hx, Hy. cbn [key_lt rbind].
    destruct (String.ltb sx sy) eqn:Hlt.
    + exists (x :: y :: l). split; [done|]. split; [done|]. split; [|by left].
      rewrite !fmap_cons. apply ascending_cons. rewrite Hx, Hy. cbn [key_lt].
      rewrite Hlt. split; [done|]. by rewrite fmap_cons, Hy in Hasc.
    + destruct (IH Hstr Hfresh) as (r & Hr & Hperm & Hascr & Hhead).
      { rewrite fmap_cons in Hasc. destruct l as [|z l]; [done|].
        rewrite fmap_cons in Hasc. by apply ascending_cons in Hasc as [_ ?]. }
      rewrite Hr. cbn [rbind]. exists (y :: r). split; [done|].
      split; [by rewrite Hperm, perm_swap|]. split; [|by right].
      destruct r as [|z r]; [by apply Permutation_nil_cons in Hperm|].
      rewrite !fmap_cons. apply ascending_cons. split; [|done].
      cbn [head] in Hhead. destruct Hhead as [Hz|Hz].
      * injection Hz as ->. rewrite Hx, Hy. cbn [key_lt]. f_equal.
        apply ltb_flip; [done|]. intros ->. apply Hne. by rewrite Hx, Hy.
      * destruct l as [|z' l]; [done|]. injection Hz as ->.
        rewrite !fmap_cons in Hasc. by apply ascending_cons in Hasc as [? _].
Qed.

Lemma py_sorted_str {V} (l : list (JsonKey * V)) :
  Forall (fun kv => exists s, kv.1 = KeyStr s) l -> NoDup l.*1 ->
  exists r, py_sorted l = Ok r /\ r ≡ₚ l /\ ascending r.*1 = true.
Proof.
  induction l as [|x l IH]; intros Hstr Hnd.
  - by exists [].
  - apply Forall_cons in Hstr as [Hx Hstr].
    rewrite fmap_cons in Hnd. apply NoDup_cons in Hnd as [Hfresh Hnd].
    destruct (IH Hstr Hnd) as (r & Hr & Hperm & Hasc).
    cbn [py_sorted]. rewrite Hr. cbn [rbind].
    destruct (insort_str x r) as (r' & Hr' & Hperm' & Hasc' & _).
    + constructor; [done|]. by rewrite Hperm.
    + by rewrite Hperm.
    + done.
    + exists r'. split; [done|]. split; [|done]. by rewrite Hperm', Hperm.
Qed.

Lemma dict_get_NoDup {K V} `{EqDecision K} (d : dict K V) (k : K) (v : V) :
  NoDup d.*1 -> (k, v) ∈ d -> dict_get k d = Some v.
Proof.
  induction d as [|[k' v'] d IH]; intros Hnd Hin.
  - by apply elem_of_nil in Hin.
  - rewrite fmap_cons in Hnd. apply NoDup_cons in Hnd as [Hfresh Hnd].
    cbn [dict_get]. apply elem_of_cons in Hin as [Heq|Hin].
    + injection Heq as -> ->. by rewrite decide_True.
    + rewrite decide_False; [by apply IH|].
      intros ->. apply Hfresh. apply list_elem_of_fmap. by exists (k', v).
Qed.

Lemma to_dict_items (children : list JsonTreeItem)
    (document : dict JsonKey Document) :
  NoDup (document.*1 ++ (_key <$> children)) ->
  foldl (fun document ch => dict_set (_key ch) (to_dict ch) document)
    document children =
    document ++ ((fun ch => (_key ch, to_dict ch)) <$> children).
Proof.
  revert document. induction children as [|ch children IH]; intros document Hnd.
  - by rewrite app_nil_r.
  - cbn [foldl]. rewrite fmap_cons in Hnd.
    assert (Hfresh : dict_get (_key ch) document = None).
    { apply dict_get_None. apply NoDup_app in Hnd as (_ & Hdisj & _).
      intros Hin. apply (Hdisj _ Hin). by left. }
    rewrite (dict_set_fresh _ _ _ Hfresh). rewrite IH.
    + by rewrite <- app_assoc.
    + rewrite fmap_app, <- app_assoc. done.
Qed.

Lemma Forall2_elem_of_r {A B} (R : A -> B -> Prop) (l1 : list A) (l2 : list B) :
  Forall2 R l1 l2 -> Forall (fun x => exists y, y ∈ l2 /\ R x y) l1.
Proof.
  induction 1 as [|x y l1 l2 Hxy _ IH]; constructor.
  - exists y. split; [by left | done].
  - eapply Forall_impl; [exact IH|]. intros x' (y' & Hin & HR).
    exists y'. split; [by right | done].
Qed.

Lemma is_json_dict (items : list (JsonKey * Document)) :
  is_json (DocDict items) = true ->
  NoDup items.*1 /\
  Forall (fun kv => (exists s, kv.1 = KeyStr s) /\ is_json kv.2 = true) items.
Proof.
  cbn [is_json]. intros [Hnd Hall]%andb_true_iff.
  split; [by apply bool_decide_eq_true in Hnd|].
  apply Forall_forall. intros [k v] Hin.
  rewrite forallb_forall in Hall. apply list_elem_of_In, Hall in Hin.
  destruct k as [s|i]; [|done]. split; [by exists s | done].
Qed.

Lemma is_json_list (items : list Document) :
  is_json (DocList items) = true -> Forall (fun v => is_json v = true) items.
Proof.
  cbn [is_json]. intros Hall. apply Forall_forall. intros v Hin.
  rewrite forallb_forall in Hall. by apply Hall, list_elem_of_In.
Qed.

Lemma forallb_Forall {A} (f : A -> bool) (l : list A) :
  Forall (fun x => f x = true) l -> forallb f l = true.
Proof.
  intros Hall. apply forallb_forall. intros x Hin.
  rewrite Forall_forall in Hall. by apply Hall, list_elem_of_In.
Qed.

(** What the children built for the items of a dict are. *)
Lemma load_items_good (items : list (JsonKey * Document)) :
  Forall (fun kv =>
            is_json kv.2 = true ->
            forall key, exists c,
              load_child key kv.2 = Ok c /\ _key c = key /\
              doc_eq (to_dict c) kv.2 /\ rows_ordered c = true) items ->
  Forall (fun kv => (exists s, kv.1 = KeyStr s) /\ is_json kv.2 = true) items ->
  exists loaded,
    rmap (fun kv => rbind (load_child kv.1 kv.2)
                      (fun child => Ok (kv.1, child))) items = Ok loaded /\
    Forall2 (fun kc kv =>
               kc.1 = kv.1 /\ _key kc.2 = kv.1 /\
               doc_eq (to_dict kc.2) kv.2 /\ rows_ordered kc.2 = true)
      loaded items.
Proof.
  induction 1 as [|kv items Hkv _ IH]; intros Hjson.
  - by exists [].
  - apply Forall_cons in Hjson as [[_ Hv] Hjson].
    destruct (Hkv Hv kv.1) as (c & Hc & Hkey & Heq & Hrows).
    destruct (IH Hjson) as (loaded & Hloaded & Hall).
    exists ((kv.1, c) :: loaded). cbn [rmap]. rewrite Hc. cbn [rbind].
    rewrite Hloaded. split; [done|]. by constructor.
Qed.

(** What the children built for the elements of a list are. *)
Lemma load_elements_good (items : list Document) (index : Z) :
  Forall (fun v =>
            is_json v = true ->
            forall key, exists c,
              load_child key v = Ok c /\ _key c = key /\
              doc_eq (to_dict c) v /\ rows_ordered c = true) items ->
  Forall (fun v => is_json v = true) items ->
  exists children,
    rmap (fun iv => load_child (KeyInt iv.1) iv.2)
      (zip (seqZ index (Z.of_nat (length items))) items) = Ok children /\
    Forall2 (fun c v => doc_eq (to_dict c) v) children items /\
    _key <$> children = KeyInt <$> seqZ index (Z.of_nat (length items)) /\
    Forall (fun c => rows_ordered c = true) children.
Proof.
  intros IH. revert index.
  induction IH as [|v items Hv _ IH]; intros index Hjson.
  - by exists [].
  - apply Forall_cons in Hjson as [Hjv Hjson].
    destruct (Hv Hjv (KeyInt index)) as (c & Hc & Hkey & Heq & Hrows).
    destruct (IH (Z.succ index) Hjson)
      as (children & Hchildren & Hall & Hkeys & Hordered).
    exists (c :: children).
    rewrite seqZ_cons by (cbn [length]; lia).
    replace (Z.pred (Z.of_nat (length (v :: items))))
      with (Z.of_nat (length items)) by (cbn [length]; lia).
    cbn [zip zip_with rmap fst snd]. rewrite Hc. cbn [rbind].
    rewrite Hchildren. split; [done|]. split; [by constructor|].
    split; [|by constructor]. rewrite !fmap_cons. by rewrite Hkey, Hkeys.
Qed.

Lemma load_child_good (value : Document) :
  is_json value = true ->
  forall key, exists c,
    load_child key value = Ok c /\ _key c = key /\
    doc_eq (to_dict c) value /\ rows_ordered c = true.
Proof.
  induction value as [v|items IH|items IH] using Document_tree_ind;
    intros Hjson key; unfold load_child.
  - cbn [JsonTreeItem_load rbind]. eexists. split; [reflexivity|].
    split; [done|]. destruct v; split; by constructor.
  - rewrite JsonTreeItem_load_list.
    destruct (load_elements_good items 0 IH (is_json_list _ Hjson))
      as (children & -> & Hall & Hkeys & Hordered).
    cbn [rbind]. eexists. split; [reflexivity|]. split; [done|].
    cbn [type_of set_valueType set_key _key _value _children to_dict
         rows_ordered].
    split.
    + constructor. by apply Forall2_fmap_l.
    + apply andb_true_iff. split; [|by apply forallb_Forall].
      apply bool_decide_eq_true. rewrite Hkeys.
      by rewrite (Forall2_length _ _ _ Hall).
  - rewrite JsonTreeItem_load_dict_loaded.
    destruct (is_json_dict _ Hjson) as [Hnd Hitems].
    destruct (load_items_good items IH Hitems) as (loaded & -> & Hall).
    cbn [rbind].
    assert (Hkeys : loaded.*1 = items.*1).
    { clear -Hall. induction Hall as [|kc kv l1 l2 (Hk & _) _ IHl]; [done|].
      rewrite !fmap_cons. by rewrite Hk, IHl. }
    destruct (py_sorted_str loaded) as (loaded' & -> & Hperm & Hasc).
    { apply Forall_forall. intros kc Hin.
      apply Forall2_elem_of_r in Hall. rewrite Forall_forall in Hall.
      destruct (Hall kc Hin) as (kv & Hkv & Hk & _).
      rewrite Forall_forall in Hitems. destruct (Hitems kv Hkv) as [[s Hs] _].
      exists s. by rewrite Hk. }
    { by rewrite Hkeys. }
    cbn [rbind]. eexists. split; [reflexivity|]. split; [done|].
    cbn [type_of set_valueType set_key _key _value _children to_dict
         rows_ordered].
    assert (Hgood : Forall (fun kc =>
              _key kc.2 = kc.1 /\ rows_ordered kc.2 = true /\
              exists v, dict_get kc.1 items = Some v /\
                        doc_eq (to_dict kc.2) v) loaded').
    { apply Forall_forall. intros kc Hin. rewrite Hperm in Hin.
      apply Forall2_elem_of_r in Hall. rewrite Forall_forall in Hall.
      destruct (Hall kc Hin) as ([k v] & Hkv & Hk & Hkey & Heq & Hrows).
      cbn [fst snd] in *. split; [by rewrite Hk|]. split; [done|].
      exists v. split; [|done]. rewrite Hk. by apply dict_get_NoDup. }
    assert (Hchildkeys : _key <$> loaded'.*2 = loaded'.*1).
    { clear -Hgood. induction Hgood as [|kc l (Hk & _) _ IHl]; [done|].
      rewrite !fmap_cons. by rewrite Hk, IHl. }
    split.
    + rewrite (to_dict_items _ []).
      2:{ cbn [fmap list_fmap app]. rewrite Hchildkeys, Hperm, Hkeys. done. }
      cbn [app]. constructor.
      * rewrite !length_fmap, Hperm.
        by rewrite <- (length_fmap fst loaded), Hkeys, length_fmap.
      * rewrite <- list_fmap_compose. apply Forall_fmap.
        eapply Forall_impl; [exact Hgood|].
        intros kc (Hk & _ & v & Hget & Heq). cbn [compose fst snd].
        exists v. by rewrite Hk.
    + apply andb_true_iff. split; [by rewrite Hchildkeys|].
      apply forallb_Forall, Forall_fmap.
      eapply Forall_impl; [exact Hgood|]. by intros kc (_ & ? & _).
Qed.

Lemma JsonModel_load_child (document : Document) :
  type_of document = type_dict \/ type_of document = type_list ->
  JsonModel_load document = load_child (KeyStr "root") document.
Proof.
  intros Htype. unfold JsonModel_load, load_child.
  destruct document as [v|items|items].
  - destruct v, Htype; done.
  - rewrite JsonTreeItem_load_list. by destruct (rmap _ _).
  - rewrite JsonTreeItem_load_dict_loaded.
    destruct (rmap _ _) as [loaded|e]; [|done]. cbn [rbind].
    by destruct (py_sorted loaded).
Qed.

(** X28. Loading a document that [json.load] produced (a dict or a list;
    string keys, pairwise different within a dict) into a [JsonModel]
    never raises, and [to_dict] of the loaded tree is equal to the
    document as Python compares dicts and lists: the same items at every
    level, the items of a dict in any order. *)
Theorem X28_json_round_trip (document : Document) :
  is_json document = true ->
  type_of document = type_dict \/ type_of document = type_list ->
  exists rootItem,
    JsonModel_load document = Ok rootItem /\
    doc_eq (to_dict rootItem) document.
Proof.
  intros Hjson Htype. rewrite JsonModel_load_child by done.
  destruct (load_child_good document Hjson (KeyStr "root"))
    as (c & Hc & _ & Heq & _).
  by exists c.
Qed.

(** X29. The rows of a loaded model are ordered: below every item of type
    dict the rows are in ascending order of their keys, below every item
    of type list they are numbered from 0. [sort=False] is not passed on
    to the children: [_JsonTreeItem.load(document, sort=False)] keeps the
    items of the outermost dict in the order of the document, and the
    rows below them are sorted as before. *)
Theorem X29_json_rows_sorted (document : Document) :
  is_json document = true ->
  type_of document = type_dict \/ type_of document = type_list ->
  (exists rootItem,
     JsonModel_load document = Ok rootItem /\
     rows_ordered rootItem = true) /\
  (forall items,
     document = DocDict items ->
     exists rootItem,
       JsonTreeItem_load document false = Ok rootItem /\
       _key <$> _children rootItem = items.*1 /\
       Forall (fun c => rows_ordered c = true) (_children rootItem)).
Proof.
  intros Hjson Htype. split.
  - rewrite JsonModel_load_child by done.
    destruct (load_child_good document Hjson (KeyStr "root"))
      as (c & Hc & _ & _ & Hrows).
    by exists c.
  - intros items ->. rewrite JsonTreeItem_load_dict_loaded.
    destruct (is_json_dict _ Hjson) as [Hnd Hitems].
    destruct (load_items_good items) as (loaded & -> & Hall); [|done|].
    { apply Forall_forall. intros kv _ Hkv. by apply load_child_good. }
    cbn [rbind]. eexists. split; [reflexivity|]. cbn [_children].
    clear -Hall. induction Hall as [|kc kv l1 l2 (Hk & Hkey & _ & Hrows) _ IH].
    + by split.
    + destruct IH as [IHk IHr]. rewrite !fmap_cons. split.
      * by rewrite Hkey, IHk.
      * by constructor.
Qed.

Lemma key_lt_raises (a b : JsonKey) (e : PyExc) :
  key_lt a b = Raise e -> e = TypeError.
Proof. destruct a, b; cbn [key_lt]; congruence. Qed.

Lemma insort_raises {V} (x : JsonKey * V) (l : list (JsonKey * V)) (e : PyExc) :
  insort x l = Raise e -> e = TypeError.
Proof.
  induction l as [|y l IH]; [done|]. cbn [insort].
  destruct (key_lt x.1 y.1) as [[|]|e'] eqn:Hlt; cbn [rbind].
  - done.
  - destruct (insort x l); [done|]. cbn [rbind]. intros [= <-]. by apply IH.
  - intros [= <-]. by eapply key_lt_raises.
Qed.

Lemma py_sorted_raises {V} (l : list (JsonKey * V)) (e : PyExc) :
  py_sorted l = Raise e -> e = TypeError.
Proof.
  induction l as [|x l IH]; [done|]. cbn [py_sorted].
  destruct (py_sorted l) as [r|e']; cbn [rbind].
  - apply insort_raises.
  - intros [= <-]. by apply IH.
Qed.

Lemma insort_Permutation {V} (x : JsonKey * V) (l r : list (JsonKey * V)) :
  insort x l = Ok r -> r ≡ₚ x :: l.
Proof.
  revert r. induction l as [|y l IH]; intros r; [by intros [= <-]|].
  cbn [insort]. destruct (key_lt x.1 y.1) as [[|]|e]; cbn [rbind]; [| |done].
  - by intros [= <-].
  - destruct (insort x l) as [r'|e]; [|done]. cbn [rbind]. intros [= <-].
    by rewrite (IH r' eq_refl), perm_swap.
Qed.

Lemma py_sorted_Permutation {V} (l r : list (JsonKey * V)) :
  py_sorted l = Ok r -> r ≡ₚ l.
Proof.
  revert r. induction l as [|x l IH]; intros r; [by intros [= <-]|].
  cbn [py_sorted]. destruct (py_sorted l) as [r'|e]; [|done]. cbn [rbind].
  intros Hr%insort_Permutation. by rewrite Hr, (IH r' eq_refl).
Qed.

(** Sorting looks at the keys only. *)
Lemma insort_fmap {V W} (g : JsonKey * V -> W) (x : JsonKey * V)
    (l : list (JsonKey * V)) :
  insort (x.1, g x) ((fun kv => (kv.1, g kv)) <$> l) =
    rbind (insort x l) (fun r => Ok ((fun kv => (kv.1, g kv)) <$> r)).
Proof.
  induction l as [|y l IH]; [done|].
  rewrite fmap_cons. cbn [insort fst].
  destruct (key_lt x.1 y.1) as [[|]|e]; cbn [rbind]; [done| |done].
  rewrite IH. by destruct (insort x l).
Qed.

Lemma py_sorted_fmap {V W} (g : JsonKey * V -> W) (l : list (JsonKey * V)) :
  py_sorted ((fun kv => (kv.1, g kv)) <$> l) =
    rbind (py_sorted l) (fun r => Ok ((fun kv => (kv.1, g kv)) <$> r)).
Proof.
  induction l as [|x l IH]; [done|].
  rewrite fmap_cons. cbn [py_sorted]. rewrite IH.
  destruct (py_sorted l) as [r|e]; [|done]. cbn [rbind]. apply insort_fmap.
Qed.

Lemma JsonTreeItem_load_raises (value : Document) (sort : bool) (e : PyExc) :
  JsonTreeItem_load value sort = Raise e -> e = TypeError.
Proof.
  revert sort e.
  induction value as [v|items IH|items IH] using Document_tree_ind;
    intros sort e.
  - done.
  - rewrite JsonTreeItem_load_list.
    generalize 0%Z. intros index.
    destruct (rmap _ _) as [children|e'] eqn:Hmap; [done|].
    cbn [rbind]. intros [= <-]. revert index Hmap.
    induction IH as [|v items Hv _ IHitems]; intros index; [done|].
    rewrite seqZ_cons by (cbn [length]; lia).
    replace (Z.pred (Z.of_nat (length (v :: items))))
      with (Z.of_nat (length items)) by (cbn [length]; lia).
    cbn [zip zip_with rmap fst snd]. unfold load_child at 1.
    destruct (JsonTreeItem_load v true) as [c|e1] eqn:Hc; cbn [rbind].
    + destruct (rmap _ _) as [cs|e2] eqn:Hcs; [done|]. cbn [rbind].
      intros [= <-]. by apply (IHitems (Z.succ index)).
    + intros [= <-]. by apply (Hv true).
  - rewrite JsonTreeItem_load_dict_loaded.
    destruct (rmap _ _) as [loaded|e'] eqn:Hmap; cbn [rbind].
    + destruct sort; [|done].
      destruct (py_sorted loaded) as [loaded'|e1] eqn:Hs; [done|].
      cbn [rbind]. intros [= <-]. by eapply py_sorted_raises.
    + intros [= <-]. clear sort. revert Hmap.
      induction IH as [|kv items Hv _ IHitems]; [done|].
      cbn [rmap]. unfold load_child at 1.
      destruct (JsonTreeItem_load kv.2 true) as [c|e1] eqn:Hc; cbn [rbind].
      * destruct (rmap _ _) as [cs|e2] eqn:Hcs; [done|]. cbn [rbind].
        intros [= <-]. by apply IHitems.
      * intros [= <-]. by apply (Hv true).
Qed.

Lemma load_child_raises (key : JsonKey) (value : Document) (e : PyExc) :
  load_child key value = Raise e -> e = TypeError.
Proof.
  unfold load_child.
  destruct (JsonTreeItem_load value true) as [c|e'] eqn:Hc; [done|].
  cbn [rbind]. intros [= <-]. by eapply JsonTreeItem_load_raises.
Qed.

Lemma rmap_Ok_Forall2 {A B} (f : A -> Result B) (xs : list A) (ys : list B) :
  rmap f xs = Ok ys <-> Forall2 (fun x y => f x = Ok y) xs ys.
Proof.
  revert ys. induction xs as [|x xs IH]; intros ys.
  - cbn [rmap]. split.
    + intros [= <-]. constructor.
    + by intros ->%Forall2_nil_inv_l.
  - cbn [rmap]. split.
    + destruct (f x) as [y|e] eqn:Hx; [|done]. cbn [rbind].
      destruct (rmap f xs) as [ys'|e]; [|done]. cbn [rbind].
      intros [= <-]. constructor; [done|]. by apply IH.
    + intros (y & ys' & Hy & Hys & ->)%Forall2_cons_inv_l.
      rewrite Hy. cbn [rbind]. apply IH in Hys. by rewrite Hys.
Qed.

(** [load] on a dict in the order of the source: the items are sorted,
    then the child of every item is built. *)
Lemma JsonTreeItem_load_dict (items : list (JsonKey * Document)) (sort : bool) :
  JsonTreeItem_load (DocDict items) sort =
    rbind (if sort then py_sorted items else Ok items) (fun items' =>
    rbind (rmap (fun kv => load_child kv.1 kv.2) items') (fun children =>
    Ok (mkJsonTreeItem (KeyStr "root") (SStr "") None children))).
Proof.
  rewrite JsonTreeItem_load_dict_loaded.
  set (lc := fun kv : JsonKey * Document => load_child kv.1 kv.2).
  set (g := fun kv => match lc kv with Ok c => c | Raise _ => JsonTreeItem_init end).
  assert (Hbuild : forall l,
    rmap (fun kv => rbind (load_child kv.1 kv.2)
                      (fun child => Ok (kv.1, child))) l =
    rbind (rmap lc l) (fun _ => Ok ((fun kv => (kv.1, g kv)) <$> l))).
  { induction l as [|kv l IHl]; [done|]. cbn [rmap]. rewrite IHl, fmap_cons.
    subst g. cbn beta. fold (lc kv). destruct (lc kv) as [c|e]; [|done].
    cbn [rbind]. by destruct (rmap lc l). }
  assert (Hlc : forall l cs, rmap lc l = Ok cs -> cs = g <$> l).
  { intros l cs Hcs%rmap_Ok_Forall2.
    induction Hcs as [|kv c l cs Hc _ IHl]; [done|].
    rewrite fmap_cons, IHl. f_equal. subst g. cbn beta. by rewrite Hc. }
  assert (Hraise : forall l e, rmap lc l = Raise e -> e = TypeError).
  { induction l as [|kv l IHl]; [done|]. intros e. cbn [rmap].
    destruct (lc kv) as [c|e'] eqn:Hc; cbn [rbind].
    - destruct (rmap lc l) as [cs|e2]; [done|]. cbn [rbind].
      intros [= <-]. by apply IHl.
    - intros [= <-]. by eapply load_child_raises. }
  rewrite Hbuild.
  destruct (rmap lc items) as [cs|e] eqn:Hitems; cbn [rbind].
  - destruct sort; cbn [rbind].
    + rewrite py_sorted_fmap.
      destruct (py_sorted items) as [items'|e] eqn:Hs; [|done]. cbn [rbind].
      assert (Hok : exists cs', rmap lc items' = Ok cs').
      { apply py_sorted_Permutation in Hs.
        apply rmap_Ok_Forall2 in Hitems.
        assert (Hall : Forall (fun kv => is_ok (lc kv) = true) items').
        { rewrite Hs. clear -Hitems.
          induction Hitems as [|kv c l cs Hc _ IHl]; constructor; [|done].
          by rewrite Hc. }
        clear -Hall. induction Hall as [|kv l Hkv _ [cs' IHl]]; [by exists []|].
        destruct (lc kv) as [c|e] eqn:Hc; [|done].
        exists (c :: cs'). cbn [rmap]. by rewrite Hc, IHl. }
      destruct Hok as [cs' Hcs']. rewrite Hcs'. cbn [rbind].
      rewrite (Hlc _ _ Hcs'). by rewrite <- list_fmap_compose.
    + rewrite Hitems. cbn [rbind]. rewrite (Hlc _ _ Hitems).
      by rewrite <- list_fmap_compose.
  - pose proof (Hraise _ _ Hitems) as ->.
    destruct sort; cbn [rbind]; [|by rewrite Hitems].
    destruct (py_sorted items) as [items'|e] eqn:Hs; cbn [rbind].
    + destruct (rmap lc items') as [cs'|e] eqn:Hcs'; cbn [rbind].
      * exfalso. apply py_sorted_Permutation in Hs.
        apply rmap_Ok_Forall2 in Hcs'.
        assert (Hall : Forall (fun kv => is_ok (lc kv) = true) items).
        { rewrite <- Hs. clear -Hcs'.
          induction Hcs' as [|kv c l cs Hc _ IHl]; constructor; [|done].
          by rewrite Hc. }
        clear -Hall Hitems. revert Hitems.
        induction Hall as [|kv l Hkv _ IHl]; [done|].
        cbn [rmap]. destruct (lc kv) as [c|e] eqn:Hc; [|done]. cbn [rbind].
        destruct (rmap lc l); [done|]. by apply IHl.
      * by rewrite (Hraise _ _ Hcs').
    + by rewrite (py_sorted_raises _ _ Hs).
Qed.

Lemma insort_same_kind {V} (x y : JsonKey * V) (l r : list (JsonKey * V)) :
  insort x (y :: l) = Ok r -> is_ok (key_lt x.1 y.1) = true.
Proof. cbn [insort]. by destruct (key_lt x.1 y.1). Qed.

Lemma py_sorted_same_kind {V} (l r : list (JsonKey * V)) :
  py_sorted l = Ok r ->
  forall x y, x ∈ l -> y ∈ l -> is_ok (key_lt x.1 y.1) = true.
Proof.
  assert (Htrans : forall a b c : JsonKey,
            is_ok (key_lt a b) = true -> is_ok (key_lt b c) = true ->
            is_ok (key_lt a c) = true) by (by intros [] [] []).
  assert (Hsym : forall a b : JsonKey,
            is_ok (key_lt a b) = true -> is_ok (key_lt b a) = true)
    by (by intros [] []).
  assert (Hrefl : forall a : JsonKey, is_ok (key_lt a a) = true)
    by (by intros []).
  revert r. induction l as [|z l IH]; intros r Hr x y Hx Hy.
  - by apply elem_of_nil in Hx.
  - cbn [py_sorted] in Hr.
    destruct (py_sorted l) as [r'|e] eqn:Hl; [|done]. cbn [rbind] in Hr.
    assert (Hz : forall w, w ∈ l -> is_ok (key_lt z.1 w.1) = true).
    { intros w Hw. destruct r' as [|y' r'].
      - apply py_sorted_Permutation in Hl. rewrite <- Hl in Hw.
        by apply elem_of_nil in Hw.
      - apply insort_same_kind in Hr.
        apply (Htrans _ y'.1); [done|].
        apply (IH _ eq_refl); [|done].
        rewrite <- (py_sorted_Permutation _ _ Hl). by left. }
    apply elem_of_cons in Hx as [->|Hx], Hy as [->|Hy].
    + apply Hrefl.
    + by apply Hz.
    + by apply Hsym, Hz.
    + by apply (IH _ eq_refl).
Qed.

(** X30. A dict that has a string key and an integer key cannot be
    loaded: [sorted] has to compare the two, so [JsonModel.load] raises
    TypeError, whatever else the document holds. *)
Theorem X30_mixed_keys_type_error (items : list (JsonKey * Document))
    (s : string) (i : Z) :
  KeyStr s ∈ items.*1 -> KeyInt i ∈ items.*1 ->
  JsonModel_load (DocDict items) = Raise TypeError.
Proof.
  intros Hs Hi. unfold JsonModel_load. rewrite JsonTreeItem_load_dict.
  destruct (py_sorted items) as [items'|e] eqn:Hsorted; cbn [rbind].
  - apply list_elem_of_fmap in Hs as (x & Hxk & Hx).
    apply list_elem_of_fmap in Hi as (y & Hyk & Hy).
    pose proof (py_sorted_same_kind _ _ Hsorted x y Hx Hy) as Hkind.
    by rewrite <- Hxk, <- Hyk in Hkind.
  - by rewrite (py_sorted_raises _ _ Hsorted).
Qed.

Lemma X28_witness :
  exists rootItem,
    JsonModel_load sample_document = Ok rootItem /\
    doc_eq (to_dict rootItem) sample_document.
Proof.
  apply X28_json_round_trip; [reflexivity | by left].
Defined.

Lemma X29_witness :
  (exists rootItem,
     JsonModel_load sample_document = Ok rootItem /\
     rows_ordered rootItem = true) /\
  (exists rootItem,
     JsonTreeItem_load sample_document false = Ok rootItem /\
     _key <$> _children rootItem = [KeyStr "name"; KeyStr "deps"] /\
     Forall (fun c => rows_ordered c = true) (_children rootItem)).
Proof.
  destruct (X29_json_rows_sorted sample_document) as [Hsorted Hunsorted];
    [reflexivity | by left |].
  split; [exact Hsorted|]. by apply (Hunsorted sample_items).
Defined.

Lemma X30_witness :
  JsonModel_load
    (DocDict [(KeyInt 1, DocLeaf SNone); (KeyStr "a", DocLeaf SNone)]) =
    Raise TypeError.
Proof.
  apply (X30_mixed_keys_type_error _ "a" 1); compute_done.
Defined.
